(** * LinkedIn auto-poster: report parser, convergence loop and collectors

  A shallow embedding of [main.py], [tools/rss_fetcher.py],
  [tools/gnews_fetcher.py] and [tools/linkedin_poster.py], with the
  properties of the verification report parser, of the bounded
  rewrite loop and of the surrounding workflow. *)

From Stdlib Require Import ZArith String Ascii List Bool Lia.
From Stdlib Require Import SpecFloat DecimalString.
From Stdlib Require Import Reals Lra Psatz.
From Stdlib Require Import Sorting Permutation.
From Equations Require Import Equations.
Import ListNotations.

Local Open Scope Z_scope.

(** ** Python [str] operations used by the parser

  Text is a sequence of characters; the markers searched for are
  ASCII, and [lower] is the ASCII case mapping. *)
Module PyStr.

Local Open Scope string_scope.

(** [c.lower()] on one character: 'A'..'Z' are moved to 'a'..'z'. *)
Definition lower_char (c : ascii) : ascii :=
  let n := nat_of_ascii c in
  if (65 <=? n)%nat && (n <=? 90)%nat then ascii_of_nat (n + 32) else c.

(** [s.lower()] *)
Fixpoint lower (s : string) : string :=
  match s with
  | EmptyString => EmptyString
  | String c s' => String (lower_char c) (lower s')
  end.

(** [s.startswith(p)] *)
Fixpoint startswith (p s : string) : bool :=
  match p, s with
  | EmptyString, _ => true
  | String a p', String b s' => Ascii.eqb a b && startswith p' s'
  | String _ _, EmptyString => false
  end.

(** [sub in s] *)
Fixpoint contains (sub s : string) : bool :=
  startswith sub s ||
  match s with
  | EmptyString => false
  | String _ s' => contains sub s'
  end.

(** The left-to-right scan shared by [count] and [replace]: [skip]
    is the number of characters of the last match still to be
    stepped over, so that matches never overlap. *)
Fixpoint count_from (sub s : string) (skip : nat) : Z :=
  match s with
  | EmptyString => 0
  | String _ s' =>
      match skip with
      | S k => count_from sub s' k
      | O =>
          if startswith sub s
          then 1 + count_from sub s' (String.length sub - 1)
          else count_from sub s' 0
      end
  end.

(** [s.count(sub)] for a non-empty [sub]: the number of
    non-overlapping occurrences. *)
Definition count (sub s : string) : Z := count_from sub s 0.

Fixpoint replace_from (old new s : string) (skip : nat) : string :=
  match s with
  | EmptyString => EmptyString
  | String c s' =>
      match skip with
      | S k => replace_from old new s' k
      | O =>
          if startswith old s
          then new ++ replace_from old new s' (String.length old - 1)
          else String c (replace_from old new s' 0)
      end
  end.

(** [s.replace(old, new)] for a non-empty [old]. *)
Definition replace (old new s : string) : string := replace_from old new s 0.

(** [str(n)] for an [int]. *)
Definition str (n : Z) : string := NilZero.string_of_int (Z.to_int n).

(** [s[:n]] *)
Definition take (n : nat) (s : string) : string := substring 0 n s.

(** The newline character. *)
Definition nl : string := String "010" EmptyString.

End PyStr.

(** ** Python [float]: IEEE 754 binary64, round to nearest even *)
Module PyFloat.

Definition prec : Z := 53.
Definition emax : Z := 1024.

(** [float(n)] for an [int]: round to nearest even. *)
Definition of_int (n : Z) : spec_float := binary_normalize prec emax n 0 false.

(** An [int] as the exact operand [n * 2^0] of a float operation,
    before any rounding. *)
Definition exact_int (n : Z) : spec_float :=
  match n with
  | Z0 => S754_zero false
  | Zpos p => S754_finite false p 0
  | Zneg p => S754_finite true p 0
  end.

(** [a / b] on two [int]s: CPython's [long_true_divide] returns the
    correctly rounded quotient of the two integers, that is, one
    rounding of the exact operands. (Below [2^53] this is the
    quotient of the two doubles [float(a)] and [float(b)].) With
    [b = 0] Python raises [ZeroDivisionError]; the result here is
    then an infinity or a NaN, on which [to_int] fails. *)
Definition truediv (a b : Z) : spec_float :=
  SFdiv prec emax (exact_int a) (exact_int b).

(** [x * n] with a [float] on the left and an [int] on the right. *)
Definition mul_int (x : spec_float) (n : Z) : spec_float :=
  SFmul prec emax x (of_int n).

(** The integer part of [m * 2^e] for a positive mantissa. *)
Definition trunc_pos (m : positive) (e : Z) : Z :=
  match e with
  | Zneg p => Zpos m / 2 ^ Zpos p
  | _ => Zpos m * 2 ^ e
  end.

(** [int(x)]: truncation toward zero; [None] where Python raises
    ([OverflowError] on an infinity, [ValueError] on a NaN). *)
Definition to_int (x : spec_float) : option Z :=
  match x with
  | S754_zero _ => Some 0
  | S754_finite s m e => Some (cond_Zopp s (trunc_pos m e))
  | S754_infinity _ | S754_nan => None
  end.

End PyFloat.

(** ** Vocabulary of the rounding analysis *)
Module Rounding.
Import PyFloat.

(** The number of low bits given up when a mantissa [m] at exponent
    [e] is brought to the format. *)
Definition shift_of (m e : Z) : Z :=
  Z.max 0 (fexp prec emax (Zdigits2 m + e) - e).

(** The float made of a rounded mantissa [M1] at exponent [e1]: one
    more shift if the rounding carried into a new bit. *)
Definition pack (M1 e1 : Z) : spec_float :=
  match M1 / 2 ^ shift_of M1 e1 with
  | Z0 => S754_zero false
  | Zpos M =>
      if e1 + shift_of M1 e1 <=? emax - prec
      then S754_finite false M (e1 + shift_of M1 e1)
      else S754_infinity false
  | Zneg _ => S754_nan
  end.

(** The fraction left of a mantissa: [l] says where [num / den] lies
    in [0, 1): at 0, below, at or above one half. *)
Definition loc_frac (l : location) (num den : Z) : Prop :=
  0 <= num < den /\
  l = if num =? 0 then loc_Exact else loc_Inexact (2 * num ?= den).



(** The real number a float stands for. *)
Definition bpow (e : Z) : R := powerRZ 2 e.

(** The integer division behind [a / b]: the dividend is scaled by a
    power of two large enough for 53 bits of quotient. *)
Definition div_scale (a b : Z) : Z :=
  - Z.min (fexp prec emax (Zdigits2 a - Zdigits2 b)) 0.


(** The unit roundoff of binary64. *)
Definition u53 : R := (/ IZR (2 ^ 53))%R.

End Rounding.

(** ** The report parser of [step_4_verify_post] *)
Module Verify.

Local Open Scope string_scope.

Record verdict := {
  passed : bool;
  confidence : Z;
  report : string
}.

Definition report_lower (verification_report : string) : string :=
  PyStr.lower verification_report.

(** The preliminary signal, read on the lower-cased report. *)
Definition passed_signal (verification_report : string) : bool :=
  let report_lower := report_lower verification_report in
  PyStr.contains "overall status: passed" report_lower ||
  PyStr.contains "recommendation: publish" report_lower ||
  PyStr.contains ("recommendation:" ++ PyStr.nl ++ "publish") report_lower.

(** [report_lower.replace("**", "").replace("*", "")] *)
Definition report_clean (verification_report : string) : string :=
  PyStr.replace "*" "" (PyStr.replace "**" "" (report_lower verification_report)).

Definition verified_count (verification_report : string) : Z :=
  PyStr.count "status: verified" (report_clean verification_report).

Definition unverified_count (verification_report : string) : Z :=
  PyStr.count "status: unverified" (report_clean verification_report).

Definition total_claims (verification_report : string) : Z :=
  verified_count verification_report + unverified_count verification_report.

(** [int((verified_count / total_claims) * 100)]; [None] if [int]
    raises. *)
Definition ratio_percent (verified_count total_claims : Z) : option Z :=
  PyFloat.to_int (PyFloat.mul_int (PyFloat.truediv verified_count total_claims) 100).

(** The parsing half of [step_4_verify_post]: everything after the
    call to the verifier. [None] only if [int] raises. *)
Definition parse_report (verification_report : string) : option verdict :=
  let passed := passed_signal verification_report in
  let verified_count := verified_count verification_report in
  let unverified_count := unverified_count verification_report in
  let total_claims := verified_count + unverified_count in
  match (if (0 <? total_claims)%Z
         then ratio_percent verified_count total_claims
         else Some 0) with
  | None => None
  | Some confidence =>
      let '(passed, confidence) :=
        if ((unverified_count =? 0) && (0 <? verified_count))%Z
        then (true, 100)
        else (passed, confidence) in
      Some {| passed := passed;
              confidence := confidence;
              report := verification_report |}
  end.

End Verify.

(** ** The environment of a run

    Everything the program reaches outside itself is a field of [Env]:
    the clock, the feed parser, the news API, the chat completion
    endpoint, the article scraper, the LinkedIn endpoints and the file
    system, each a function of the state of the world. *)
Module Tools.

(** The dictionaries built by [fetch_rss_feeds] and [fetch_gnews]. *)
Record article := {
  title : string;
  summary : string;
  url : string;
  date : string;
  source : string
}.

(** A feedparser entry, with the fields [fetch_rss_feeds] reads. A
    [datetime] is its position on the time line, in microseconds. *)
Record entry := {
  entry_title : option string;
  entry_summary : option string;
  entry_description : option string;
  entry_link : option string;
  published_parsed : option Z;
  updated_parsed : option Z
}.

(** An element of the "articles" array of a GNews response. *)
Record gnews_item := {
  item_url : option string;
  item_title : option string;
  item_description : option string;
  item_publishedAt : option string;
  item_source_name : option string
}.

(** The body of a [/userinfo] response. *)
Record profile := {
  sub : option string;
  name : option string;
  email : option string
}.

(** The three ways [requests.post] on [/ugcPosts] can end. *)
Inductive post_response :=
| Created (restli_id : string)
| OtherStatus (status_code : Z) (text : string)
| RequestException (message : string).

(** What [call_agent] is asked: each step has a fixed system message
    and a template, filled with these texts. *)
Inductive prompt :=
| CuratorPrompt (articles_text : string)
| WriterPrompt (curated_articles : string)
| VerifierPrompt (draft_post source_articles : string)
| RewritePrompt (draft_post verification_report source_articles : string).

Record Env (World : Type) := {
  (** [datetime.now()] *)
  datetime_now : World -> Z * World;
  (** [d.isoformat()] and [d.strftime('%Y%m%d_%H%M%S')] *)
  isoformat : Z -> string;
  strftime : Z -> string;
  (** [feedparser.parse(feed_url).entries]; [None] when it raises. *)
  feedparser_parse : string -> World -> option (list entry) * World;
  (** [os.getenv(name)] *)
  getenv : string -> World -> option string;
  (** The GNews search request; [None] when it raises. *)
  gnews_get : string -> Z -> World -> option (list gnews_item) * World;
  (** The chat completion behind [call_agent]; [None] when it raises. *)
  chat_completion : prompt -> World -> option string * World;
  (** [re.findall(url_pattern, text)], and the order in which a [set]
      of strings is listed. *)
  findall_urls : string -> list string;
  list_of_set : list string -> list string;
  (** [fetch_multiple_articles(urls, max_length_per_article)] *)
  fetch_multiple_articles : list string -> Z -> World -> string * World;
  (** The [/userinfo] request of [get_user_profile]; [None] when the
      request fails. *)
  userinfo_get : string -> World -> option profile * World;
  (** The [/ugcPosts] request: token, author URN, text. *)
  ugcPosts_post : string -> string -> string -> World -> post_response * World;
  (** [os.makedirs] and writing a text file. *)
  write_text : string -> string -> World -> World
}.

Arguments datetime_now {World}.
Arguments isoformat {World}.
Arguments strftime {World}.
Arguments feedparser_parse {World}.
Arguments getenv {World}.
Arguments gnews_get {World}.
Arguments chat_completion {World}.
Arguments findall_urls {World}.
Arguments list_of_set {World}.
Arguments fetch_multiple_articles {World}.
Arguments userinfo_get {World}.
Arguments ugcPosts_post {World}.
Arguments write_text {World}.

(** What a run does to the outside, in order. *)
Inductive event :=
| EvFeed (feed_url : string)
| EvGnews
| EvAgent (p : prompt)
| EvFetchArticles (urls : list string)
| EvValidateToken
| EvPublish (content : string)
| EvUserinfo
| EvUgcPost (content : string)
| EvWriteFile (path content : string).

(** *** The monad of a run: state of the world, trace, exceptions *)

Record state (World : Type) := {
  world : World;
  trace : list event
}.
Arguments world {World}.
Arguments trace {World}.

Inductive outcome (A : Type) :=
| Ok (a : A)
| Raised.
Arguments Ok {A}.
Arguments Raised {A}.

Definition M (World A : Type) : Type := state World -> outcome A * state World.

Definition ret {World A} (a : A) : M World A := fun s => (Ok a, s).

Definition bind {World A B} (c : M World A) (k : A -> M World B) : M World B :=
  fun s =>
    match c s with
    | (Ok a, s') => k a s'
    | (Raised, s') => (Raised, s')
    end.

Definition raise {World A} : M World A := fun s => (Raised, s).

Definition emit {World} (e : event) : M World unit :=
  fun s => (Ok tt, {| world := world s; trace := trace s ++ [e] |}).

Definition call {World A} (f : World -> A * World) : M World A :=
  fun s => let (a, w) := f (world s) in (Ok a, {| world := w; trace := trace s |}).

Definition read {World A} (f : World -> A) : M World A :=
  fun s => (Ok (f (world s)), s).

Definition update {World} (f : World -> World) : M World unit :=
  fun s => (Ok tt, {| world := f (world s); trace := trace s |}).

End Tools.

Notation "x <- c ;; k" := (Tools.bind c (fun x => k))
  (at level 61, c at next level, right associativity).
Notation "c ;;; k" := (Tools.bind c (fun _ => k))
  (at level 61, right associativity).

(** ** [tools/rss_fetcher.py] and [tools/gnews_fetcher.py] *)
Module Fetchers.
Import Tools.

Definition RSS_FEEDS : list (string * string) :=
  [ ("OpenAI", "https://openai.com/blog/rss.xml");
    ("Anthropic", "https://www.anthropic.com/news/rss");
    ("Google AI", "https://blog.google/technology/ai/rss/");
    ("DeepMind", "https://deepmind.google/blog/rss.xml");
    ("Hugging Face", "https://huggingface.co/blog/feed.xml");
    ("Meta AI", "https://ai.meta.com/blog/rss/");
    ("Mistral AI", "https://mistral.ai/feed.xml") ]%string.

(** [d.get(key, default)] *)
Definition get_or (default : string) (v : option string) : string :=
  match v with
  | Some x => x
  | None => default
  end.

(** [timedelta(hours=h)], in microseconds. *)
Definition timedelta_hours (h : Z) : Z := h * 3600000000.

(** One step of [articles.sort(key=lambda x: x["date"], reverse=True)]:
    [x] goes before the first element whose date is not greater, so
    that equal dates keep their order (the sort is stable). *)
Fixpoint insert_by_date (x : article) (l : list article) : list article :=
  match l with
  | [] => [x]
  | y :: l' =>
      if String.leb (date y) (date x) then x :: l
      else y :: insert_by_date x l'
  end.

Definition sort_newest_first (l : list article) : list article :=
  fold_right insert_by_date [] l.

Section WithEnv.
Context {World : Type} (env : Env World).

Definition parse_date (e : entry) : M World Z :=
  match published_parsed e with
  | Some t => ret t
  | None =>
      match updated_parsed e with
      | Some t => ret t
      | None => call (datetime_now env)
      end
  end.

(** The inner loop of [fetch_rss_feeds], over [feed.entries]. *)
Fixpoint rss_entries (source_name : string) (cutoff_time : Z)
    (entries : list entry) (articles : list article) : M World (list article) :=
  match entries with
  | [] => ret articles
  | e :: rest =>
      pub_date <- parse_date e ;;
      if cutoff_time <=? pub_date then
        rss_entries source_name cutoff_time rest
          (articles ++
           [ {| title := get_or "No title" (entry_title e);
                summary := match entry_summary e with
                           | Some s => s
                           | None => get_or "No summary available" (entry_description e)
                           end;
                url := get_or "" (entry_link e);
                date := isoformat env pub_date;
                source := source_name |} ])
      else rss_entries source_name cutoff_time rest articles
  end.

(** The outer loop, over [RSS_FEEDS.items()]; a feed that raises is
    skipped. *)
Fixpoint rss_sources (feeds : list (string * string)) (cutoff_time : Z)
    (articles : list article) : M World (list article) :=
  match feeds with
  | [] => ret articles
  | (source_name, feed_url) :: rest =>
      emit (EvFeed feed_url) ;;;
      feed <- call (feedparser_parse env feed_url) ;;
      match feed with
      | None => rss_sources rest cutoff_time articles
      | Some entries =>
          articles' <- rss_entries source_name cutoff_time entries articles ;;
          rss_sources rest cutoff_time articles'
      end
  end.

Definition fetch_rss_feeds (hours_back : Z) : M World (list article) :=
  now <- call (datetime_now env) ;;
  let cutoff_time := now - timedelta_hours hours_back in
  articles <- rss_sources RSS_FEEDS cutoff_time [] ;;
  ret (sort_newest_first articles).

(** The loop of [fetch_gnews] over the items of the response;
    [seen_urls] is the set of URLs already taken. *)
Fixpoint gnews_items (items : list gnews_item) (seen_urls : list string)
    (articles : list article) : M World (list article) :=
  match items with
  | [] => ret articles
  | item :: rest =>
      let url := get_or "" (item_url item) in
      if existsb (String.eqb url) seen_urls then
        gnews_items rest seen_urls articles
      else
        now <- call (datetime_now env) ;;
        gnews_items rest (url :: seen_urls)
          (articles ++
           [ {| title := get_or "No title" (item_title item);
                summary := get_or "No summary available" (item_description item);
                url := url;
                date := get_or (isoformat env now) (item_publishedAt item);
                source := get_or "Unknown" (item_source_name item) |} ])
  end.

(** Python truth of an optional string: [None] and [""] are false. *)
Definition truthy (v : option string) : bool :=
  match v with
  | None => false
  | Some s => negb (String.eqb s "")
  end.

Definition fetch_gnews (api_key : option string) (max_results : Z)
  : M World (list article) :=
  api_key <- (if truthy api_key then ret api_key
              else read (getenv env "GNEWS_API_KEY")) ;;
  match api_key with
  | None => ret []
  | Some key =>
      if String.eqb key "" then ret []
      else
        emit EvGnews ;;;
        data <- call (gnews_get env key max_results) ;;
        match data with
        | None => ret []
        | Some items => gnews_items items [] []
        end
  end.

End WithEnv.
End Fetchers.

(** ** [tools/linkedin_poster.py] *)
Module LinkedinPoster.
Import Tools.

(** The dictionary returned by [post_to_linkedin] (and by the dry run
    of step 5). *)
Record post_result := {
  success : bool;
  post_id : option string;
  error : option string;
  dry_run : bool
}.

Record token_check := {
  valid : bool;
  check_error : option string
}.

Definition failure (msg : string) : post_result :=
  {| success := false; post_id := None; error := Some msg; dry_run := false |}.

Section WithEnv.
Context {World : Type} (env : Env World).

Definition get_user_profile (access_token : string) : M World (option profile) :=
  emit EvUserinfo ;;;
  call (userinfo_get env access_token).

Definition post_to_linkedin (content : string) : M World post_result :=
  emit (EvPublish content) ;;;
  access_token <- read (getenv env "LINKEDIN_ACCESS_TOKEN") ;;
  if negb (Fetchers.truthy access_token) then
    ret (failure "LINKEDIN_ACCESS_TOKEN not set")
  else
    let access_token := Fetchers.get_or "" access_token in
    profile <- get_user_profile access_token ;;
    match profile with
    | None => ret (failure "Failed to fetch user profile")
    | Some p =>
        if negb (Fetchers.truthy (sub p)) then
          ret (failure "Could not get user ID from profile")
        else
          let person_urn := ("urn:li:person:" ++ Fetchers.get_or "" (sub p))%string in
          emit (EvUgcPost content) ;;;
          response <- call (ugcPosts_post env access_token person_urn content) ;;
          match response with
          | Created restli_id =>
              ret {| success := true; post_id := Some restli_id;
                     error := None; dry_run := false |}
          | OtherStatus status_code text =>
              ret (failure ("HTTP " ++ PyStr.str status_code ++ ": " ++ text))
          | RequestException message => ret (failure message)
          end
    end.

Definition validate_linkedin_token : M World token_check :=
  emit EvValidateToken ;;;
  access_token <- read (getenv env "LINKEDIN_ACCESS_TOKEN") ;;
  if negb (Fetchers.truthy access_token) then
    ret {| valid := false; check_error := Some "No access token provided"%string |}
  else
    profile <- get_user_profile (Fetchers.get_or "" access_token) ;;
    match profile with
    | Some _ => ret {| valid := true; check_error := None |}
    | None => ret {| valid := false;
                     check_error := Some "Token is invalid or expired"%string |}
    end.

End WithEnv.
End LinkedinPoster.

(** ** [main.py]: the steps and [run_workflow] *)
Module Main.
Import Tools.
Export Verify.

Local Open Scope string_scope.

(** The values stored under [results["steps"]]. *)
Inductive step_record :=
| StepFetch (articles_found : nat)
| StepCompleted
| StepWrite (draft : string)
| StepVerify (v : verdict)
| StepSkipped
| StepPost (r : LinkedinPoster.post_result).

(** The [results] dictionary of [run_workflow]. *)
Record results := {
  started_at : string;
  dry_run : bool;
  steps : list (string * step_record);
  status : option string;
  reason : option string;
  draft_file : option string;
  final_confidence : option Z
}.

(** [results["steps"][key] = v] (the keys of one run are distinct). *)
Definition set_step (r : results) (key : string) (v : step_record) : results :=
  {| started_at := started_at r;
     dry_run := dry_run r;
     steps := (steps r ++ [(key, v)])%list;
     status := status r;
     reason := reason r;
     draft_file := draft_file r;
     final_confidence := final_confidence r |}.

Definition max_retries : nat := 3.

(** A value together with the equation that it is that value: what a
    test has established stays known in the branch taken. *)
Definition inspect {A : Type} (a : A) : {b : A | a = b} := exist _ a eq_refl.

(** The text written by [step_1_fetch_news] for the articles from
    the [i]-th on. *)
Fixpoint format_articles (i : nat) (all_articles : list article) : string :=
  match all_articles with
  | [] => ""
  | a :: rest =>
      "--- Article " ++ PyStr.str (Z.of_nat i) ++ " ---" ++ PyStr.nl ++
      "Source: " ++ source a ++ PyStr.nl ++
      "Title: " ++ title a ++ PyStr.nl ++
      "Date: " ++ date a ++ PyStr.nl ++
      "URL: " ++ url a ++ PyStr.nl ++
      "Summary: " ++ PyStr.take 1000 (summary a) ++ PyStr.nl ++ PyStr.nl ++
      format_articles (S i) rest
  end.

(** The file written for manual review. *)
Definition draft_file_content (draft_post verification_report : string) : string :=
  "=== DRAFT POST (BEST EFFORT) ===" ++ PyStr.nl ++ PyStr.nl ++
  draft_post ++
  PyStr.nl ++ PyStr.nl ++ "=== VERIFICATION REPORT ===" ++ PyStr.nl ++ PyStr.nl ++
  verification_report.

(** The state carried around the retry loop. *)
Record loop_state := {
  draft_post : string;
  current_verification : verdict;
  retry_count : nat;
  loop_results : results
}.

(** The guard of the [while]. *)
Definition loop_guard (st : loop_state) : bool :=
  (negb (passed (current_verification st)) ||
   (confidence (current_verification st) <? 100)%Z) &&
  (retry_count st <? max_retries)%nat.

Section WithEnv.
Context {World : Type} (env : Env World).

Definition call_agent (p : prompt) : M World string :=
  emit (EvAgent p) ;;;
  response <- call (chat_completion env p) ;;
  match response with
  | Some content => ret content
  | None => raise
  end.

(** The list [all_articles] of [step_1_fetch_news]. *)
Definition collect_articles (hours_back : Z) : M World (list article) :=
  rss_articles <- Fetchers.fetch_rss_feeds env hours_back ;;
  gnews_articles <- Fetchers.fetch_gnews env None 10 ;;
  ret (rss_articles ++ gnews_articles)%list.

Definition step_1_fetch_news (hours_back : Z) : M World (option string) :=
  all_articles <- collect_articles hours_back ;;
  match all_articles with
  | [] => ret None
  | _ :: _ =>
      ret (Some ("Found " ++ PyStr.str (Z.of_nat (List.length all_articles)) ++
                 " articles:" ++ PyStr.nl ++ PyStr.nl ++
                 format_articles 1 all_articles))
  end.

Definition step_2_curate_news (articles_text : string) : M World string :=
  call_agent (CuratorPrompt articles_text).

Definition step_2b_fetch_full_articles (curated_text : string)
    (all_articles : list article) : M World string :=
  let urls := findall_urls env curated_text in
  let matching :=
    filter (fun a =>
              negb (String.eqb (url a) "") &&
              PyStr.contains (PyStr.lower (PyStr.take 30 (title a)))
                             (PyStr.lower curated_text))
           all_articles in
  let all_urls := (urls ++ map url matching)%list in
  let urls := firstn 5 (list_of_set env all_urls) in
  match urls with
  | [] => ret curated_text
  | _ :: _ =>
      emit (EvFetchArticles urls) ;;;
      full_content <- call (fetch_multiple_articles env urls 2500) ;;
      ret ("CURATED ARTICLE SUMMARIES:" ++ PyStr.nl ++ curated_text ++ PyStr.nl ++
           PyStr.nl ++ "FULL ARTICLE CONTENT:" ++ PyStr.nl ++ full_content ++ PyStr.nl)
  end.

Definition step_3_write_post (curated_articles source_articles : string)
  : M World string :=
  call_agent (WriterPrompt curated_articles).

Definition step_4_verify_post (draft_post source_articles : string)
  : M World verdict :=
  verification_report <- call_agent (VerifierPrompt draft_post source_articles) ;;
  match parse_report verification_report with
  | Some v => ret v
  | None => raise
  end.

Definition step_4b_rewrite_verified_only
    (draft_post verification_report source_articles : string) : M World string :=
  call_agent (RewritePrompt draft_post verification_report source_articles).

Definition step_5_post_to_linkedin (content : string) (dry_run : bool)
  : M World LinkedinPoster.post_result :=
  if dry_run then
    ret {| LinkedinPoster.success := true;
           LinkedinPoster.post_id := None;
           LinkedinPoster.error := None;
           LinkedinPoster.dry_run := true |}
  else
    LinkedinPoster.post_to_linkedin env content.

(** The retry loop of [run_workflow]: rewrite, verify again, leave
    on a confidence of 100 or when the guard fails. *)
Equations? retry_loop (enhanced_content : string) (st : loop_state)
    (s : state World) : outcome loop_state * state World
  by wf (max_retries - retry_count st)%nat lt :=
retry_loop enhanced_content st s with inspect (loop_guard st) := {
  | exist _ true Hguard =>
      (let retry_count := S (retry_count st) in
       draft_post <- step_4b_rewrite_verified_only (draft_post st)
                       (report (current_verification st)) enhanced_content ;;
       let results :=
         set_step (loop_results st)
           ("rewrite_" ++ PyStr.str (Z.of_nat retry_count)) StepCompleted in
       current_verification <- step_4_verify_post draft_post enhanced_content ;;
       let results :=
         set_step results ("verify_" ++ PyStr.str (Z.of_nat retry_count))
           (StepVerify current_verification) in
       let st' := {| draft_post := draft_post;
                     current_verification := current_verification;
                     retry_count := retry_count;
                     loop_results := results |} in
       if (confidence current_verification =? 100)%Z then ret st'
       else fun s' => retry_loop enhanced_content st' s') s
  | exist _ false _ => ret st s }.
Proof.
  unfold loop_guard in Hguard.
  apply andb_prop in Hguard. destruct Hguard as [_ Hlt].
  apply Nat.ltb_lt in Hlt. unfold max_retries in Hlt.
  cbn. destruct (retry_count st) as [|[|[|n]]]; cbn; lia.
Qed.

(** Step 5 and the end of [run_workflow]. *)
Definition post_and_finish (results : results) (draft_post : string)
  : M World Main.results :=
  post_result <- step_5_post_to_linkedin draft_post (dry_run results) ;;
  let results := set_step results "post" (StepPost post_result) in
  ret {| started_at := started_at results;
         dry_run := dry_run results;
         steps := steps results;
         status := Some (if LinkedinPoster.success post_result
                         then "success" else "failed");
         reason := reason results;
         draft_file := draft_file results;
         final_confidence := final_confidence results |}.

(** The final check after the loop: below 100, the draft and the last
    report are written to a file named after the time of the run, and
    the run ends there. *)
Definition save_for_manual_review (results : results) (draft_post : string)
    (current_verification : verdict) : M World Main.results :=
  now <- call (datetime_now env) ;;
  let draft_file := "drafts/draft_" ++ strftime env now ++ ".txt" in
  let content := draft_file_content draft_post (report current_verification) in
  emit (EvWriteFile draft_file content) ;;;
  update (write_text env draft_file content) ;;;
  ret {| started_at := started_at results;
         dry_run := dry_run results;
         steps := steps results;
         status := Some "draft_saved";
         reason := reason results;
         draft_file := Some draft_file;
         final_confidence := Some (confidence current_verification) |}.

(** Step 4 of [run_workflow]: the first verification, the retry loop
    and the final check. *)
Definition verify_and_converge (results : results)
    (draft_post enhanced_content : string) : M World (loop_state) :=
  verification <- step_4_verify_post draft_post enhanced_content ;;
  let results := set_step results "verify" (StepVerify verification) in
  retry_loop enhanced_content
    {| draft_post := draft_post;
       current_verification := verification;
       retry_count := 0;
       loop_results := results |}.

(** Step 4 with its final check, and step 5 when the check lets the
    run through. *)
Definition verify_then_finish (results : results)
    (draft_post enhanced_content : string) : M World Main.results :=
  st <- verify_and_converge results draft_post enhanced_content ;;
  if (confidence (current_verification st) <? 100)%Z then
    save_for_manual_review (loop_results st) (Main.draft_post st)
      (current_verification st)
  else
    post_and_finish (loop_results st) (Main.draft_post st).

Definition run_workflow (dry_run : bool) (hours_back : Z)
    (skip_verification : bool) (confidence_threshold : Z) : M World results :=
  _ <- call (datetime_now env) ;;
  now <- call (datetime_now env) ;;
  let results :=
    {| started_at := isoformat env now;
       dry_run := dry_run;
       steps := [];
       status := None;
       reason := None;
       draft_file := None;
       final_confidence := None |} in
  articles_text <- step_1_fetch_news hours_back ;;
  match articles_text with
  | None =>
      ret {| started_at := started_at results;
             dry_run := dry_run;
             steps := steps results;
             status := Some "skipped";
             reason := Some "No articles found";
             draft_file := None;
             final_confidence := None |}
  | Some articles_text =>
      rss_articles <- Fetchers.fetch_rss_feeds env hours_back ;;
      gnews_articles <- Fetchers.fetch_gnews env None 10 ;;
      let all_articles := (rss_articles ++ gnews_articles)%list in
      let results := set_step results "fetch" (StepFetch (List.length all_articles)) in
      curated <- step_2_curate_news articles_text ;;
      let results := set_step results "curate" StepCompleted in
      enhanced_content <- step_2b_fetch_full_articles curated all_articles ;;
      let results := set_step results "fetch_full" StepCompleted in
      draft_post <- step_3_write_post enhanced_content articles_text ;;
      let results := set_step results "write" (StepWrite draft_post) in
      if negb skip_verification then
        verify_then_finish results draft_post enhanced_content
      else
        post_and_finish (set_step results "verify" StepSkipped) draft_post
  end.

End WithEnv.
End Main.

(** ** A scripted environment

    A world that plays back a fixed script: the feeds and the news
    response are given, the chat endpoint answers with the next reply
    of a list (and raises when the list is used up), the clock ticks
    once per reading. *)
Module Script.
Import Tools.

Local Open Scope string_scope.

Record sworld := {
  clock : Z;
  feeds : list (string * list entry);
  gnews_key : option string;
  gnews_response : option (list gnews_item);
  replies : list string;
  linkedin_token : option string;
  linkedin_profile : option profile;
  ugc_response : post_response;
  files : list (string * string)
}.

Definition tick (w : sworld) : Z * sworld :=
  (clock w,
   {| clock := clock w + 1; feeds := feeds w; gnews_key := gnews_key w;
      gnews_response := gnews_response w; replies := replies w;
      linkedin_token := linkedin_token w; linkedin_profile := linkedin_profile w;
      ugc_response := ugc_response w; files := files w |}).

Fixpoint lookup_feed (feed_url : string) (l : list (string * list entry))
  : option (list entry) :=
  match l with
  | [] => None
  | (u, es) :: l' => if String.eqb u feed_url then Some es else lookup_feed feed_url l'
  end.

Definition next_reply (w : sworld) : option string * sworld :=
  match replies w with
  | [] => (None, w)
  | r :: rest =>
      (Some r,
       {| clock := clock w; feeds := feeds w; gnews_key := gnews_key w;
          gnews_response := gnews_response w; replies := rest;
          linkedin_token := linkedin_token w; linkedin_profile := linkedin_profile w;
          ugc_response := ugc_response w; files := files w |})
  end.

Definition add_file (path content : string) (w : sworld) : sworld :=
  {| clock := clock w; feeds := feeds w; gnews_key := gnews_key w;
     gnews_response := gnews_response w; replies := replies w;
     linkedin_token := linkedin_token w; linkedin_profile := linkedin_profile w;
     ugc_response := ugc_response w; files := (path, content) :: files w |}.

Definition env : Env sworld := {|
  datetime_now := tick;
  isoformat := fun t => "T" ++ PyStr.str t;
  strftime := fun t => PyStr.str t;
  feedparser_parse := fun feed_url w => (lookup_feed feed_url (feeds w), w);
  getenv := fun name w =>
    if String.eqb name "GNEWS_API_KEY" then gnews_key w
    else if String.eqb name "LINKEDIN_ACCESS_TOKEN" then linkedin_token w
    else None;
  gnews_get := fun _ _ w => (gnews_response w, w);
  chat_completion := fun _ w => next_reply w;
  findall_urls := fun _ => [];
  list_of_set := fun l => l;
  fetch_multiple_articles := fun _ _ w => ("", w);
  userinfo_get := fun _ w => (linkedin_profile w, w);
  ugcPosts_post := fun _ _ _ w => (ugc_response w, w);
  write_text := add_file
|}.

Definition start (w : sworld) : state sworld := {| world := w; trace := [] |}.

(** A world with nothing in it: no feed answers, no news key, no
    replies, no token. *)
Definition empty_world : sworld := {|
  clock := 1000000000;
  feeds := [];
  gnews_key := None;
  gnews_response := None;
  replies := [];
  linkedin_token := None;
  linkedin_profile := None;
  ugc_response := RequestException "unreachable";
  files := []
|}.

Definition an_entry (link : string) (published : Z) : entry := {|
  entry_title := Some "A title";
  entry_summary := Some "A summary";
  entry_description := None;
  entry_link := Some link;
  published_parsed := Some published;
  updated_parsed := None
|}.

Definition an_item (link published : string) : gnews_item := {|
  item_url := Some link;
  item_title := Some "A headline";
  item_description := Some "A description";
  item_publishedAt := Some published;
  item_source_name := Some "A paper"
|}.

(** One recent entry in the OpenAI feed and a script of replies. *)
Definition world_with (answers : list string) : sworld := {|
  clock := 1000000000;
  feeds := [("https://openai.com/blog/rss.xml", [an_entry "https://a.example/1" 999999999])];
  gnews_key := None;
  gnews_response := None;
  replies := answers;
  linkedin_token := None;
  linkedin_profile := None;
  ugc_response := RequestException "unreachable";
  files := []
|}.

(** The same article in a feed and, with a later date, in the news
    response. *)
Definition twice_reported_world : sworld := {|
  clock := 1000000000;
  feeds := [("https://openai.com/blog/rss.xml", [an_entry "https://a.example/1" 999999000])];
  gnews_key := Some "key";
  gnews_response := Some [an_item "https://a.example/1" "T999999999"];
  replies := [];
  linkedin_token := None;
  linkedin_profile := None;
  ugc_response := RequestException "unreachable";
  files := []
|}.

(** A token is set, but the profile request fails: the token has
    expired. The script goes up to the published draft. *)
Definition expired_token_world : sworld := {|
  clock := 1000000000;
  feeds := [("https://openai.com/blog/rss.xml", [an_entry "https://a.example/1" 999999999])];
  gnews_key := None;
  gnews_response := None;
  replies := ["curated"; "draft"; "Status: VERIFIED"];
  linkedin_token := Some "expired";
  linkedin_profile := None;
  ugc_response := RequestException "unreachable";
  files := []
|}.

(** A verifier that never fully agrees: every report has one claim
    verified and one not. The script starts at the first
    verification. *)
Definition never_converging_world : sworld :=
  world_with
    [ "Status: VERIFIED" ++ PyStr.nl ++ "Status: UNVERIFIED";
      "draft 1";
      "Status: VERIFIED" ++ PyStr.nl ++ "Status: UNVERIFIED";
      "draft 2";
      "Status: VERIFIED" ++ PyStr.nl ++ "Status: UNVERIFIED";
      "draft 3";
      "Status: VERIFIED" ++ PyStr.nl ++ "Status: UNVERIFIED" ].

(** The [results] of a run that has started, before any step. *)
Definition fresh_results : Main.results := {|
  Main.started_at := "T1000000001";
  Main.dry_run := false;
  Main.steps := [];
  Main.status := None;
  Main.reason := None;
  Main.draft_file := None;
  Main.final_confidence := None
|}.

End Script.

(** ** Vocabulary of the statements *)
Module Spec.
Import Tools.

Local Open Scope string_scope.

(** [round(100 * v / total)], the nearest integer (halves up). *)
Definition round_percent (v total : Z) : Z := (200 * v + total) / (2 * total).

(** The acceptance signal read on the normalized text, lower-cased
    and with the emphasis marks stripped. *)
Definition passed_signal_normalized (verification_report : string) : bool :=
  let report_clean := Verify.report_clean verification_report in
  PyStr.contains "overall status: passed" report_clean ||
  PyStr.contains "recommendation: publish" report_clean ||
  PyStr.contains ("recommendation:" ++ PyStr.nl ++ "publish") report_clean.

(** Two claims verified, one not, and a failed overall status. *)
Definition report_two_of_three : string :=
  "Status: VERIFIED" ++ PyStr.nl ++
  "Status: VERIFIED" ++ PyStr.nl ++
  "Status: UNVERIFIED" ++ PyStr.nl ++
  "Overall Status: FAILED".

(** One verified claim under a failed overall status. *)
Definition report_verified_but_failed : string :=
  "Status: VERIFIED" ++ PyStr.nl ++ "Overall Status: FAILED".

(** Kinds of events. *)
Definition is_agent (e : event) : bool :=
  match e with
  | EvAgent _ => true
  | _ => false
  end.

Definition is_rewrite (e : event) : bool :=
  match e with
  | EvAgent (RewritePrompt _ _ _) => true
  | _ => false
  end.

Definition is_verify (e : event) : bool :=
  match e with
  | EvAgent (VerifierPrompt _ _) => true
  | _ => false
  end.

Definition is_publish (e : event) : bool :=
  match e with
  | EvPublish _ | EvUgcPost _ => true
  | _ => false
  end.

Definition is_fetch (e : event) : bool :=
  match e with
  | EvFeed _ | EvGnews => true
  | _ => false
  end.

Definition count_events (f : event -> bool) (t : list event) : nat :=
  List.length (filter f t).

(** Every call of the publish operation comes after a call of the
    credential validation. *)
Fixpoint validated_before_publish (validated : bool) (t : list event) : bool :=
  match t with
  | [] => true
  | EvValidateToken :: t' => validated_before_publish true t'
  | EvPublish _ :: t' => validated && validated_before_publish validated t'
  | _ :: t' => validated_before_publish validated t'
  end.

(** Newest first, by the [date] key. *)
Definition newest_first (l : list article) : Prop :=
  Sorted (fun a b => String.leb (date b) (date a) = true) l.

(** No two items share a URL. *)
Definition distinct_urls (l : list article) : Prop := NoDup (map url l).

Definition is_validate (e : event) : bool :=
  match e with
  | EvValidateToken => true
  | _ => false
  end.

Definition is_ugc_post (e : event) : bool :=
  match e with
  | EvUgcPost _ => true
  | _ => false
  end.

Definition fetch_event (e : event) : Prop := is_fetch e = true.

(** What the events added by the retry loop are: agent calls, for a
    rewrite or for a verification. *)
Definition loop_event (e : event) : Prop :=
  (is_rewrite e = true /\ is_verify e = false /\ is_publish e = false) \/
  (is_rewrite e = false /\ is_verify e = true /\ is_publish e = false).

(** The state in which step 1 of a run starts: the clock has been
    read twice. *)
Definition after_clock {World : Type} (env : Env World) (s : state World)
  : state World :=
  snd ((call (datetime_now env) ;;; call (datetime_now env)) s).

(** Events other than a call of the credential validation. *)
Definition unvalidated (e : event) : Prop := is_validate e = false.

(** Neither a generative call nor a publish call. *)
Definition quiet_event (e : event) : Prop :=
  is_agent e = false /\ is_publish e = false.

(** A computation that never raises and whose result satisfies [Q]. *)
Definition returns {World A : Type} (Q : A -> Prop) (c : M World A) : Prop :=
  forall s, exists a s', c s = (Ok a, s') /\ Q a.

(** A computation that only adds events satisfying [P] to the trace. *)
Definition emits {World A : Type} (P : event -> Prop) (c : M World A) : Prop :=
  forall s, exists t, trace (snd (c s)) = (trace s ++ t)%list /\ Forall P t.

End Spec.

(** ** [tools/linkedin_poster.py], with the optional token argument

    [LinkedinPoster] has the two operations as [main.py] calls them,
    on the content alone. Here they take the [access_token] argument
    of their signature, and the validation returns the whole
    dictionary. [get_user_profile] answers [None] for a failed
    request; its callers only test the answer for truth, so an empty
    body counts as [None] as well. *)
Module LinkedinApi.
Import Tools.

Local Open Scope string_scope.

(** The dictionary returned by [validate_linkedin_token]. *)
Record validation := {
  valid : bool;
  user_name : option string;
  user_email : option string;
  validation_error : option string
}.

Section WithEnv.
Context {World : Type} (env : Env World).

(** [access_token or os.getenv("LINKEDIN_ACCESS_TOKEN")] *)
Definition token_or_env (access_token : option string) : M World (option string) :=
  if Fetchers.truthy access_token then ret access_token
  else read (getenv env "LINKEDIN_ACCESS_TOKEN").

Definition post_to_linkedin (content : string) (access_token : option string)
  : M World LinkedinPoster.post_result :=
  emit (EvPublish content) ;;;
  access_token <- token_or_env access_token ;;
  if negb (Fetchers.truthy access_token) then
    ret (LinkedinPoster.failure "LINKEDIN_ACCESS_TOKEN not set")
  else
    let access_token := Fetchers.get_or "" access_token in
    profile <- LinkedinPoster.get_user_profile env access_token ;;
    match profile with
    | None => ret (LinkedinPoster.failure "Failed to fetch user profile")
    | Some p =>
        if negb (Fetchers.truthy (sub p)) then
          ret (LinkedinPoster.failure "Could not get user ID from profile")
        else
          let person_urn := "urn:li:person:" ++ Fetchers.get_or "" (sub p) in
          emit (EvUgcPost content) ;;;
          response <- call (ugcPosts_post env access_token person_urn content) ;;
          match response with
          | Created restli_id =>
              ret {| LinkedinPoster.success := true;
                     LinkedinPoster.post_id := Some restli_id;
                     LinkedinPoster.error := None;
                     LinkedinPoster.dry_run := false |}
          | OtherStatus status_code text =>
              ret (LinkedinPoster.failure
                     ("HTTP " ++ PyStr.str status_code ++ ": " ++ text))
          | RequestException message => ret (LinkedinPoster.failure message)
          end
    end.

Definition validate_linkedin_token (access_token : option string)
  : M World validation :=
  emit EvValidateToken ;;;
  access_token <- token_or_env access_token ;;
  if negb (Fetchers.truthy access_token) then
    ret {| valid := false; user_name := None; user_email := None;
           validation_error := Some "No access token provided" |}
  else
    profile <- LinkedinPoster.get_user_profile env (Fetchers.get_or "" access_token) ;;
    match profile with
    | Some p =>
        ret {| valid := true;
               user_name := Some (Fetchers.get_or "Unknown" (name p));
               user_email := Some (Fetchers.get_or "Unknown" (email p));
               validation_error := None |}
    | None =>
        ret {| valid := false; user_name := None; user_email := None;
               validation_error := Some "Token is invalid or expired" |}
    end.

End WithEnv.
End LinkedinApi.

(** ** [tools/article_fetcher.py]

    A character is a code point below 256. *)
Module ArticleFetcher.
Import Tools.

Local Open Scope string_scope.

(** What [\s] matches, and what [strip] removes: the characters for
    which [str.isspace] holds. Below 256 these are 9 to 13, 28 to 32,
    133 and 160. *)
Definition is_space (c : ascii) : bool :=
  let n := nat_of_ascii c in
  ((9 <=? n) && (n <=? 13) || (28 <=? n) && (n <=? 32) || (n =? 133) || (n =? 160))%nat.

(** The class [[\x00-\x1f\x7f-\x9f]]. *)
Definition is_control (c : ascii) : bool :=
  let n := nat_of_ascii c in
  ((n <=? 31) || (127 <=? n) && (n <=? 159))%nat.

(** [re.sub(r'\s+', ' ', text)]: every maximal run of white space
    becomes one space. [in_run] says that the character before was
    white space. *)
Fixpoint collapse_spaces (in_run : bool) (text : string) : string :=
  match text with
  | EmptyString => EmptyString
  | String c rest =>
      if is_space c then
        if in_run then collapse_spaces true rest
        else String " " (collapse_spaces true rest)
      else String c (collapse_spaces false rest)
  end.

(** [re.sub(r'[\x00-\x1f\x7f-\x9f]', '', text)] *)
Fixpoint remove_controls (text : string) : string :=
  match text with
  | EmptyString => EmptyString
  | String c rest =>
      if is_control c then remove_controls rest
      else String c (remove_controls rest)
  end.

Fixpoint lstrip (text : string) : string :=
  match text with
  | EmptyString => EmptyString
  | String c rest => if is_space c then lstrip rest else text
  end.

Fixpoint rstrip (text : string) : string :=
  match text with
  | EmptyString => EmptyString
  | String c rest =>
      match rstrip rest with
      | EmptyString => if is_space c then EmptyString else String c EmptyString
      | kept => String c kept
      end
  end.

(** [text.strip()] *)
Definition strip (text : string) : string := rstrip (lstrip text).

Definition clean_text (text : string) : string :=
  strip (remove_controls (collapse_spaces false text)).

(** [sep.join(parts)] *)
Fixpoint join (sep : string) (parts : list string) : string :=
  match parts with
  | [] => ""
  | [p] => p
  | p :: rest => p ++ sep ++ join sep rest
  end.

(** [s[:n]]: a negative [n] counts from the end. *)
Definition slice_to (n : Z) (s : string) : string :=
  if (0 <=? n)%Z then PyStr.take (Z.to_nat n) s
  else PyStr.take (String.length s - Z.to_nat (- n)) s.

(** The dictionary returned by [fetch_article_content]. *)
Record fetched := {
  title : string;
  content : string;
  url : string
}.

(** What the extraction reads off the parsed page, once the script,
    style, nav, footer, header, aside and form elements are removed:
    the text of the first [h1], else of [title], if there is one; and
    the texts of the [p], [h2], [h3] and [li] elements of the first
    container that one of the selectors finds, else of [body], if
    there is one. *)
Record soup := {
  title_tag : option string;
  article : option (list string)
}.

(** The three ways the request and the parsing can end: a parsed
    page, a [RequestException], any other exception. *)
Inductive page_outcome :=
| Parsed (page : soup)
| RequestFailed (message : string)
| ParseFailed (message : string).

Record Web (World : Type) := {
  requests_get : string -> World -> page_outcome * World
}.
Arguments requests_get {World}.

(** The body of [fetch_article_content] after the page is parsed. *)
Definition extract (url : string) (max_length : Z) (page : soup) : fetched :=
  match article page with
  | None =>
      {| title := "Could not fetch";
         content := "Failed to extract article content";
         url := url |}
  | Some paragraphs =>
      let title :=
        match title_tag page with
        | Some text => clean_text text
        | None => ""
        end in
      let content_parts :=
        filter (fun text => (30 <? String.length text)%nat)
               (map clean_text paragraphs) in
      let content := join (PyStr.nl ++ PyStr.nl) content_parts in
      let content :=
        if (max_length <? Z.of_nat (String.length content))%Z
        then slice_to max_length content ++ "..."
        else content in
      {| title := title; content := content; url := url |}
  end.

Section WithWeb.
Context {World : Type} (web : Web World).

Definition fetch_article_content (url : string) (max_length : Z) : M World fetched :=
  outcome <- call (requests_get web url) ;;
  match outcome with
  | Parsed page => ret (extract url max_length page)
  | RequestFailed message =>
      ret {| title := "Fetch error";
             content := "Could not fetch article: " ++ message;
             url := url |}
  | ParseFailed message =>
      ret {| title := "Parse error";
             content := "Could not parse article: " ++ message;
             url := url |}
  end.

(** ['=' * 60] *)
Definition rule : string :=
  "============================================================".

(** The loop of [fetch_multiple_articles], from the [i]-th URL on. *)
Fixpoint fetch_articles_from (i : nat) (urls : list string)
    (max_length_per_article : Z) (output : string) : M World string :=
  match urls with
  | [] => ret output
  | url :: rest =>
      article <- fetch_article_content url max_length_per_article ;;
      fetch_articles_from (S i) rest max_length_per_article
        (output ++
         PyStr.nl ++ rule ++ PyStr.nl ++
         "ARTICLE " ++ PyStr.str (Z.of_nat i) ++ ": " ++ title article ++ PyStr.nl ++
         "URL: " ++ ArticleFetcher.url article ++ PyStr.nl ++
         rule ++ PyStr.nl ++
         content article ++ PyStr.nl)
  end.

Definition fetch_multiple_articles (urls : list string)
    (max_length_per_article : Z) : M World string :=
  fetch_articles_from 1 urls max_length_per_article "".

End WithWeb.
End ArticleFetcher.

(** ** [agent_builder/tools_server.py]: the endpoints *)
Module ToolsServer.
Import Tools.

Local Open Scope string_scope.

(** [request.json], for the bodies the endpoints are written for:
    reading it raises, or it is [null], or it is an object, of which
    the endpoints read three fields. *)
Record fields := {
  hours_back : option Z;
  auto_post : option bool;
  content : option string
}.

Inductive request_json :=
| BadJson
| JsonNull
| JsonObject (data : fields).

Definition no_fields : fields :=
  {| hours_back := None; auto_post := None; content := None |}.

(** The JSON bodies the endpoints answer with. *)
Inductive body :=
| Healthy
| Failure (error : string)
| Crashed
| News (article_count : nat) (articles : list article)
| Generated (post : string) (articles_used : nat)
| Posted (result : LinkedinPoster.post_result)
| NotPublished (post : string) (error : string)
| Published (success : bool) (post : string) (linkedin_result : LinkedinPoster.post_result)
| GeneratedOnly (post : string) (message : string)
| Validated (result : LinkedinApi.validation).

(** A view returns a response, or a pair of a response and a status
    code. *)
Inductive view_result :=
| Response (b : body)
| WithStatus (b : body) (status_code : Z).

Definition status_code_of (r : view_result) : Z :=
  match r with
  | Response _ => 200
  | WithStatus _ status_code => status_code
  end.

Definition body_of (r : view_result) : body :=
  match r with
  | Response b => b
  | WithStatus b _ => b
  end.

(** [gen_data.get('success')] on the bodies of [generate_post]. *)
Definition success_of (b : body) : bool :=
  match b with
  | News _ _ | Generated _ _ | GeneratedOnly _ _ => true
  | Published success _ _ => success
  | Posted result => LinkedinPoster.success result
  | Healthy | Failure _ | Crashed | NotPublished _ _ | Validated _ => false
  end.

(** [gen_data['post']]; [None] where the key is missing. *)
Definition post_of (b : body) : option string :=
  match b with
  | Generated post _ | NotPublished post _ | Published _ post _
  | GeneratedOnly post _ => Some post
  | Healthy | Failure _ | Crashed | News _ _ | Posted _ | Validated _ => None
  end.

Record ServerEnv (World : Type) := {
  env : Env World;
  web : ArticleFetcher.Web World;
  (** [client.chat.completions.create] on a list of messages, each a
      role and a content; [None] when it raises. *)
  chat_create : list (string * string) -> World -> option string * World;
  (** [NEWS_CURATOR_PROMPT.format(articles=...)] and
      [CONTENT_WRITER_PROMPT.format(curated_articles=...)] *)
  NEWS_CURATOR_PROMPT : string -> string;
  CONTENT_WRITER_PROMPT : string -> string
}.
Arguments env {World}.
Arguments web {World}.
Arguments chat_create {World}.
Arguments NEWS_CURATOR_PROMPT {World}.
Arguments CONTENT_WRITER_PROMPT {World}.

(** [try: c except Exception: handler] *)
Definition try_except {World A : Type} (c handler : M World A) : M World A :=
  fun s =>
    match c s with
    | (Ok a, s') => (Ok a, s')
    | (Raised, s') => handler s'
    end.

(** [url.rstrip(')')] *)
Fixpoint rstrip_paren (url : string) : string :=
  match url with
  | EmptyString => EmptyString
  | String c rest =>
      match rstrip_paren rest with
      | EmptyString => if Ascii.eqb c ")" then EmptyString else String c EmptyString
      | kept => String c kept
      end
  end.

(** The text written by [generate_post] for the articles from the
    [i]-th on: no date line, and 800 characters of summary. *)
Fixpoint format_articles (i : nat) (all_articles : list article) : string :=
  match all_articles with
  | [] => ""
  | a :: rest =>
      "--- Article " ++ PyStr.str (Z.of_nat i) ++ " ---" ++ PyStr.nl ++
      "Source: " ++ source a ++ PyStr.nl ++
      "Title: " ++ title a ++ PyStr.nl ++
      "URL: " ++ url a ++ PyStr.nl ++
      "Summary: " ++ PyStr.take 800 (summary a) ++ PyStr.nl ++ PyStr.nl ++
      format_articles (S i) rest
  end.

Section WithEnv.
Context {World : Type} (senv : ServerEnv World).

Definition call_openai (prompt : string) (system_message : option string)
  : M World string :=
  let messages :=
    ((if Fetchers.truthy system_message
      then [("system", Fetchers.get_or "" system_message)] else [])
     ++ [("user", prompt)])%list in
  response <- call (chat_create senv messages) ;;
  match response with
  | Some content => ret content
  | None => raise
  end.

(** [request.json or {}] *)
Definition json_or_empty (request : request_json) : M World fields :=
  match request with
  | BadJson => raise
  | JsonNull => ret no_fields
  | JsonObject data => ret data
  end.

Definition get_hours_back (data : fields) : Z :=
  match hours_back data with
  | Some h => h
  | None => 48
  end.

Definition health : view_result := Response Healthy.

Definition fetch_ai_news (request : request_json) : M World view_result :=
  try_except
    (data <- json_or_empty request ;;
     let hours_back := get_hours_back data in
     rss_articles <- Fetchers.fetch_rss_feeds (env senv) hours_back ;;
     gnews_articles <- Fetchers.fetch_gnews (env senv) None 10 ;;
     let all_articles := (rss_articles ++ gnews_articles)%list in
     let formatted :=
       map (fun a => {| title := title a;
                        summary := PyStr.take 1000 (summary a);
                        url := url a;
                        date := date a;
                        source := source a |}) all_articles in
     ret (Response (News (List.length formatted) formatted)))
    (ret (WithStatus Crashed 500)).

(** The loop of [generate_post] over the URLs of the curated text. *)
Fixpoint append_full_content (urls : list string) (full_content : string)
  : M World string :=
  match urls with
  | [] => ret full_content
  | url :: rest =>
      article <- ArticleFetcher.fetch_article_content (web senv)
                   (rstrip_paren url) 2000 ;;
      append_full_content rest
        (full_content ++ PyStr.nl ++ "=== " ++ ArticleFetcher.title article ++ " ===" ++
         PyStr.nl ++ ArticleFetcher.slice_to 2000 (ArticleFetcher.content article) ++
         PyStr.nl)
  end.

Definition generate_post (request : request_json) : M World view_result :=
  try_except
    (data <- json_or_empty request ;;
     let hours_back := get_hours_back data in
     rss_articles <- Fetchers.fetch_rss_feeds (env senv) hours_back ;;
     gnews_articles <- Fetchers.fetch_gnews (env senv) None 10 ;;
     let all_articles := (rss_articles ++ gnews_articles)%list in
     match all_articles with
     | [] => ret (Response (Failure "No articles found"))
     | _ :: _ =>
         let articles_text :=
           "Found " ++ PyStr.str (Z.of_nat (List.length all_articles)) ++
           " articles:" ++ PyStr.nl ++ PyStr.nl ++ format_articles 1 all_articles in
         curated <- call_openai (NEWS_CURATOR_PROMPT senv articles_text)
                      (Some "Select the most interesting AI news for developers.") ;;
         let urls := firstn 4 (findall_urls (env senv) curated) in
         full_content <- append_full_content urls
                           (curated ++ PyStr.nl ++ PyStr.nl ++
                            "FULL ARTICLE CONTENT:" ++ PyStr.nl) ;;
         post_content <- call_openai (CONTENT_WRITER_PROMPT senv full_content)
                           (Some "Write like a real human, not an AI.") ;;
         ret (Response (Generated post_content (List.length urls)))
     end)
    (ret (WithStatus Crashed 500)).

Definition linkedin_post (request : request_json) : M World view_result :=
  try_except
    (match request with
     | BadJson => raise
     | JsonNull => ret (WithStatus (Failure "Missing 'content' field") 400)
     | JsonObject data =>
         match ToolsServer.content data with
         | None => ret (WithStatus (Failure "Missing 'content' field") 400)
         | Some content =>
             validation <- LinkedinApi.validate_linkedin_token (env senv) None ;;
             if negb (LinkedinApi.valid validation) then
               ret (WithStatus (Failure "LinkedIn token is invalid or expired") 401)
             else
               result <- LinkedinApi.post_to_linkedin (env senv) content None ;;
               ret (Response (Posted result))
         end
     end)
    (ret (WithStatus Crashed 500)).

(** [gen_response.get_json()]: a pair has no such method. *)
Definition get_json (gen_response : view_result) : M World body :=
  match gen_response with
  | Response b => ret b
  | WithStatus _ _ => raise
  end.

Definition full_workflow (request : request_json) : M World view_result :=
  try_except
    (data <- json_or_empty request ;;
     let hours_back := get_hours_back data in
     let auto_post :=
       match ToolsServer.auto_post data with
       | Some b => b
       | None => false
       end in
     gen_response <-
       generate_post
         (JsonObject {| hours_back := Some hours_back;
                        auto_post := None; content := None |}) ;;
     gen_data <- get_json gen_response ;;
     if negb (success_of gen_data) then ret (Response gen_data)
     else
       match post_of gen_data with
       | None => raise
       | Some post_content =>
           if auto_post then
             validation <- LinkedinApi.validate_linkedin_token (env senv) None ;;
             if negb (LinkedinApi.valid validation) then
               ret (Response
                      (NotPublished post_content
                         "LinkedIn token invalid - post generated but not published"))
             else
               result <- LinkedinApi.post_to_linkedin (env senv) post_content None ;;
               ret (Response
                      (Published (LinkedinPoster.success result) post_content result))
           else
             ret (Response
                    (GeneratedOnly post_content
                       "Post generated. Set auto_post=true to publish."))
       end)
    (ret (WithStatus Crashed 500)).

Definition validate_linkedin : M World view_result :=
  validation <- LinkedinApi.validate_linkedin_token (env senv) None ;;
  ret (Response (Validated validation)).

End WithEnv.
End ToolsServer.

(** ** [main.py]: the entry point *)
Module Cli.
Import Tools.

Local Open Scope string_scope.

(** The parsed command line. *)
Record args := {
  post : bool;
  hours : Z;
  skip_verify : bool;
  threshold : Z
}.

(** How [main] ends: [sys.exit(1)], or after the results are saved. *)
Inductive ending :=
| Exit1
| Saved (results_file : string).

Section WithEnv.
Context {World : Type} (env : Env World).
(** [json.dumps(results, indent=2, default=str)] *)
Context (json_dumps : Main.results -> string).

Definition main (args : args) : M World ending :=
  openai_key <- read (getenv env "OPENAI_API_KEY") ;;
  if negb (Fetchers.truthy openai_key) then ret Exit1
  else
    access_token <- read (getenv env "LINKEDIN_ACCESS_TOKEN") ;;
    if post args && negb (Fetchers.truthy access_token) then ret Exit1
    else
      results <- Main.run_workflow env (negb (post args)) (hours args)
                   (skip_verify args) (threshold args) ;;
      now <- call (datetime_now env) ;;
      let results_file := "logs/run_" ++ strftime env now ++ ".json" in
      emit (EvWriteFile results_file (json_dumps results)) ;;;
      update (write_text env results_file (json_dumps results)) ;;;
      ret (Saved results_file).

End WithEnv.
End Cli.

(** ** Vocabulary of the statements about runs *)
Module Props.
Import Tools.

Local Open Scope string_scope.

(** What a computation does from every state: the events it adds to
    the trace and how it ends (with a result or with an exception)
    are related by [Q]. *)
Definition performs {World A : Type} (c : M World A)
    (Q : outcome A -> list event -> Prop) : Prop :=
  forall s, exists t,
    trace (snd (c s)) = (trace s ++ t)%list /\ Q (fst (c s)) t.

(** Kinds of events. *)
Definition is_feed (e : event) : bool :=
  match e with
  | EvFeed _ => true
  | _ => false
  end.

Definition is_linkedin (e : event) : bool :=
  match e with
  | EvValidateToken | EvPublish _ | EvUserinfo | EvUgcPost _ => true
  | _ => false
  end.

Definition is_write (e : event) : bool :=
  match e with
  | EvWriteFile _ _ => true
  | _ => false
  end.

Definition is_publish_call (e : event) : bool :=
  match e with
  | EvPublish _ => true
  | _ => false
  end.

Definition is_fetch_articles (e : event) : bool :=
  match e with
  | EvFetchArticles _ => true
  | _ => false
  end.

(** An article of the feed [source_name], dated at or after the
    cutoff. *)
Definition recent_from {World : Type} (env : Env World)
    (source_name : string) (cutoff_time : Z) (a : article) : Prop :=
  source a = source_name /\
  exists pub_date, date a = isoformat env pub_date /\ cutoff_time <= pub_date.

(** One request to every feed, in the order of [RSS_FEEDS]. *)
Definition feed_requests : list event :=
  map EvFeed (map snd Fetchers.RSS_FEEDS).

(** The events of one collection of articles: every feed, then the
    news request if there is a key. *)
Definition collection (t : list event) : Prop :=
  t = feed_requests \/ t = (feed_requests ++ [EvGnews])%list.

(** The last verdict recorded under [results["steps"]]. *)
Definition last_verify (steps : list (string * Main.step_record))
  : option Verify.verdict :=
  fold_left (fun acc kv =>
               match snd kv with
               | Main.StepVerify v => Some v
               | _ => acc
               end) steps None.

(** The events between the collection and the end of a run: calls
    of the agent and at most one fetch of full articles, of one to
    five URLs. With [skip_verification] the agent is only called to
    curate and to write. *)
Definition prep_event (skip_verification : bool) (e : event) : Prop :=
  match e with
  | EvAgent (CuratorPrompt _) | EvAgent (WriterPrompt _) => True
  | EvAgent _ => skip_verification = false
  | EvFetchArticles urls => (1 <= List.length urls <= 5)%nat
  | _ => False
  end.

Definition preparation (skip_verification : bool) (t : list event) : Prop :=
  Forall (prep_event skip_verification) t /\
  (Spec.count_events is_fetch_articles t <= 1)%nat /\
  (Spec.count_events Spec.is_rewrite t <= Main.max_retries)%nat /\
  (Spec.count_events Spec.is_verify t <= Main.max_retries + 1)%nat /\
  (skip_verification = true -> (Spec.count_events Spec.is_agent t <= 2)%nat).

(** The events of step 5 on a text, and its result. *)
Definition publication (dry_run : bool) (content : string)
    (result : LinkedinPoster.post_result) (t : list event) : Prop :=
  if dry_run then
    t = [] /\ LinkedinPoster.success result = true /\
    LinkedinPoster.dry_run result = true
  else
    LinkedinPoster.dry_run result = false /\
    ((t = [EvPublish content] /\ LinkedinPoster.success result = false) \/
     (t = [EvPublish content; EvUserinfo] /\ LinkedinPoster.success result = false) \/
     t = [EvPublish content; EvUserinfo; EvUgcPost content]).

(** The four ways a run of [run_workflow] goes. *)
Inductive run_shape (dry_run skip_verification : bool)
  : outcome Main.results -> list event -> Prop :=
| RunSkipped (r : Main.results) (f1 : list event) :
    collection f1 ->
    Main.status r = Some "skipped" ->
    Main.reason r = Some "No articles found" ->
    Main.steps r = [] ->
    Main.dry_run r = dry_run ->
    run_shape dry_run skip_verification (Ok r) f1
| RunRaised (f1 f2 prep : list event) :
    collection f1 -> collection f2 ->
    preparation skip_verification prep ->
    (exists pre p, prep = (pre ++ [EvAgent p])%list) ->
    run_shape dry_run skip_verification Raised (f1 ++ f2 ++ prep)%list
| RunSaved (r : Main.results) (f1 f2 pre : list event)
    (draft_post enhanced_content path : string) (v : Verify.verdict) :
    skip_verification = false ->
    collection f1 -> collection f2 ->
    preparation skip_verification
      (pre ++ [EvAgent (VerifierPrompt draft_post enhanced_content)])%list ->
    Main.status r = Some "draft_saved" ->
    Main.draft_file r = Some path ->
    Main.final_confidence r = Some (Verify.confidence v) ->
    Verify.confidence v < 100 ->
    last_verify (Main.steps r) = Some v ->
    Main.dry_run r = dry_run ->
    run_shape dry_run skip_verification (Ok r)
      (f1 ++ f2 ++ (pre ++ [EvAgent (VerifierPrompt draft_post enhanced_content)])
          ++ [EvWriteFile path
                (Main.draft_file_content draft_post (Verify.report v))])%list
| RunPosted (r : Main.results) (f1 f2 prep pub : list event)
    (draft_post : string) (result : LinkedinPoster.post_result) :
    collection f1 -> collection f2 ->
    preparation skip_verification prep ->
    publication dry_run draft_post result pub ->
    Main.status r =
      Some (if LinkedinPoster.success result then "success" else "failed") ->
    Main.draft_file r = None ->
    Main.dry_run r = dry_run ->
    (if skip_verification then
       last_verify (Main.steps r) = None /\
       exists pre curated, prep = (pre ++ [EvAgent (WriterPrompt curated)])%list
     else
       exists pre enhanced_content v,
         prep = (pre ++ [EvAgent (VerifierPrompt draft_post enhanced_content)])%list /\
         last_verify (Main.steps r) = Some v /\
         Verify.confidence v = 100) ->
    run_shape dry_run skip_verification (Ok r) (f1 ++ f2 ++ prep ++ pub)%list.

(** The validation, run in state [s], answers [valid]. *)
Definition validates {World : Type} (env : Env World)
    (access_token : option string) (s : state World) : bool :=
  match fst (LinkedinApi.validate_linkedin_token env access_token s) with
  | Ok v => LinkedinApi.valid v
  | Raised => false
  end.

(** The request asks [full_workflow] to publish. *)
Definition wants_post (request : ToolsServer.request_json) : bool :=
  match request with
  | ToolsServer.JsonObject data =>
      match ToolsServer.auto_post data with
      | Some b => b
      | None => false
      end
  | _ => false
  end.

(** [main] stops at once: no OpenAI key, or [--post] without a
    LinkedIn token. *)
Definition refuses {World : Type} (env : Env World) (args : Cli.args) (w : World)
  : bool :=
  negb (Fetchers.truthy (getenv env "OPENAI_API_KEY" w)) ||
  (Cli.post args && negb (Fetchers.truthy (getenv env "LINKEDIN_ACCESS_TOKEN" w))).

(** The events of the retry loop after a verification of the text
    [verified]: nothing; or a rewrite of that text that raises; or a
    rewrite of that text, the verification of a text, and the events
    of the loop after it. Every call carries the same
    [enhanced_content]. *)
Inductive loop_trace (enhanced_content : string) : string -> list event -> Prop :=
| LoopEnds (verified : string) :
    loop_trace enhanced_content verified []
| LoopBreaks (verified verification_report : string) :
    loop_trace enhanced_content verified
      [EvAgent (RewritePrompt verified verification_report enhanced_content)]
| LoopGoesOn (verified verification_report rewritten : string) (t : list event) :
    loop_trace enhanced_content rewritten t ->
    loop_trace enhanced_content verified
      (EvAgent (RewritePrompt verified verification_report enhanced_content)
         :: EvAgent (VerifierPrompt rewritten enhanced_content) :: t).

(** The keys set under [results["steps"]] by the [i]-th round of the
    loop, and by the first [n] rounds. *)
Definition round_keys (i : nat) : list string :=
  [ "rewrite_" ++ PyStr.str (Z.of_nat i); "verify_" ++ PyStr.str (Z.of_nat i) ].

Definition rounds_keys (first n : nat) : list string :=
  flat_map round_keys (seq first n).

(** The keys set before the loop. *)
Definition first_keys : list string :=
  [ "fetch"; "curate"; "fetch_full"; "write"; "verify" ].

(** The text with its asterisks taken out. *)
Fixpoint without_stars (s : string) : string :=
  match s with
  | EmptyString => EmptyString
  | String c s' =>
      if Ascii.eqb c "*" then without_stars s' else String c (without_stars s')
  end.

(** A report made of status lines only: one line per claim, verified
    or not. *)
Fixpoint status_lines (claims : list bool) : string :=
  match claims with
  | [] => ""
  | verified :: rest =>
      (if verified then "Status: VERIFIED" else "Status: UNVERIFIED")
      ++ PyStr.nl ++ status_lines rest
  end.

(** The first occurrence of every element, in order: the head stays,
    its later copies go. *)
Fixpoint first_occurrences (l : list string) : list string :=
  match l with
  | [] => []
  | x :: rest => x :: filter (fun y => negb (String.eqb y x)) (first_occurrences rest)
  end.

(** The key that [fetch_gnews] works with: the argument if it is set,
    else the environment variable. *)
Definition gnews_key_of {World : Type} (env : Env World) (api_key : option string)
    (w : World) : option string :=
  if Fetchers.truthy api_key then api_key else getenv env "GNEWS_API_KEY" w.

(** The token that the LinkedIn operations work with. *)
Definition token_of {World : Type} (env : Env World) (access_token : option string)
    (w : World) : option string :=
  if Fetchers.truthy access_token then access_token
  else getenv env "LINKEDIN_ACCESS_TOKEN" w.

(** No two consecutive spaces. *)
Fixpoint single_spaced (s : string) : bool :=
  match s with
  | String a ((String b _) as rest) =>
      negb (Ascii.eqb a " " && Ascii.eqb b " ") && single_spaced rest
  | _ => true
  end.

(** A character that is white space only if it is the space. *)
Definition plain (c : ascii) : bool :=
  negb (ArticleFetcher.is_space c) || Ascii.eqb c " ".

(** Every character of [s] satisfies [p]. *)
Fixpoint all_chars (p : ascii -> bool) (s : string) : bool :=
  match s with
  | EmptyString => true
  | String c rest => p c && all_chars p rest
  end.

(** The first and the last character of [s], if any. *)
Definition first_char (s : string) : option ascii :=
  match s with
  | EmptyString => None
  | String c _ => Some c
  end.

Fixpoint last_char (s : string) : option ascii :=
  match s with
  | EmptyString => None
  | String c EmptyString => Some c
  | String _ rest => last_char rest
  end.

End Props.

(** ** More scripted worlds *)
Module Scenes.
Import Tools Script.

Local Open Scope string_scope.

(** A news response that repeats a URL and has two items without
    one. *)
Definition repeated_news_world : sworld := {|
  clock := 1000000000;
  feeds := [];
  gnews_key := Some "key";
  gnews_response :=
    Some [ an_item "https://a.example/1" "T999999999";
           {| item_url := None; item_title := Some "No link";
              item_description := None; item_publishedAt := None;
              item_source_name := None |};
           an_item "https://a.example/1" "T999999998";
           an_item "https://a.example/2" "T999999997";
           {| item_url := None; item_title := Some "No link either";
              item_description := None; item_publishedAt := None;
              item_source_name := None |} ];
  replies := [];
  linkedin_token := None;
  linkedin_profile := None;
  ugc_response := RequestException "unreachable";
  files := []
|}.

(** A token, a profile with a subject, and a post request that is
    answered with 201; one recent entry in the OpenAI feed; an agent
    that curates, writes, and verifies the one claim of the draft. *)
Definition signed_in_world : sworld := {|
  clock := 1000000000;
  feeds := [("https://openai.com/blog/rss.xml", [an_entry "https://a.example/1" 999999999])];
  gnews_key := None;
  gnews_response := None;
  replies := ["curated"; "draft"; "Status: VERIFIED"];
  linkedin_token := Some "token";
  linkedin_profile := Some {| sub := Some "abc"; name := Some "Ada"; email := None |};
  ugc_response := Created "urn:li:share:1";
  files := []
|}.

(** The same, with an agent that stops answering after the draft. *)
Definition silent_verifier_world : sworld := {|
  clock := 1000000000;
  feeds := [("https://openai.com/blog/rss.xml", [an_entry "https://a.example/1" 999999999])];
  gnews_key := None;
  gnews_response := None;
  replies := ["curated"; "draft"];
  linkedin_token := Some "token";
  linkedin_profile := Some {| sub := Some "abc"; name := Some "Ada"; email := None |};
  ugc_response := Created "urn:li:share:1";
  files := []
|}.

(** A page with a title and three paragraphs, one of them short. *)
Definition a_page : ArticleFetcher.soup := {|
  ArticleFetcher.title_tag := Some ("  A   title" ++ PyStr.nl);
  ArticleFetcher.article :=
    Some [ "The first paragraph of the page, long enough to be kept.";
           "Too short.";
           "The second   paragraph of the page," ++ PyStr.nl ++ "on two lines in the source." ]
|}.

Definition web : ArticleFetcher.Web sworld := {|
  ArticleFetcher.requests_get := fun url w =>
    (if String.eqb url "https://a.example/1" then ArticleFetcher.Parsed a_page
     else ArticleFetcher.RequestFailed "404 Client Error", w)
|}.

Definition server : ToolsServer.ServerEnv sworld := {|
  ToolsServer.env := Script.env;
  ToolsServer.web := web;
  ToolsServer.chat_create := fun _ w => next_reply w;
  ToolsServer.NEWS_CURATOR_PROMPT := fun articles => "Curate: " ++ articles;
  ToolsServer.CONTENT_WRITER_PROMPT := fun curated => "Write: " ++ curated
|}.

Definition dumps (r : Main.results) : string :=
  match Main.status r with
  | Some status => status
  | None => "null"
  end.

End Scenes.

(** * Properties *)

(** ** Rounding to binary64: shifts, sticky bits, nearest-even *)
Module RoundingFacts.
Import PyFloat Rounding.

Lemma digits2_pos_bounds (p : positive) :
  2 ^ (Zpos (digits2_pos p) - 1) <= Zpos p < 2 ^ Zpos (digits2_pos p).
Proof.
  induction p as [p IH | p IH |]; simpl digits2_pos.
  - rewrite Pos2Z.inj_succ.
    replace (Z.succ (Zpos (digits2_pos p)) - 1) with (Z.succ (Zpos (digits2_pos p) - 1)) by lia.
    rewrite !Z.pow_succ_r by lia. lia.
  - rewrite Pos2Z.inj_succ.
    replace (Z.succ (Zpos (digits2_pos p)) - 1) with (Z.succ (Zpos (digits2_pos p) - 1)) by lia.
    rewrite !Z.pow_succ_r by lia. lia.
  - simpl. lia.
Qed.

Lemma Zdigits2_nonneg (m : Z) : 0 <= Zdigits2 m.
Proof. destruct m; simpl; lia. Qed.

Lemma Zdigits2_bounds (m : Z) :
  0 < m -> 2 ^ (Zdigits2 m - 1) <= m < 2 ^ Zdigits2 m.
Proof.
  destruct m as [|p|p]; try lia. intros _. apply digits2_pos_bounds.
Qed.

Lemma Zdigits2_le (m k : Z) : 0 <= k -> 0 <= m < 2 ^ k -> Zdigits2 m <= k.
Proof.
  intros Hk [H0 H1]. destruct (Z.eq_dec m 0) as [->|Hm]; [simpl; lia|].
  pose proof (Zdigits2_bounds m ltac:(lia)) as [Hlo _].
  destruct (Z_le_gt_dec (Zdigits2 m) k) as [|Hgt]; [assumption|].
  assert (2 ^ k <= 2 ^ (Zdigits2 m - 1)) by (apply Z.pow_le_mono_r; lia).
  lia.
Qed.

Lemma Zdigits2_ge (m k : Z) : 0 < m -> 2 ^ (k - 1) <= m -> k <= Zdigits2 m.
Proof.
  intros Hm Hk.
  pose proof (Zdigits2_bounds m Hm) as [_ Hhi].
  pose proof (Zdigits2_nonneg m).
  destruct (Z_le_gt_dec k (Zdigits2 m)) as [|Hgt]; [assumption|].
  assert (2 ^ Zdigits2 m <= 2 ^ (k - 1)) by (apply Z.pow_le_mono_r; lia).
  lia.
Qed.

Lemma Zdigits2_eq (m k : Z) : 2 ^ (k - 1) <= m < 2 ^ k -> 0 < k -> Zdigits2 m = k.
Proof.
  intros [Hlo Hhi] Hk.
  assert (0 < m) by (pose proof (Z.pow_pos_nonneg 2 (k - 1)); lia).
  pose proof (Zdigits2_le m k ltac:(lia) ltac:(lia)).
  pose proof (Zdigits2_ge m k ltac:(lia) Hlo). lia.
Qed.

Lemma iter_pos_nat {A : Type} (f : A -> A) (p : positive) (x : A) :
  SpecFloat.iter_pos f p x = Nat.iter (Pos.to_nat p) f x.
Proof.
  revert x. induction p as [p IH | p IH |]; intros x; simpl SpecFloat.iter_pos.
  - rewrite !IH, Pos2Nat.inj_xI.
    replace (S (2 * Pos.to_nat p)) with (Pos.to_nat p + S (Pos.to_nat p))%nat by lia.
    rewrite Nat.iter_add. f_equal. now rewrite Nat.iter_succ_r.
  - rewrite !IH, Pos2Nat.inj_xO.
    replace (2 * Pos.to_nat p)%nat with (Pos.to_nat p + Pos.to_nat p)%nat by lia.
    now rewrite Nat.iter_add.
  - reflexivity.
Qed.

Lemma shr_1_nonneg (m : Z) (r s : bool) :
  0 <= m ->
  shr_1 {| shr_m := m; shr_r := r; shr_s := s |} =
  {| shr_m := m / 2; shr_r := Z.odd m; shr_s := r || s |}.
Proof.
  intros Hm. rewrite <- Z.div2_div.
  destruct m as [|[p|p|]|]; try lia; reflexivity.
Qed.

Lemma loc_frac_record (m : Z) (l : location) :
  shr_m (shr_record_of_loc m l) = m /\
  loc_of_shr_record (shr_record_of_loc m l) = l.
Proof. destruct l as [|[]]; split; reflexivity. Qed.

Lemma loc_frac_inv (l : location) (num den : Z) :
  loc_frac l num den ->
  0 <= num < den /\
  match l with
  | loc_Exact => num = 0
  | loc_Inexact Lt => 0 < num /\ 2 * num < den
  | loc_Inexact Eq => 2 * num = den
  | loc_Inexact Gt => den < 2 * num
  end.
Proof.
  intros [H ->]. split; [assumption|].
  destruct (Z.eqb_spec num 0); [assumption|].
  destruct (Z.compare_spec (2 * num) den); lia.
Qed.

Lemma loc_frac_intro (l : location) (num den : Z) :
  0 <= num < den ->
  match l with
  | loc_Exact => num = 0
  | loc_Inexact Lt => 0 < num /\ 2 * num < den
  | loc_Inexact Eq => 2 * num = den
  | loc_Inexact Gt => den < 2 * num
  end ->
  loc_frac l num den.
Proof.
  intros H Hl. split; [assumption|].
  destruct l as [|c].
  - subst num. reflexivity.
  - destruct (Z.eqb_spec num 0) as [Hz|Hz]; [destruct c; lia|].
    f_equal. symmetry.
    destruct c; [apply Z.compare_eq_iff | apply Z.compare_lt_iff | apply Z.compare_gt_iff]; lia.
Qed.

Lemma shr_1_frac (mrs : shr_record) (num den : Z) :
  0 <= shr_m mrs ->
  loc_frac (loc_of_shr_record mrs) num den ->
  shr_m (shr_1 mrs) = shr_m mrs / 2 /\
  loc_frac (loc_of_shr_record (shr_1 mrs))
           (num + den * (shr_m mrs mod 2)) (2 * den).
Proof.
  destruct mrs as [m r s]. intros Hm Hl.
  rewrite shr_1_nonneg by exact Hm. cbn [shr_m] in *. split; [reflexivity|].
  apply loc_frac_inv in Hl. destruct Hl as [Hnd Hl].
  rewrite Zmod_odd. apply loc_frac_intro.
  - destruct (Z.odd m); lia.
  - destruct (Z.odd m), r, s; cbn [loc_of_shr_record orb] in *; lia.
Qed.

Lemma iter_shr_1_frac (n : nat) (mrs : shr_record) (num den : Z) :
  0 <= shr_m mrs ->
  loc_frac (loc_of_shr_record mrs) num den ->
  shr_m (Nat.iter n shr_1 mrs) = shr_m mrs / 2 ^ Z.of_nat n /\
  loc_frac (loc_of_shr_record (Nat.iter n shr_1 mrs))
           (num + den * (shr_m mrs mod 2 ^ Z.of_nat n)) (2 ^ Z.of_nat n * den).
Proof.
  intros Hm Hl. induction n as [|n [IHm IHl]].
  - change (Z.of_nat 0) with 0. cbn [Nat.iter nat_rect].
    rewrite Z.pow_0_r, Z.div_1_r, Z.mod_1_r, Z.mul_0_r, Z.add_0_r, Z.mul_1_l.
    split; [reflexivity | assumption].
  - assert (H2n : 0 < 2 ^ Z.of_nat n) by (apply Z.pow_pos_nonneg; lia).
    assert (Hq : 0 <= shr_m (Nat.iter n shr_1 mrs))
      by (rewrite IHm; apply Z.div_pos; lia).
    destruct (shr_1_frac _ _ _ Hq IHl) as [Sm Sl].
    rewrite Nat2Z.inj_succ, Z.pow_succ_r by lia. rewrite Nat.iter_succ.
    split.
    + rewrite Sm, IHm, Z.div_div by lia. f_equal. lia.
    + rewrite IHm in Sl.
      replace (2 * 2 ^ Z.of_nat n) with (2 ^ Z.of_nat n * 2) by lia.
      rewrite Z.rem_mul_r by lia.
      replace (2 ^ Z.of_nat n * 2 * den) with (2 * (2 ^ Z.of_nat n * den)) by lia.
      replace (num + den * (shr_m mrs mod 2 ^ Z.of_nat n +
                            2 ^ Z.of_nat n * ((shr_m mrs / 2 ^ Z.of_nat n) mod 2)))
        with (num + den * (shr_m mrs mod 2 ^ Z.of_nat n) +
              2 ^ Z.of_nat n * den * ((shr_m mrs / 2 ^ Z.of_nat n) mod 2)) by ring.
      exact Sl.
Qed.

Lemma shr_fexp_frac (m e : Z) (l : location) (num den : Z) :
  0 <= m ->
  loc_frac l num den ->
  snd (shr_fexp prec emax m e l) = e + shift_of m e /\
  shr_m (fst (shr_fexp prec emax m e l)) = m / 2 ^ shift_of m e /\
  loc_frac (loc_of_shr_record (fst (shr_fexp prec emax m e l)))
           (num + den * (m mod 2 ^ shift_of m e)) (2 ^ shift_of m e * den).
Proof.
  intros Hm Hl. unfold shr_fexp, shift_of, shr.
  destruct (loc_frac_record m l) as [Rm Rl].
  destruct (fexp prec emax (Zdigits2 m + e) - e) as [|p|p] eqn:E;
    cbn [fst snd].
  1,3: (replace (Z.max 0 _) with 0 by lia);
       rewrite Z.pow_0_r, Z.div_1_r, Z.mod_1_r, Z.mul_0_r, !Z.add_0_r, Z.mul_1_l, Rm, Rl;
       repeat split; try reflexivity; apply Hl.
  replace (Z.max 0 (Z.pos p)) with (Z.pos p) by lia.
  rewrite iter_pos_nat.
  pose proof (iter_shr_1_frac (Pos.to_nat p) (shr_record_of_loc m l) num den) as H.
  rewrite Rm, Rl, positive_nat_Z in H.
  destruct (H Hm Hl) as [H1 H2]. repeat split; assumption || apply H2.
Qed.

Lemma round_nearest_even_frac (q : Z) (l : location) (num den : Z) :
  loc_frac l num den ->
  (round_nearest_even q l = q \/ round_nearest_even q l = q + 1) /\
  (num = 0 -> round_nearest_even q l = q) /\
  - den <= 2 * (den * round_nearest_even q l - (den * q + num)) <= den.
Proof.
  intros Hl. apply loc_frac_inv in Hl. destruct Hl as [Hnd Hl].
  destruct l as [|[]]; cbn [round_nearest_even].
  - repeat split; auto; lia.
  - destruct (Z.even q); repeat split; auto; lia.
  - repeat split; auto; lia.
  - repeat split; auto; try lia.
Qed.

(** What [binary_round_aux] does to a mantissa [m] followed by the
    fraction [num / den]: the mantissa shifted by [shift_of m e] is
    rounded to a neighbour [M1], at most half a unit away, and
    packed. *)
Lemma binary_round_aux_frac (m e : Z) (l : location) (num den : Z) :
  0 <= m ->
  loc_frac l num den ->
  exists M1 : Z,
    (M1 = m / 2 ^ shift_of m e \/ M1 = m / 2 ^ shift_of m e + 1) /\
    (num + den * (m mod 2 ^ shift_of m e) = 0 -> M1 = m / 2 ^ shift_of m e) /\
    - (2 ^ shift_of m e * den)
      <= 2 * (2 ^ shift_of m e * den * M1 - (den * m + num))
      <= 2 ^ shift_of m e * den /\
    binary_round_aux prec emax false m e l = pack M1 (e + shift_of m e).
Proof.
  intros Hm Hl.
  destruct (shr_fexp_frac m e l num den Hm Hl) as (He & Hq & Hl').
  unfold binary_round_aux.
  destruct (shr_fexp prec emax m e l) as [mrs' e'] eqn:E1. cbn [fst snd] in *.
  set (M1 := round_nearest_even (shr_m mrs') (loc_of_shr_record mrs')).
  destruct (round_nearest_even_frac (shr_m mrs') _ _ _ Hl') as (Hc & Hz & Hb).
  fold M1 in Hc, Hz, Hb. rewrite Hq in Hc, Hz, Hb.
  assert (H2 : 0 < 2 ^ shift_of m e)
    by (apply Z.pow_pos_nonneg; unfold shift_of; lia).
  assert (Hq0 : 0 <= m / 2 ^ shift_of m e) by (apply Z.div_pos; lia).
  assert (HM1 : 0 <= M1) by lia.
  exists M1. split; [exact Hc|]. split; [exact Hz|]. split.
  - pose proof (Z.div_mod m (2 ^ shift_of m e) ltac:(lia)) as Hdm.
    nia.
  - assert (Hx : loc_frac loc_Exact 0 1) by (split; [lia | reflexivity]).
    destruct (shr_fexp_frac M1 e' loc_Exact 0 1 HM1 Hx) as (He2 & Hq2 & _).
    destruct (shr_fexp prec emax M1 e' loc_Exact) as [mrs2 e2] eqn:E2.
    cbn [fst snd] in *. unfold pack. subst e'. rewrite Hq2, He2. reflexivity.
Qed.

End RoundingFacts.

(** ** Values of floats as real numbers, and upper bounds *)
Module ValueFacts.
Import PyFloat Rounding RoundingFacts.


Lemma bpow_pos (e : Z) : (0 < bpow e)%R.
Proof. apply powerRZ_lt. lra. Qed.

Lemma bpow_add (a b : Z) : (bpow (a + b) = bpow a * bpow b)%R.
Proof. apply powerRZ_add. lra. Qed.

Lemma bpow_IZR (n : Z) : 0 <= n -> bpow n = IZR (2 ^ n).
Proof.
  intros Hn. unfold bpow. destruct n as [|p|p]; try lia.
  - reflexivity.
  - symmetry. apply (Zpower_pos_powerRZ 2 p).
Qed.

Lemma bpow_opp (n : Z) : 0 <= n -> (bpow (- n) * IZR (2 ^ n) = 1)%R.
Proof.
  intros Hn. rewrite <- bpow_IZR by assumption. rewrite <- bpow_add.
  replace (- n + n) with 0 by lia. reflexivity.
Qed.

Lemma bpow_le (a b : Z) : a <= b -> (bpow a <= bpow b)%R.
Proof.
  intros H. replace b with (a + (b - a)) by lia. rewrite bpow_add.
  rewrite (bpow_IZR (b - a)) by lia.
  assert (1 <= 2 ^ (b - a)) by (pose proof (Z.pow_pos_nonneg 2 (b - a)); lia).
  apply IZR_le in H0. pose proof (bpow_pos a). nra.
Qed.

Lemma bpow_lt_inv (a b : Z) : (bpow a < bpow b)%R -> a < b.
Proof.
  intros H. destruct (Z_lt_le_dec a b) as [|Hle]; [assumption|].
  apply bpow_le in Hle. lra.
Qed.

Lemma bpow_shift (e n : Z) : 0 <= n -> (bpow (e + n) = bpow e * IZR (2 ^ n))%R.
Proof. intros Hn. rewrite bpow_add, (bpow_IZR n) by assumption. reflexivity. Qed.

Lemma shift_of_nonneg (m e : Z) : 0 <= shift_of m e.
Proof. unfold shift_of. lia. Qed.

(** The two shapes of a packed mantissa, and the value kept. *)
Lemma pack_cases (M1 e1 : Z) :
  0 <= M1 ->
  pack M1 e1 = S754_zero false \/
  exists (M : positive) (E : Z),
    E = e1 + shift_of M1 e1 /\
    Zpos M = M1 / 2 ^ shift_of M1 e1 /\
    pack M1 e1 = (if E <=? emax - prec
                  then S754_finite false M E else S754_infinity false).
Proof.
  intros HM. unfold pack.
  pose proof (shift_of_nonneg M1 e1) as Hn.
  assert (0 <= M1 / 2 ^ shift_of M1 e1)
    by (apply Z.div_pos; [lia | apply Z.pow_pos_nonneg; lia]).
  destruct (M1 / 2 ^ shift_of M1 e1) as [|M|M] eqn:E; try lia.
  - now left.
  - right. exists M, (e1 + shift_of M1 e1). repeat split.
Qed.

Lemma pack_value_le (M1 e1 : Z) (M : positive) :
  0 <= M1 ->
  Zpos M = M1 / 2 ^ shift_of M1 e1 ->
  (IZR (Zpos M) * bpow (e1 + shift_of M1 e1) <= IZR M1 * bpow e1)%R.
Proof.
  intros HM HE. pose proof (shift_of_nonneg M1 e1) as Hn.
  rewrite bpow_shift by assumption.
  assert (H2 : 0 < 2 ^ shift_of M1 e1) by (apply Z.pow_pos_nonneg; lia).
  pose proof (Z.mul_div_le M1 _ H2) as Hle. rewrite <- HE in Hle.
  apply IZR_le in Hle. rewrite mult_IZR in Hle.
  pose proof (bpow_pos e1). nra.
Qed.

(** [int] of a positive float is below its value, by less than 1. *)
Lemma trunc_pos_value (M : positive) (E : Z) :
  (IZR (trunc_pos M E) <= IZR (Zpos M) * bpow E < IZR (trunc_pos M E) + 1)%R.
Proof.
  unfold trunc_pos. destruct E as [|p|p].
  - rewrite Z.pow_0_r, Z.mul_1_r. unfold bpow. simpl powerRZ. lra.
  - rewrite mult_IZR, <- bpow_IZR by lia. lra.
  - change (Z.neg p) with (- Z.pos p).
    pose proof (bpow_opp (Z.pos p) ltac:(lia)) as Hinv.
    assert (H2 : 0 < 2 ^ Z.pos p) by (apply Z.pow_pos_nonneg; lia).
    pose proof (Z.div_mod (Z.pos M) (2 ^ Z.pos p) ltac:(lia)) as Hdm.
    pose proof (Z.mod_pos_bound (Z.pos M) _ H2) as Hr.
    set (q := Z.pos M / 2 ^ Z.pos p) in *.
    set (r := Z.pos M mod 2 ^ Z.pos p) in *.
    rewrite Hdm, plus_IZR, mult_IZR.
    pose proof (bpow_pos (- Z.pos p)) as Hb.
    destruct Hr as [Hr0 Hr1]. apply IZR_le in Hr0. apply IZR_lt in Hr1.
    apply IZR_lt in H2.
    set (P := IZR (2 ^ Z.pos p)) in *. set (B := bpow (- Z.pos p)) in *.
    replace ((P * IZR q + IZR r) * B)%R with (IZR q * (B * P) + IZR r * B)%R by ring.
    rewrite Hinv.
    assert (IZR r * B < 1)%R by (rewrite <- Hinv; nra).
    assert (0 <= IZR r * B)%R by nra.
    lra.
Qed.

Lemma new_location_frac (b r : Z) :
  0 <= r < b -> loc_frac (new_location b r) r b.
Proof.
  intros H. apply loc_frac_intro; [assumption|].
  unfold new_location, new_location_even, new_location_odd.
  destruct (Z.even b) eqn:Ev.
  - destruct (Z.eqb_spec r 0); [assumption|].
    destruct (Z.compare_spec (2 * r) b); lia.
  - destruct (Z.eqb_spec r 0); [assumption|].
    assert (Hodd : Z.odd b = true) by (rewrite <- Z.negb_even, Ev; reflexivity).
    apply Z.odd_spec in Hodd. destruct Hodd as [k Hk].
    destruct (Z.compare_spec (2 * r + 1) b); lia.
Qed.

Lemma SFdiv_core_exact (a b : positive) :
  SFdiv_core_binary prec emax (Zpos a) 0 (Zpos b) 0 =
  (Zpos a * 2 ^ div_scale (Zpos a) (Zpos b) / Zpos b,
   - div_scale (Zpos a) (Zpos b),
   new_location (Zpos b) ((Zpos a * 2 ^ div_scale (Zpos a) (Zpos b)) mod Zpos b)).
Proof.
  unfold SFdiv_core_binary, div_scale.
  rewrite !Z.add_0_r. change (0 - 0) with 0.
  generalize (Z.min (fexp prec emax (Zdigits2 (Zpos a) - Zdigits2 (Zpos b))) 0)
           (Z.le_min_r (fexp prec emax (Zdigits2 (Zpos a) - Zdigits2 (Zpos b))) 0).
  intros e' He.
  replace (0 - e') with (- e') by lia.
  assert (Hm : match - e' with
               | Z0 => Zpos a
               | Zpos _ => Z.shiftl (Zpos a) (- e')
               | Zneg _ => 0
               end = Zpos a * 2 ^ (- e')).
  { remember (- e') as s eqn:Es. destruct s as [|p|p]; try lia.
    apply Z.shiftl_mul_pow2. lia. }
  rewrite Hm. unfold Z.div, Z.modulo.
  destruct (Z.div_eucl (Zpos a * 2 ^ (- e')) (Zpos b)) as [q r].
  f_equal. f_equal. lia.
Qed.

Lemma fexp_eq (x : Z) : fexp prec emax x = Z.max (x - 53) (-1074).
Proof. reflexivity. Qed.

(** Rounding never crosses a representable threshold: if the exact
    value is at most [K * 2^g], and [2^g] is a multiple of the unit
    in the last place kept, so is the rounded mantissa. *)
Lemma binary_round_aux_le (m e : Z) (l : location) (num den K g : Z) :
  0 <= m ->
  loc_frac l num den ->
  0 <= K ->
  e + shift_of m e <= g ->
  den * m + num <= den * (K * 2 ^ (g - e)) ->
  exists M1 : Z,
    0 <= M1 <= K * 2 ^ (g - (e + shift_of m e)) /\
    binary_round_aux prec emax false m e l = pack M1 (e + shift_of m e).
Proof.
  intros Hm Hl HK Hg HV.
  destruct (binary_round_aux_frac m e l num den Hm Hl) as (M1 & Hc & Hz & _ & Heq).
  exists M1. split; [|exact Heq].
  pose proof (shift_of_nonneg m e) as Hn.
  destruct Hl as [Hnd _].
  set (n := shift_of m e) in *.
  assert (H2n : 0 < 2 ^ n) by (apply Z.pow_pos_nonneg; lia).
  assert (Hsplit : 2 ^ (g - e) = 2 ^ n * 2 ^ (g - (e + n)))
    by (rewrite <- Z.pow_add_r by lia; f_equal; lia).
  assert (H2g : 0 < 2 ^ (g - (e + n))) by (apply Z.pow_pos_nonneg; lia).
  set (K' := K * 2 ^ (g - (e + n))) in *.
  assert (HK' : 0 <= K') by (unfold K'; nia).
  rewrite Hsplit in HV.
  assert (Hm' : m <= 2 ^ n * K') by (unfold K'; nia).
  pose proof (Z.div_mod m (2 ^ n) ltac:(lia)) as Hdm.
  pose proof (Z.mod_pos_bound m (2 ^ n) H2n) as Hr.
  set (q := m / 2 ^ n) in *. set (r := m mod 2 ^ n) in *.
  assert (Hq : 0 <= q <= K') by nia.
  destruct Hc as [-> | ->]; [lia|].
  destruct (Z.eq_dec q K') as [HqK | HqK]; [|lia].
  assert (r = 0) by nia.
  assert (num = 0) by (unfold K' in *; nia).
  assert (q + 1 = q) by (apply Hz; nia). lia.
Qed.

Lemma pack_le_value (M1 e1 K g : Z) :
  0 <= M1 <= K * 2 ^ (g - e1) ->
  e1 <= g ->
  (IZR K * bpow g < bpow (emax - prec + 1))%R ->
  pack M1 e1 = S754_zero false \/
  exists (M : positive) (E : Z),
    pack M1 e1 = S754_finite false M E /\
    (IZR (Zpos M) * bpow E <= IZR K * bpow g)%R.
Proof.
  intros HM Hg Hfin.
  destruct (pack_cases M1 e1 (proj1 HM)) as [Hz | (M & E & HE & HMq & Hp)];
    [now left | right].
  pose proof (pack_value_le M1 e1 M (proj1 HM) HMq) as Hv. rewrite <- HE in Hv.
  assert (Hb : (IZR M1 * bpow e1 <= IZR K * bpow g)%R).
  { replace g with (e1 + (g - e1)) by lia. rewrite bpow_shift by lia.
    destruct HM as [_ HM]. apply IZR_le in HM. rewrite mult_IZR in HM.
    pose proof (bpow_pos e1). nra. }
  exists M, E. split; [|lra].
  rewrite Hp. destruct (Z.leb_spec E (emax - prec)) as [|Hgt]; [reflexivity|].
  exfalso.
  assert (Hbig : (bpow (emax - prec + 1) <= bpow E)%R) by (apply bpow_le; lia).
  assert (1 <= IZR (Zpos M))%R by (apply IZR_le; lia).
  pose proof (bpow_pos E). nra.
Qed.

(** The value of a positive float as an integer bound. *)
Lemma value_le_1 (M : positive) (E : Z) :
  (IZR (Zpos M) * bpow E <= 1)%R -> E <= 0 /\ Zpos M <= 2 ^ (- E).
Proof.
  intros H.
  assert (HM : (1 <= IZR (Zpos M))%R) by (apply IZR_le; lia).
  pose proof (bpow_pos E) as HE.
  assert (E <= 0).
  { destruct (Z_le_gt_dec E 0) as [|Hgt]; [assumption|exfalso].
    assert (bpow 1 <= bpow E)%R by (apply bpow_le; lia).
    unfold bpow at 1 in H0. simpl powerRZ in H0. nra. }
  split; [assumption|].
  apply le_IZR. rewrite <- bpow_IZR by lia.
  pose proof (bpow_add E (- E)) as Ha. replace (E + - E) with 0 in Ha by lia.
  unfold bpow at 1 in Ha. simpl powerRZ in Ha.
  pose proof (bpow_pos (- E)). nra.
Qed.

Lemma truediv_le_1 (a b : positive) :
  (a <= b)%positive ->
  truediv (Zpos a) (Zpos b) = S754_zero false \/
  exists (M : positive) (E : Z),
    truediv (Zpos a) (Zpos b) = S754_finite false M E /\
    (IZR (Zpos M) * bpow E <= 1)%R.
Proof.
  intros Hab. unfold truediv, exact_int, SFdiv.
  rewrite SFdiv_core_exact. cbn [xorb].
  set (s := div_scale (Zpos a) (Zpos b)).
  assert (Hs : 0 <= s) by (unfold s, div_scale; lia).
  assert (H2s : 0 < 2 ^ s) by (apply Z.pow_pos_nonneg; lia).
  pose proof (Z.div_mod (Zpos a * 2 ^ s) (Zpos b) ltac:(lia)) as Hdm.
  pose proof (Z.mod_pos_bound (Zpos a * 2 ^ s) (Zpos b) ltac:(lia)) as Hr.
  set (q := Zpos a * 2 ^ s / Zpos b) in *.
  set (r := (Zpos a * 2 ^ s) mod Zpos b) in *.
  assert (Hq : 0 <= q <= 2 ^ s) by nia.
  assert (Hdig : Zdigits2 q <= s + 1).
  { apply Zdigits2_le; [lia|]. replace (s + 1) with (Z.succ s) by lia.
    rewrite Z.pow_succ_r by lia. lia. }
  assert (Hsh : - s + shift_of q (- s) <= 0).
  { unfold shift_of. rewrite fexp_eq. lia. }
  destruct (binary_round_aux_le q (- s) (new_location (Zpos b) r) r (Zpos b) 1 0)
    as (M1 & HM1 & Heq).
  - lia.
  - apply new_location_frac. exact Hr.
  - lia.
  - exact Hsh.
  - replace (0 - - s) with s by lia. nia.
  - rewrite Heq.
    destruct (pack_le_value M1 (- s + shift_of q (- s)) 1 0 HM1 Hsh) as [Hz | H].
    + unfold bpow. simpl powerRZ. pose proof (bpow_pos (emax - prec + 1)).
      assert (bpow 1 <= bpow (emax - prec + 1))%R by (apply bpow_le; unfold emax, prec; lia).
      unfold bpow at 1 in H0. simpl powerRZ in H0. change (powerRZ 2) with bpow. lra.
    + now left.
    + right. destruct H as (M & E & Hp & Hv). exists M, E. split; [exact Hp|].
      unfold bpow at 2 in Hv. simpl powerRZ in Hv. lra.
Qed.

(** [float(100)] is exact: [25 * 2^48] at exponent [-46]. *)
Lemma of_int_100 : of_int 100 = S754_finite false 7036874417766400 (-46).
Proof. reflexivity. Qed.

Lemma bpow_7 : bpow 7 = 128%R.
Proof. unfold bpow. simpl powerRZ. lra. Qed.

Lemma bpow_2 : bpow 2 = 4%R.
Proof. unfold bpow. simpl powerRZ. lra. Qed.

Lemma mul_100_le (M : positive) (E : Z) :
  (IZR (Zpos M) * bpow E <= 1)%R ->
  mul_int (S754_finite false M E) 100 = S754_zero false \/
  exists (M' : positive) (E' : Z),
    mul_int (S754_finite false M E) 100 = S754_finite false M' E' /\
    (IZR (Zpos M') * bpow E' <= 100)%R.
Proof.
  intros Hv. apply value_le_1 in Hv. destruct Hv as [HE HM].
  unfold mul_int. rewrite of_int_100. cbn [SFmul xorb].
  rewrite Pos2Z.inj_mul.
  set (m := Zpos M * 7036874417766400).
  set (e := E + -46).
  assert (H2E : 0 < 2 ^ (- E)) by (apply Z.pow_pos_nonneg; lia).
  assert (Hm : 0 < m <= 7036874417766400 * 2 ^ (- E)) by (unfold m; nia).
  assert (Hpow : 2 ^ (55 - e) = 2 ^ 101 * 2 ^ (- E)).
  { rewrite <- Z.pow_add_r by lia. f_equal. unfold e. lia. }
  assert (Hdig : Zdigits2 m <= 55 - e).
  { apply Zdigits2_le; [unfold e; lia|]. rewrite Hpow.
    change (2 ^ 101) with 2535301200456458802993406410752. nia. }
  assert (Hsh : e + shift_of m e <= 2).
  { unfold shift_of. rewrite fexp_eq. unfold e in *. lia. }
  destruct (binary_round_aux_le m e loc_Exact 0 1 25 2) as (M1 & HM1 & Heq).
  - lia.
  - split; [lia | reflexivity].
  - lia.
  - exact Hsh.
  - replace (2 - e) with (48 + - E) by (unfold e; lia).
    rewrite Z.pow_add_r by lia. change (2 ^ 48) with 281474976710656. nia.
  - rewrite Heq.
    destruct (pack_le_value M1 (e + shift_of m e) 25 2 HM1 Hsh) as [Hz | H].
    + rewrite bpow_2.
      assert (bpow 7 <= bpow (emax - prec + 1))%R by (apply bpow_le; unfold emax, prec; lia).
      rewrite bpow_7 in H. lra.
    + now left.
    + right. destruct H as (M' & E' & Hp & Hv). exists M', E'. split; [exact Hp|].
      rewrite bpow_2 in Hv. lra.
Qed.

Lemma trunc_pos_nonneg (M : positive) (E : Z) : 0 <= trunc_pos M E.
Proof.
  unfold trunc_pos. destruct E as [|p|p].
  - lia.
  - pose proof (Z.pow_pos_nonneg 2 (Z.pos p)). nia.
  - apply Z.div_pos; [lia | apply Z.pow_pos_nonneg; lia].
Qed.

End ValueFacts.

Module RatioFacts.
Import PyFloat Rounding ValueFacts Verify.

(** [int((v / t) * 100)] never raises and lies in [0, 100]. *)
Lemma ratio_percent_range (v t : Z) :
  0 <= v <= t -> 0 < t ->
  exists c : Z, ratio_percent v t = Some c /\ 0 <= c <= 100.
Proof.
  intros Hv Ht. unfold ratio_percent.
  destruct t as [|b|b]; try lia.
  destruct v as [|a|a]; try lia.
  - exists 0. split; [reflexivity | lia].
  - destruct (truediv_le_1 a b ltac:(lia)) as [-> | (M & E & -> & Hx)].
    + exists 0. split; [reflexivity | lia].
    + destruct (mul_100_le M E Hx) as [-> | (M' & E' & -> & Hy)].
      * exists 0. split; [reflexivity | lia].
      * exists (trunc_pos M' E'). split; [reflexivity|].
        split; [apply trunc_pos_nonneg|].
        apply le_IZR. pose proof (trunc_pos_value M' E'). lra.
Qed.

End RatioFacts.

(** ** The normal range: relative error of one rounding *)
Module NormalFacts.
Import PyFloat Rounding RoundingFacts ValueFacts.


Lemma u53_pos : (0 < u53)%R.
Proof. unfold u53. apply Rinv_0_lt_compat. apply IZR_lt. reflexivity. Qed.

Lemma shift_of_normal (m e n : Z) :
  0 <= n -> 2 ^ (52 + n) <= m < 2 ^ (53 + n) -> -1074 <= e + n ->
  shift_of m e = n.
Proof.
  intros Hn Hm He. unfold shift_of. rewrite fexp_eq.
  rewrite (Zdigits2_eq m (53 + n)); [lia | | lia].
  replace (53 + n - 1) with (52 + n) by lia. exact Hm.
Qed.

(** In the normal range a rounding keeps 53 bits: the result is
    finite, and off the exact value by at most [u53] of itself. *)
Lemma binary_round_aux_normal (m e : Z) (l : location) (num den n : Z) :
  0 <= n ->
  2 ^ (52 + n) <= m < 2 ^ (53 + n) ->
  -1074 <= e + n -> e + n + 1 <= 971 ->
  loc_frac l num den ->
  exists (M : positive) (E : Z),
    binary_round_aux prec emax false m e l = S754_finite false M E /\
    2 ^ 52 <= Zpos M < 2 ^ 53 /\
    e + n <= E <= e + n + 1 /\
    (Rabs (IZR den * (IZR (Zpos M) * bpow E) - IZR (den * m + num) * bpow e)
     <= IZR den * (IZR (Zpos M) * bpow E) * u53)%R.
Proof.
  intros Hn Hm He1 He2 Hl.
  pose proof (shift_of_normal m e n Hn Hm He1) as Hsh.
  destruct (binary_round_aux_frac m e l num den ltac:(pose proof (Z.pow_pos_nonneg 2 (52 + n)); lia) Hl)
    as (M1 & Hc & _ & Hb & Heq).
  rewrite Hsh in *.
  assert (H2n : 0 < 2 ^ n) by (apply Z.pow_pos_nonneg; lia).
  assert (Hq : 2 ^ 52 <= m / 2 ^ n < 2 ^ 53).
  { rewrite !Z.pow_add_r in Hm by lia. split.
    - apply Z.div_le_lower_bound; lia.
    - apply Z.div_lt_upper_bound; lia. }
  assert (HM1 : 2 ^ 52 <= M1 <= 2 ^ 53) by lia.
  destruct Hl as [Hnd _].
  (* the value of the packed result is M1 * 2^(e+n) *)
  assert (Hpack : exists (M : positive) (E : Z),
             pack M1 (e + n) = S754_finite false M E /\
             2 ^ 52 <= Zpos M < 2 ^ 53 /\ e + n <= E <= e + n + 1 /\
             (IZR (Zpos M) * bpow E = IZR M1 * bpow (e + n))%R).
  { destruct (Z.eq_dec M1 (2 ^ 53)) as [Hcarry | Hno].
    - assert (Hs1 : shift_of M1 (e + n) = 1).
      { replace (e + n) with (e + n - 1 + 1) by lia.
        rewrite (shift_of_normal M1 (e + n - 1 + 1) 1); [reflexivity | lia | | lia].
        rewrite Hcarry. change (52 + 1) with 53. change (53 + 1) with 54.
        split; [lia | reflexivity]. }
      exists (4503599627370496)%positive, (e + n + 1).
      unfold pack. rewrite Hs1, Hcarry.
      change (2 ^ 53 / 2 ^ 1) with (Zpos 4503599627370496).
      destruct (Z.leb_spec (e + n + 1) (emax - prec)) as [|Hgt];
        [|unfold emax, prec in Hgt; lia].
      split; [reflexivity|]. split; [split; reflexivity|]. split; [lia|].
      rewrite bpow_shift by lia.
      change (IZR (2 ^ 1)) with 2%R.
      change (IZR (2 ^ 53)) with (IZR (2 * 4503599627370496)).
      rewrite mult_IZR. ring.
    - assert (Hs0 : shift_of M1 (e + n) = 0).
      { replace (e + n) with (e + n + 0) at 1 by lia.
        apply shift_of_normal; [lia | | lia].
        rewrite !Z.add_0_r. lia. }
      destruct M1 as [|M|M]; try lia.
      exists M, (e + n). unfold pack. rewrite Hs0, Z.pow_0_r, Z.div_1_r, Z.add_0_r.
      destruct (Z.leb_spec (e + n) (emax - prec)) as [|Hgt];
        [|unfold emax, prec in Hgt; lia].
      split; [reflexivity|]. split; [lia|]. split; [lia|]. reflexivity. }
  destruct Hpack as (M & E & Hp & HMb & HE & Hval).
  exists M, E. rewrite Heq. split; [exact Hp|]. split; [exact HMb|]. split; [exact HE|].
  rewrite Hval, bpow_shift by lia.
  pose proof (bpow_pos e) as Hbe.
  set (D := (2 ^ n * den * M1 - (den * m + num))) in *.
  assert (HD : (IZR den * (IZR M1 * (bpow e * IZR (2 ^ n)))
                - IZR (den * m + num) * bpow e = IZR D * bpow e)%R).
  { unfold D. rewrite minus_IZR, !mult_IZR. ring. }
  rewrite HD.
  assert (Hhalf : (Rabs (IZR D) <= IZR (2 ^ n * den) / 2)%R).
  { apply Rabs_le. destruct Hb as [Hb1 Hb2].
    apply IZR_le in Hb1, Hb2. rewrite opp_IZR in Hb1.
    rewrite (mult_IZR 2 D) in Hb1, Hb2. lra. }
  rewrite Rabs_mult, (Rabs_pos_eq (bpow e)) by lra.
  assert (Hu : (IZR (2 ^ n * den) / 2 <= IZR den * (IZR M1 * IZR (2 ^ n)) * u53)%R).
  { unfold u53. rewrite mult_IZR.
    assert (H52 : (IZR (2 ^ 52) <= IZR M1)%R) by (apply IZR_le; lia).
    assert (Hden : (0 < IZR den)%R) by (apply IZR_lt; lia).
    assert (Hn' : (0 < IZR (2 ^ n))%R) by (apply IZR_lt; lia).
    change (IZR (2 ^ 53)) with (IZR (2 * 2 ^ 52)). rewrite mult_IZR.
    assert (H52p : (0 < IZR (2 ^ 52))%R) by (apply IZR_lt; reflexivity).
    replace (IZR den * (IZR M1 * IZR (2 ^ n)) * / (2 * IZR (2 ^ 52)))%R
      with (IZR (2 ^ n) * IZR den / 2 * (IZR M1 / IZR (2 ^ 52)))%R
      by (field; lra).
    assert (1 <= IZR M1 / IZR (2 ^ 52))%R.
    { apply (Rmult_le_reg_r (IZR (2 ^ 52))); [lra|].
      unfold Rdiv. rewrite Rmult_assoc, Rinv_l by lra. lra. }
    set (t := (IZR M1 / IZR (2 ^ 52))%R) in *.
    assert (0 < IZR (2 ^ n) * IZR den)%R by (apply Rmult_lt_0_compat; assumption).
    set (A := (IZR (2 ^ n) * IZR den)%R) in *.
    nra. }
  replace (IZR den * (IZR M1 * (bpow e * IZR (2 ^ n))) * u53)%R
    with (IZR den * (IZR M1 * IZR (2 ^ n)) * u53 * bpow e)%R by ring.
  nra.
Qed.

Lemma div_scale_normal (a b : Z) :
  0 < a <= b -> b < 2 ^ 1000 ->
  div_scale a b = 53 + Zdigits2 b - Zdigits2 a /\
  1 <= Zdigits2 a <= Zdigits2 b /\ Zdigits2 b <= 1000.
Proof.
  intros Hab Hb.
  pose proof (Zdigits2_bounds a ltac:(lia)) as Ha2.
  pose proof (Zdigits2_bounds b ltac:(lia)) as Hb2.
  assert (H1 : 1 <= Zdigits2 a) by (apply Zdigits2_ge; [lia | simpl; lia]).
  assert (H2 : Zdigits2 a <= Zdigits2 b).
  { apply Zdigits2_le; [apply Zdigits2_nonneg | lia]. }
  assert (H3 : Zdigits2 b <= 1000) by (apply Zdigits2_le; lia).
  unfold div_scale. rewrite fexp_eq. lia.
Qed.

(** The quotient of two integers in the normal range. *)
Lemma truediv_normal (a b : positive) :
  (a <= b)%positive -> Zpos b < 2 ^ 1000 ->
  exists (M : positive) (E : Z),
    truediv (Zpos a) (Zpos b) = S754_finite false M E /\
    2 ^ 52 <= Zpos M < 2 ^ 53 /\
    -1053 <= E <= 0 /\
    (Rabs (IZR (Zpos b) * (IZR (Zpos M) * bpow E) - IZR (Zpos a))
     <= IZR (Zpos b) * (IZR (Zpos M) * bpow E) * u53)%R.
Proof.
  intros Hab Hb. unfold truediv, exact_int, SFdiv.
  rewrite SFdiv_core_exact. cbn [xorb].
  destruct (div_scale_normal (Zpos a) (Zpos b) ltac:(lia) Hb) as (Hs & Hd & Hd2).
  set (s := div_scale (Zpos a) (Zpos b)) in *.
  set (d1 := Zdigits2 (Zpos a)) in *. set (d2 := Zdigits2 (Zpos b)) in *.
  pose proof (Zdigits2_bounds (Zpos a) ltac:(lia)) as Ha2. fold d1 in Ha2.
  pose proof (Zdigits2_bounds (Zpos b) ltac:(lia)) as Hb2. fold d2 in Hb2.
  assert (H2s : 0 < 2 ^ s) by (apply Z.pow_pos_nonneg; lia).
  assert (Hlow : 2 ^ (52 + d2) <= Zpos a * 2 ^ s).
  { replace (52 + d2) with ((d1 - 1) + s) by lia. rewrite Z.pow_add_r by lia. nia. }
  assert (Hhigh : Zpos a * 2 ^ s < 2 ^ (53 + d2)).
  { replace (53 + d2) with (d1 + s) by lia. rewrite Z.pow_add_r by lia. nia. }
  assert (Hb52 : Zpos b * 2 ^ 52 <= Zpos a * 2 ^ s).
  { rewrite Z.pow_add_r in Hlow by lia. nia. }
  assert (Hb54 : Zpos a * 2 ^ s < Zpos b * 2 ^ 54).
  { replace (53 + d2) with (54 + (d2 - 1)) in Hhigh by lia.
    rewrite Z.pow_add_r in Hhigh by lia. nia. }
  pose proof (Z.div_mod (Zpos a * 2 ^ s) (Zpos b) ltac:(lia)) as Hdm.
  pose proof (Z.mod_pos_bound (Zpos a * 2 ^ s) (Zpos b) ltac:(lia)) as Hr.
  assert (Hq : 2 ^ 52 <= Zpos a * 2 ^ s / Zpos b < 2 ^ 54).
  { split; [apply Z.div_le_lower_bound | apply Z.div_lt_upper_bound]; lia. }
  set (q := Zpos a * 2 ^ s / Zpos b) in *.
  set (r := (Zpos a * 2 ^ s) mod Zpos b) in *.
  assert (Hn : exists n, 0 <= n <= 1 /\ 2 ^ (52 + n) <= q < 2 ^ (53 + n)).
  { destruct (Z_lt_le_dec q (2 ^ 53)).
    - exists 0. split; [lia|]. rewrite !Z.add_0_r. lia.
    - exists 1. split; [lia|]. change (52 + 1) with 53. change (53 + 1) with 54. lia. }
  destruct Hn as (n & Hn & Hqn).
  destruct (binary_round_aux_normal q (- s) (new_location (Zpos b) r) r (Zpos b) n)
    as (M & E & Heq & HM & HE & Herr); try lia.
  { apply new_location_frac. exact Hr. }
  exists M, E. split; [exact Heq|]. split; [exact HM|]. split; [lia|].
  replace (IZR (Zpos a)) with (IZR (Zpos b * q + r) * bpow (- s))%R; [exact Herr|].
  rewrite <- Hdm, mult_IZR, Rmult_assoc, (Rmult_comm (IZR (2 ^ s))), bpow_opp by lia.
  ring.
Qed.

(** The product with [100.0] in the normal range. *)
Lemma mul_100_normal (M : positive) (E : Z) :
  2 ^ 52 <= Zpos M < 2 ^ 53 -> -1080 <= E <= 900 ->
  exists (M' : positive) (E' : Z),
    mul_int (S754_finite false M E) 100 = S754_finite false M' E' /\
    (Rabs (IZR (Zpos M') * bpow E' - 100 * (IZR (Zpos M) * bpow E))
     <= IZR (Zpos M') * bpow E' * u53)%R.
Proof.
  intros HM HE. unfold mul_int. rewrite of_int_100. cbn [SFmul xorb].
  rewrite Pos2Z.inj_mul.
  set (m := Zpos M * 7036874417766400).
  assert (Hm : 2 ^ 104 <= m < 2 ^ 106).
  { unfold m. change (2 ^ 52) with 4503599627370496 in HM.
    change (2 ^ 53) with 9007199254740992 in HM.
    change (2 ^ 104) with 20282409603651670423947251286016.
    change (2 ^ 106) with 81129638414606681695789005144064. lia. }
  assert (Hn : exists n, 52 <= n <= 53 /\ 2 ^ (52 + n) <= m < 2 ^ (53 + n)).
  { destruct (Z_lt_le_dec m (2 ^ 105)).
    - exists 52. split; [lia|]. change (52 + 52) with 104. change (53 + 52) with 105. lia.
    - exists 53. split; [lia|]. change (52 + 53) with 105. change (53 + 53) with 106. lia. }
  destruct Hn as (n & Hn & Hmn).
  destruct (binary_round_aux_normal m (E + -46) loc_Exact 0 1 n)
    as (M' & E' & Heq & _ & _ & Herr); try lia.
  { split; [lia | reflexivity]. }
  exists M', E'. split; [exact Heq|].
  rewrite Z.mul_1_l, Z.add_0_r, !Rmult_1_l in Herr.
  replace (100 * (IZR (Zpos M) * bpow E))%R with (IZR m * bpow (E + -46))%R;
    [exact Herr|].
  unfold m. rewrite mult_IZR, bpow_add.
  pose proof (bpow_opp 46 ltac:(lia)) as H46.
  change (IZR (2 ^ 46)) with 70368744177664%R in H46.
  change (- (46)) with (-46) in H46.
  replace (IZR 7036874417766400) with (100 * 70368744177664)%R by lra.
  transitivity (100 * (IZR (Zpos M) * bpow E) * (bpow (-46) * 70368744177664))%R;
    [ring | rewrite H46; ring].
Qed.

End NormalFacts.

Module FloorFacts.
Import PyFloat Rounding ValueFacts NormalFacts Verify.

Lemma Rabs_le_inv (x y : R) : (Rabs x <= y)%R -> (- y <= x <= y)%R.
Proof. unfold Rabs. destruct (Rcase_abs x); lra. Qed.

(** The arithmetic at the heart of the truncation: two roundings of
    relative size [u53] cannot carry [int] across a multiple of
    [1 / b] as long as [b] stays below [2^45]. *)
Lemma percent_between (a b c : Z) (X Y : R) :
  0 < a -> a < b -> b < 2 ^ 45 -> 0 <= c <= 100 ->
  (0 < X)%R -> (0 < Y)%R ->
  (Rabs (IZR b * X - IZR a) <= IZR b * X * u53)%R ->
  (Rabs (Y - 100 * X) <= Y * u53)%R ->
  (IZR c <= Y < IZR c + 1)%R ->
  c * b <= 100 * a /\ 100 * a < (c + 1) * b + 1.
Proof.
  intros Ha Hab Hb Hc HX HY H1 H2 H3.
  apply Rabs_le_inv in H1. apply Rabs_le_inv in H2.
  pose proof u53_pos as Hu.
  assert (Hu' : (u53 * IZR (2 ^ 53) = 1)%R).
  { unfold u53. apply Rinv_l. apply not_0_IZR. discriminate. }
  change (IZR (2 ^ 53)) with 9007199254740992%R in Hu'.
  assert (Hbr : (1 <= IZR b < 35184372088832)%R).
  { split; [apply IZR_le; lia | apply IZR_lt; exact Hb]. }
  assert (Har : (1 <= IZR a)%R) by (apply IZR_le; lia).
  assert (Hcr : (0 <= IZR c <= 100)%R) by (split; apply IZR_le; lia).
  set (B := IZR b) in *. set (A := IZR a) in *. set (C := IZR c) in *.
  assert (C * B < 100 * A + 1)%R.
  { (* 100 A >= B * 100 X (1-u) >= B Y (1-u)^2 >= B C (1-u)^2 *)
    assert (B * C * (1 - u53) * (1 - u53) <= 100 * A)%R.
    { assert (Y * (1 - u53) <= 100 * X)%R by lra.
      assert (C * (1 - u53) <= 100 * X)%R by nra.
      assert (B * (C * (1 - u53)) <= B * (100 * X))%R by (apply Rmult_le_compat_l; lra).
      assert (B * X * (1 - u53) <= A)%R by lra.
      assert (0 <= 1 - u53)%R by lra.
      nra. }
    assert (B * C * (2 * u53) < 1)%R.
    { assert (B * C <= 35184372088832 * 100)%R by (apply Rmult_le_compat; lra).
      assert (0 <= B * C)%R by (apply Rmult_le_pos; lra).
      set (P := (B * C)%R) in *.
      assert (P * (2 * u53) <= 35184372088832 * 100 * (2 * u53))%R
        by (apply Rmult_le_compat_r; lra).
      lra. }
    nra. }
  assert (100 * A < (C + 1) * B + 1)%R.
  { assert (100 * A <= B * (C + 1) * (1 + u53) * (1 + u53))%R.
    { assert (100 * X <= Y * (1 + u53))%R by lra.
      assert (100 * X <= (C + 1) * (1 + u53))%R by nra.
      assert (A <= B * X * (1 + u53))%R by lra.
      assert (B * (100 * X) <= B * ((C + 1) * (1 + u53)))%R
        by (apply Rmult_le_compat_l; lra).
      nra. }
    assert (B * (C + 1) * (2 * u53 + u53 * u53) < 1)%R.
    { assert (B * (C + 1) <= 35184372088832 * 101)%R by (apply Rmult_le_compat; lra).
      assert (0 <= B * (C + 1))%R by (apply Rmult_le_pos; lra).
      assert (u53 * u53 <= u53 * / 1000)%R by (apply Rmult_le_compat_l; lra).
      set (P := (B * (C + 1))%R) in *.
      assert (P * (2 * u53 + u53 * u53) <= P * (2 * u53 + u53 * / 1000))%R
        by (apply Rmult_le_compat_l; lra).
      assert (P * (2 * u53 + u53 * / 1000)
              <= 35184372088832 * 101 * (2 * u53 + u53 * / 1000))%R
        by (apply Rmult_le_compat_r; lra).
      lra. }
    nra. }
  split.
  - apply le_IZR. rewrite !mult_IZR. fold A B C.
    destruct (Z_le_gt_dec (c * b) (100 * a)) as [Hle | Hgt].
    + apply IZR_le in Hle. rewrite !mult_IZR in Hle. exact Hle.
    + exfalso. assert (100 * a + 1 <= c * b) by lia.
      apply IZR_le in H4. rewrite plus_IZR, !mult_IZR in H4. fold A B C in H4. lra.
  - apply lt_IZR. rewrite plus_IZR, !mult_IZR, plus_IZR. fold A B C. exact H0.
Qed.

(** [int((v / t) * 100)] against the exact quotient: never above
    its integer part, at most one below, and equal to it unless the
    quotient is a whole number. *)
Lemma ratio_percent_floor (v t : Z) :
  0 < v < t -> t < 2 ^ 45 ->
  exists c : Z,
    ratio_percent v t = Some c /\
    100 * v / t - 1 <= c <= 100 * v / t /\
    ((100 * v) mod t <> 0 -> c = 100 * v / t).
Proof.
  intros Hv Ht.
  destruct (RatioFacts.ratio_percent_range v t ltac:(lia) ltac:(lia)) as (c & Hc & Hrange).
  exists c. split; [exact Hc|].
  unfold ratio_percent in Hc.
  destruct t as [|b|b]; try lia. destruct v as [|a|a]; try lia.
  destruct (truediv_normal a b ltac:(lia)) as (M & E & Hx & HM & HE & Herr).
  { eapply Z.lt_trans; [exact Ht|]. apply Z.pow_lt_mono_r; lia. }
  rewrite Hx in Hc.
  destruct (mul_100_normal M E HM ltac:(lia)) as (M' & E' & Hy & Herr').
  rewrite Hy in Hc. cbn [to_int cond_Zopp] in Hc. injection Hc as Hc.
  pose proof (trunc_pos_value M' E') as Htr. rewrite Hc in Htr.
  assert (HX : (0 < IZR (Zpos M) * bpow E)%R).
  { apply Rmult_lt_0_compat; [apply IZR_lt; lia | apply bpow_pos]. }
  assert (HY : (0 < IZR (Zpos M') * bpow E')%R).
  { apply Rmult_lt_0_compat; [apply IZR_lt; lia | apply bpow_pos]. }
  destruct (percent_between (Zpos a) (Zpos b) c _ _
              ltac:(lia) ltac:(lia) Ht Hrange HX HY Herr Herr' Htr) as [Hle Hlt].
  assert (Hup : c <= 100 * Zpos a / Zpos b) by (apply Z.div_le_lower_bound; lia).
  split; [split; [|exact Hup]|].
  - assert (100 * Zpos a / Zpos b < c + 2) by (apply Z.div_lt_upper_bound; lia).
    lia.
  - intros Hmod.
    assert (100 * Zpos a <> (c + 1) * Zpos b).
    { intros Heq. apply Hmod. rewrite Heq. apply Z.mod_mul. lia. }
    assert (100 * Zpos a / Zpos b < c + 1) by (apply Z.div_lt_upper_bound; lia).
    lia.
Qed.

End FloorFacts.

(** ** The quotient of two ints and the quotient of two doubles

    Below [2^53] both operands convert exactly, and [a / b] is the
    IEEE quotient of [float(a)] and [float(b)]. *)
Module DoubleFacts.
Import PyFloat Rounding RoundingFacts ValueFacts NormalFacts.

Lemma iter_xO (k n : positive) : Zpos (Pos.iter xO n k) = Zpos n * 2 ^ Zpos k.
Proof.
  induction k as [|k IH] using Pos.peano_ind.
  - cbn [Pos.iter]. rewrite Pos2Z.inj_xO. change (2 ^ 1) with 2. lia.
  - rewrite Pos.iter_succ, Pos2Z.inj_xO, IH, Pos2Z.inj_succ, Z.pow_succ_r by lia. lia.
Qed.

(** A mantissa of 53 bits at an exponent of the format is kept as it
    is. *)
Lemma binary_round_aux_exact (m : positive) (e : Z) :
  2 ^ 52 <= Zpos m < 2 ^ 53 -> -1074 <= e <= 971 ->
  binary_round_aux prec emax false (Zpos m) e loc_Exact = S754_finite false m e.
Proof.
  intros Hm He.
  assert (Hx : loc_frac loc_Exact 0 1) by (split; [lia | reflexivity]).
  destruct (binary_round_aux_frac (Zpos m) e loc_Exact 0 1 ltac:(lia) Hx)
    as (M1 & _ & Hz & _ & Heq).
  assert (Hs : shift_of (Zpos m) e = 0).
  { replace e with (e + 0) at 1 by lia. apply shift_of_normal; [lia | | lia].
    rewrite !Z.add_0_r. exact Hm. }
  rewrite Hs, Z.pow_0_r, Z.mod_1_r, Z.div_1_r, Z.add_0_r in *.
  rewrite Heq, (Hz eq_refl). unfold pack. rewrite Hs, Z.pow_0_r, Z.div_1_r, Z.add_0_r.
  destruct (Z.leb_spec e (emax - prec)) as [|Hgt]; [reflexivity|].
  unfold emax, prec in Hgt. lia.
Qed.

(** [float(n)] for [0 < n < 2^53]: the bits of [n], moved up to fill
    the 53 bits of the mantissa. *)
Lemma of_int_exact (n : positive) :
  Zpos n < 2 ^ 53 ->
  exists m : positive,
    of_int (Zpos n) = S754_finite false m (Zdigits2 (Zpos n) - 53) /\
    Zpos m = Zpos n * 2 ^ (53 - Zdigits2 (Zpos n)) /\
    2 ^ 52 <= Zpos m < 2 ^ 53.
Proof.
  intros Hn.
  pose proof (Zdigits2_bounds (Zpos n) ltac:(lia)) as Hd.
  assert (Hd1 : 1 <= Zdigits2 (Zpos n)) by (apply Zdigits2_ge; [lia | simpl; lia]).
  assert (Hd2 : Zdigits2 (Zpos n) <= 53) by (apply Zdigits2_le; lia).
  unfold of_int, binary_normalize, binary_round, shl_align.
  rewrite fexp_eq. change (Zpos (digits2_pos n)) with (Zdigits2 (Zpos n)).
  set (d := Zdigits2 (Zpos n)) in *.
  replace (Z.max (d + 0 - 53) (-1074)) with (d - 53) by lia.
  assert (Hrange : forall m : positive,
             Zpos m = Zpos n * 2 ^ (53 - d) -> 2 ^ 52 <= Zpos m < 2 ^ 53).
  { intros m ->.
    assert (H52 : 2 ^ 52 = 2 ^ (d - 1) * 2 ^ (53 - d))
      by (rewrite <- Z.pow_add_r by lia; f_equal; lia).
    assert (H53 : 2 ^ 53 = 2 ^ d * 2 ^ (53 - d))
      by (rewrite <- Z.pow_add_r by lia; f_equal; lia).
    assert (0 < 2 ^ (53 - d)) by (apply Z.pow_pos_nonneg; lia).
    rewrite H52, H53. split.
    - apply Z.mul_le_mono_nonneg_r; lia.
    - apply Z.mul_lt_mono_pos_r; lia. }
  destruct (d - 53 - 0) as [|k|k] eqn:Ek; try lia.
  - assert (Hm : Zpos n = Zpos n * 2 ^ (53 - d))
      by (replace (53 - d) with 0 by lia; lia).
    exists n. split; [|split; [exact Hm | apply Hrange, Hm]].
    replace (d - 53) with 0 by lia.
    apply binary_round_aux_exact; [|lia].
    replace (53 - d) with 0 in Hrange by lia. apply Hrange. lia.
  - assert (Hm : Zpos (Pos.iter xO n k) = Zpos n * 2 ^ (53 - d))
      by (rewrite iter_xO; f_equal; f_equal; lia).
    exists (Pos.iter xO n k). split; [|split; [exact Hm | apply Hrange, Hm]].
    apply binary_round_aux_exact; [apply Hrange, Hm | lia].
Qed.

Lemma SFdiv_core_general (m1 m2 : positive) (e1 e2 : Z) :
  let e' := Z.min (fexp prec emax (Zdigits2 (Zpos m1) + e1 - (Zdigits2 (Zpos m2) + e2)))
                  (e1 - e2) in
  SFdiv_core_binary prec emax (Zpos m1) e1 (Zpos m2) e2 =
  (Zpos m1 * 2 ^ (e1 - e2 - e') / Zpos m2, e',
   new_location (Zpos m2) ((Zpos m1 * 2 ^ (e1 - e2 - e')) mod Zpos m2)).
Proof.
  intros e'. unfold SFdiv_core_binary. fold e'.
  assert (He : 0 <= e1 - e2 - e') by (unfold e'; lia).
  assert (Hm : match e1 - e2 - e' with
               | Z0 => Zpos m1
               | Zpos _ => Z.shiftl (Zpos m1) (e1 - e2 - e')
               | Zneg _ => 0
               end = Zpos m1 * 2 ^ (e1 - e2 - e')).
  { remember (e1 - e2 - e') as s eqn:Es. destruct s as [|p|p]; try lia.
    apply Z.shiftl_mul_pow2. lia. }
  rewrite Hm. unfold Z.div, Z.modulo.
  destruct (Z.div_eucl (Zpos m1 * 2 ^ (e1 - e2 - e')) (Zpos m2)) as [q r].
  reflexivity.
Qed.

Lemma loc_frac_unique (l1 l2 : location) (num den : Z) :
  loc_frac l1 num den -> loc_frac l2 num den -> l1 = l2.
Proof. intros [_ ->] [_ ->]. reflexivity. Qed.

Lemma loc_frac_scale (l : location) (num den k : Z) :
  0 < k -> loc_frac l num den -> loc_frac l (num * k) (den * k).
Proof.
  intros Hk Hl. apply loc_frac_inv in Hl. destruct Hl as [Hnd Hl].
  apply loc_frac_intro; [nia|]. destruct l as [|[]]; nia.
Qed.

(** On operands below [2^53], [a / b] is the division of the two
    doubles. *)
Lemma truediv_is_double_division (a b : Z) :
  0 < a < 2 ^ 53 -> 0 < b < 2 ^ 53 ->
  truediv a b = SFdiv prec emax (of_int a) (of_int b).
Proof.
  intros Ha Hb. destruct a as [|a|a]; try lia. destruct b as [|b|b]; try lia.
  destruct (of_int_exact a ltac:(lia)) as (ma & -> & Hma & Hra).
  destruct (of_int_exact b ltac:(lia)) as (mb & -> & Hmb & Hrb).
  unfold truediv, exact_int, SFdiv.
  rewrite SFdiv_core_exact, SFdiv_core_general. cbn [xorb].
  rewrite (Zdigits2_eq (Zpos ma) 53), (Zdigits2_eq (Zpos mb) 53) by (change (53 - 1) with 52; lia).
  set (d1 := Zdigits2 (Zpos a)) in *. set (d2 := Zdigits2 (Zpos b)) in *.
  assert (Hd1 : 1 <= d1 <= 53).
  { split; [apply Zdigits2_ge; [lia | simpl; lia] | apply Zdigits2_le; lia]. }
  assert (Hd2 : 1 <= d2 <= 53).
  { split; [apply Zdigits2_ge; [lia | simpl; lia] | apply Zdigits2_le; lia]. }
  assert (Hs : div_scale (Zpos a) (Zpos b) = 53 + d2 - d1).
  { unfold div_scale. fold d1 d2. rewrite fexp_eq. lia. }
  rewrite Hs, fexp_eq.
  replace (Z.min (Z.max (53 + (d1 - 53) - (53 + (d2 - 53)) - 53) (-1074))
                 (d1 - 53 - (d2 - 53))) with (- (53 + d2 - d1)) by lia.
  replace (d1 - 53 - (d2 - 53) - - (53 + d2 - d1)) with 53 by lia.
  set (s := 53 + d2 - d1) in *.
  set (K := 2 ^ (53 - d2)).
  assert (HK : 0 < K) by (apply Z.pow_pos_nonneg; lia).
  assert (Hnum : Zpos ma * 2 ^ 53 = Zpos a * 2 ^ s * K).
  { rewrite Hma. unfold K, s. rewrite <- !Z.mul_assoc, <- !Z.pow_add_r by lia.
    f_equal. f_equal. lia. }
  assert (Hden : Zpos mb = Zpos b * K) by exact Hmb.
  rewrite Hnum, Hden, Z.div_mul_cancel_r, Z.mul_mod_distr_r by lia.
  f_equal.
  pose proof (Z.mod_pos_bound (Zpos a * 2 ^ s) (Zpos b) ltac:(lia)) as Hr.
  apply (loc_frac_unique _ _ ((Zpos a * 2 ^ s) mod Zpos b * K) (Zpos b * K)).
  - apply loc_frac_scale; [exact HK | apply new_location_frac, Hr].
  - apply new_location_frac. nia.
Qed.

End DoubleFacts.

(** ** The percentage on particular counts *)
Module RatioExamples.
Import PyFloat Verify.

(** [int((29 / 100) * 100)] is 28: the double nearest to 0.29 lies
    below it, and the product is truncated. *)
Example twenty_nine_of_hundred : ratio_percent 29 100 = Some 28.
Proof. vm_compute. reflexivity. Qed.

Example one_of_two : ratio_percent 1 2 = Some 50.
Proof. vm_compute. reflexivity. Qed.

Example nothing_of_five : ratio_percent 0 5 = Some 0.
Proof. vm_compute. reflexivity. Qed.

(** With [2^54] markers, one of them unverified, the quotient rounds
    to [1.0]. *)
Example all_but_one_of_two_to_the_54 :
  ratio_percent (2 ^ 54 - 1) (2 ^ 54) = Some 100.
Proof. vm_compute. reflexivity. Qed.

End RatioExamples.

(** ** The report parser *)
Module ParserFacts.
Import Verify.

Lemma count_from_nonneg (sub s : string) (skip : nat) :
  0 <= PyStr.count_from sub s skip.
Proof.
  revert skip. induction s as [|c s IH]; intros skip; cbn [PyStr.count_from].
  - lia.
  - destruct skip as [|k]; [|apply IH].
    destruct (PyStr.startswith sub (String c s)).
    + pose proof (IH (String.length sub - 1)%nat). lia.
    + apply IH.
Qed.

Lemma verified_count_nonneg (r : string) : 0 <= verified_count r.
Proof. apply count_from_nonneg. Qed.

Lemma unverified_count_nonneg (r : string) : 0 <= unverified_count r.
Proof. apply count_from_nonneg. Qed.

(** Parsing never fails, and the confidence is a percentage. *)
Lemma parse_report_total (r : string) :
  exists vd : verdict,
    parse_report r = Some vd /\ 0 <= confidence vd <= 100 /\ report vd = r.
Proof.
  unfold parse_report.
  pose proof (verified_count_nonneg r) as Hv.
  pose proof (unverified_count_nonneg r) as Hu.
  set (v := verified_count r) in *. set (u := unverified_count r) in *.
  assert (Hc : exists c, (if 0 <? v + u then ratio_percent v (v + u) else Some 0) = Some c
                         /\ 0 <= c <= 100).
  { destruct (Z.ltb_spec 0 (v + u)).
    - apply RatioFacts.ratio_percent_range; lia.
    - exists 0. split; [reflexivity | lia]. }
  destruct Hc as (c & -> & Hc).
  destruct ((u =? 0) && (0 <? v)); eexists; (split; [reflexivity|]); cbn; split; (lia || reflexivity).
Qed.

(** The three ways a report is parsed: all claims verified, no claim
    at all, or at least one unverified claim. *)
Lemma parse_report_cases (r : string) :
  total_claims r < 2 ^ 45 ->
  exists vd : verdict,
    parse_report r = Some vd /\ report vd = r /\
    ((unverified_count r = 0 /\ 0 < verified_count r /\
      passed vd = true /\ confidence vd = 100) \/
     (total_claims r = 0 /\
      passed vd = passed_signal r /\ confidence vd = 0) \/
     (0 < unverified_count r /\
      passed vd = passed_signal r /\
      100 * verified_count r / total_claims r - 1 <= confidence vd
        <= 100 * verified_count r / total_claims r /\
      ((100 * verified_count r) mod total_claims r <> 0 ->
       confidence vd = 100 * verified_count r / total_claims r))).
Proof.
  unfold total_claims, parse_report. intros Hb.
  pose proof (verified_count_nonneg r) as Hv.
  pose proof (unverified_count_nonneg r) as Hu.
  set (v := verified_count r) in *. set (u := unverified_count r) in *.
  destruct (Z.eq_dec u 0) as [Hu0 | Hu0].
  - destruct (Z.eq_dec v 0) as [Hv0 | Hv0].
    + rewrite Hu0, Hv0. cbn. eexists. split; [reflexivity|]. split; [reflexivity|].
      right; left. repeat split.
    + destruct (RatioFacts.ratio_percent_range v (v + u)) as (c & Hc & _); try lia.
      destruct (Z.ltb_spec 0 (v + u)); [|lia]. rewrite Hc.
      destruct (Z.eqb_spec u 0); [|lia]. destruct (Z.ltb_spec 0 v); [|lia].
      cbn. eexists. split; [reflexivity|]. split; [reflexivity|].
      left. repeat split; lia.
  - destruct (Z.ltb_spec 0 (v + u)); [|lia].
    destruct (Z.eqb_spec u 0); [lia|]. cbn [andb].
    destruct (Z.eq_dec v 0) as [Hv0 | Hv0].
    + rewrite Hv0. destruct (u) as [|pu|pu] eqn:Eu; try lia.
      cbn. eexists. split; [reflexivity|]. split; [reflexivity|].
      right; right. cbn [confidence passed]. repeat split; try lia.
      all: rewrite ?Z.div_0_l by lia; lia.
    + destruct (FloorFacts.ratio_percent_floor v (v + u)) as (c & Hc & Hfl & Hex); try lia.
      rewrite Hc. eexists. split; [reflexivity|]. split; [reflexivity|].
      right; right. cbn [confidence passed]. repeat split; try lia; exact Hex.
Qed.

(** C2: a report with at least one "status: verified" marker and no
    "status: unverified" marker (counted on the lower-cased text with
    the emphasis marks removed) parses to an accepted verdict with
    confidence 100, whatever else the report says. *)
Theorem all_verified_is_accepted (r : string) :
  0 < verified_count r ->
  unverified_count r = 0 ->
  parse_report r = Some {| passed := true; confidence := 100; report := r |}.
Proof.
  intros Hv Hu. unfold parse_report. rewrite Hu, Z.add_0_r.
  destruct (RatioFacts.ratio_percent_range (verified_count r) (verified_count r))
    as (c & Hc & _); try lia.
  rewrite Hc. destruct (Z.ltb_spec 0 (verified_count r)); [|lia].
  reflexivity.
Qed.

Lemma all_verified_is_accepted_witness :
  0 < verified_count Spec.report_verified_but_failed /\
  unverified_count Spec.report_verified_but_failed = 0 /\
  parse_report Spec.report_verified_but_failed =
  Some {| passed := true; confidence := 100;
          report := Spec.report_verified_but_failed |}.
Proof.
  split; [reflexivity|]. split; [reflexivity|].
  apply (all_verified_is_accepted Spec.report_verified_but_failed); reflexivity.
Defined.



(** C1 (as the code has it): with at least one claim marker, the
    confidence is [int((verified / total) * 100)], the percentage cut
    down to an integer and never rounded up. It is the integer part of
    [100 * verified / total], or one less when that quotient is a whole
    number that the two roundings of the doubles fall short of; with
    no unverified claim it is 100. *)
Theorem confidence_is_truncated (r : string) :
  0 < total_claims r ->
  total_claims r < 2 ^ 45 ->
  exists vd : verdict,
    parse_report r = Some vd /\
    100 * verified_count r / total_claims r - 1 <= confidence vd
      <= 100 * verified_count r / total_claims r /\
    ((100 * verified_count r) mod total_claims r <> 0 ->
     confidence vd = 100 * verified_count r / total_claims r) /\
    (unverified_count r = 0 -> confidence vd = 100).
Proof.
  intros Hpos Hb.
  destruct (parse_report_cases r Hb) as (vd & Hp & _ & H).
  exists vd. split; [exact Hp|].
  pose proof (verified_count_nonneg r). pose proof (unverified_count_nonneg r).
  unfold total_claims in *.
  destruct H as [(Hu & Hv & _ & Hc) | [(Ht & _) | (Hu & _ & Hfl & Hex)]].
  - rewrite Hu, Z.add_0_r, Hc. rewrite Z.div_mul by lia.
    repeat split; try lia; intros Hm; rewrite Z.mod_mul in Hm by lia; lia.
  - lia.
  - repeat split; try lia; exact Hex.
Qed.

Lemma confidence_is_truncated_witness :
  exists vd : verdict,
    parse_report Spec.report_two_of_three = Some vd /\
    100 * verified_count Spec.report_two_of_three
      / total_claims Spec.report_two_of_three - 1 <= confidence vd
      <= 100 * verified_count Spec.report_two_of_three
         / total_claims Spec.report_two_of_three /\
    ((100 * verified_count Spec.report_two_of_three)
       mod total_claims Spec.report_two_of_three <> 0 ->
     confidence vd = 100 * verified_count Spec.report_two_of_three
                     / total_claims Spec.report_two_of_three) /\
    (unverified_count Spec.report_two_of_three = 0 -> confidence vd = 100).
Proof.
  apply (confidence_is_truncated Spec.report_two_of_three); reflexivity.
Defined.

(** C1 (as the specification has it) fails: two verified claims and
    one unverified claim give 66, where rounding would give 67. *)
Lemma two_of_three_is_66_not_67 :
  verified_count Spec.report_two_of_three = 2 /\
  unverified_count Spec.report_two_of_three = 1 /\
  Spec.round_percent (verified_count Spec.report_two_of_three)
                     (total_claims Spec.report_two_of_three) = 67 /\
  option_map confidence (parse_report Spec.report_two_of_three) = Some 66.
Proof. repeat split. Qed.

(** C10: on a report with fewer than [2^45] claim markers, a
    confidence of 100 comes with [passed = true]; the guard of the
    retry loop then reduces to "confidence below 100", and a verdict
    that is not passed at confidence 100 does not occur. *)
Theorem full_confidence_implies_passed (r : string) :
  total_claims r < 2 ^ 45 ->
  exists vd : verdict,
    parse_report r = Some vd /\
    (confidence vd = 100 -> passed vd = true) /\
    negb (passed vd) || (confidence vd <? 100) = (confidence vd <? 100) /\
    ~ (passed vd = false /\ confidence vd = 100).
Proof.
  intros Hb.
  destruct (parse_report_cases r Hb) as (vd & Hp & _ & H).
  exists vd. split; [exact Hp|].
  pose proof (verified_count_nonneg r) as Hv.
  pose proof (unverified_count_nonneg r) as Hu.
  assert (Hkey : passed vd = true \/ confidence vd < 100).
  { destruct H as [(_ & _ & Hpass & _) | [(_ & _ & Hc) | (Hu0 & _ & [_ Hc] & _)]].
    - now left.
    - right. lia.
    - right. unfold total_claims in Hc.
      assert (100 * verified_count r / (verified_count r + unverified_count r) < 100)
        by (apply Z.div_lt_upper_bound; lia).
      lia. }
  destruct Hkey as [Hpass | Hlt].
  - rewrite Hpass. repeat split; try reflexivity; intros [Hf _]; discriminate.
  - destruct (Z.ltb_spec (confidence vd) 100); [|lia].
    repeat split; try lia; apply orb_true_r.
Qed.

Lemma full_confidence_implies_passed_witness :
  exists vd : verdict,
    parse_report Spec.report_verified_but_failed = Some vd /\
    (confidence vd = 100 -> passed vd = true) /\
    negb (passed vd) || (confidence vd <? 100) = (confidence vd <? 100) /\
    ~ (passed vd = false /\ confidence vd = 100).
Proof.
  apply (full_confidence_implies_passed Spec.report_verified_but_failed).
  reflexivity.
Defined.

Lemma lower_char_idempotent (c : ascii) :
  PyStr.lower_char (PyStr.lower_char c) = PyStr.lower_char c.
Proof. destruct c as [[] [] [] [] [] [] [] []]; reflexivity. Qed.

Lemma lower_idempotent (s : string) : PyStr.lower (PyStr.lower s) = PyStr.lower s.
Proof.
  induction s as [|c s IH]; [reflexivity|].
  cbn [PyStr.lower]. now rewrite lower_char_idempotent, IH.
Qed.

Lemma lower_char_star (c : ascii) :
  Ascii.eqb "*" (PyStr.lower_char c) = Ascii.eqb "*" c.
Proof. destruct c as [[] [] [] [] [] [] [] []]; reflexivity. Qed.

Lemma contains_star_cons (c : ascii) (s : string) :
  PyStr.contains "*" (String c s) = Ascii.eqb "*" c || PyStr.contains "*" s.
Proof.
  cbn [PyStr.contains PyStr.startswith]. now rewrite andb_true_r.
Qed.

Lemma lower_keeps_stars (s : string) :
  PyStr.contains "*" (PyStr.lower s) = PyStr.contains "*" s.
Proof.
  induction s as [|c s IH]; [reflexivity|].
  cbn [PyStr.lower]. now rewrite !contains_star_cons, lower_char_star, IH.
Qed.

(** Without an asterisk in the text, the two [replace] calls of the
    normalization change nothing. *)
Lemma replace_without_star (old' s : string) :
  PyStr.contains "*" s = false ->
  PyStr.replace (String "*" old') "" s = s.
Proof.
  intros Hs. unfold PyStr.replace.
  induction s as [|c s IH]; [reflexivity|].
  rewrite contains_star_cons in Hs. apply orb_false_iff in Hs. destruct Hs as [Hc Hs].
  cbn [PyStr.replace_from PyStr.startswith]. rewrite Hc. cbn [andb].
  now rewrite IH.
Qed.

Lemma report_clean_without_star (r : string) :
  PyStr.contains "*" r = false -> report_clean r = report_lower r.
Proof.
  intros Hr. unfold report_clean, report_lower.
  assert (Hl : PyStr.contains "*" (PyStr.lower r) = false)
    by now rewrite lower_keeps_stars.
  change "**"%string with (String "*" "*").
  rewrite (replace_without_star "*" (PyStr.lower r) Hl).
  apply (replace_without_star "" (PyStr.lower r) Hl).
Qed.

(** C4 (as the code has it): the preliminary signal is read on the
    lower-cased report, before the emphasis marks are stripped. It
    does not depend on letter case, and it agrees with a reading on
    the normalized text whenever the report has no asterisk. *)
Theorem passed_signal_is_case_insensitive_only (r : string) :
  passed_signal (PyStr.lower r) = passed_signal r /\
  (PyStr.contains "*" r = false ->
   passed_signal r = Spec.passed_signal_normalized r).
Proof.
  split.
  - unfold passed_signal, report_lower. now rewrite lower_idempotent.
  - intros Hr. unfold passed_signal, Spec.passed_signal_normalized.
    now rewrite (report_clean_without_star r Hr).
Qed.

Lemma passed_signal_witness :
  PyStr.contains "*" "Overall Status: PASSED" = false /\
  passed_signal "Overall Status: PASSED" =
  Spec.passed_signal_normalized "Overall Status: PASSED".
Proof.
  split; [reflexivity|].
  apply (passed_signal_is_case_insensitive_only "Overall Status: PASSED").
  reflexivity.
Defined.

(** C4 (as the specification has it) fails: with the emphasis around
    the word only, the signal read by the code is false, where the
    reading on the normalized text is true. *)
Lemma emphasised_passed_is_missed :
  passed_signal "Overall Status: **PASSED**" = false /\
  Spec.passed_signal_normalized "Overall Status: **PASSED**" = true.
Proof. split; reflexivity. Qed.

End ParserFacts.

(** ** Runs: what is returned and what is added to the trace *)
Module RunFacts.
Import Tools Spec.

Section Laws.
Context {World : Type}.

Lemma returns_ret {A : Type} (Q : A -> Prop) (a : A) :
  Q a -> returns (World := World) Q (ret a).
Proof. intros H s. exists a, s. split; [reflexivity | exact H]. Qed.

Lemma returns_bind {A B : Type} (Q1 : A -> Prop) (Q2 : B -> Prop)
    (c : M World A) (k : A -> M World B) :
  returns Q1 c -> (forall a, Q1 a -> returns Q2 (k a)) -> returns Q2 (bind c k).
Proof.
  intros Hc Hk s. destruct (Hc s) as (a & s1 & E1 & Ha).
  destruct (Hk a Ha s1) as (b & s2 & E2 & Hb).
  exists b, s2. unfold bind. rewrite E1. split; assumption.
Qed.

Lemma returns_weaken {A : Type} (Q1 Q2 : A -> Prop) (c : M World A) :
  (forall a, Q1 a -> Q2 a) -> returns Q1 c -> returns Q2 c.
Proof.
  intros HQ Hc s. destruct (Hc s) as (a & s1 & E1 & Ha).
  exists a, s1. split; [exact E1 | apply HQ, Ha].
Qed.

Lemma returns_emit (e : event) : returns (World := World) (fun _ => True) (emit e).
Proof. intros s. eexists _, _. split; [reflexivity | exact I]. Qed.

Lemma returns_call {A : Type} (f : World -> A * World) :
  returns (fun _ => True) (call f).
Proof.
  intros s. unfold call. destruct (f (world s)) as [a w].
  eexists _, _. split; [reflexivity | exact I].
Qed.

Lemma returns_read {A : Type} (f : World -> A) : returns (fun _ => True) (read f).
Proof. intros s. eexists _, _. split; [reflexivity | exact I]. Qed.

Lemma emits_ret {A : Type} (P : event -> Prop) (a : A) :
  emits (World := World) P (ret a).
Proof. intros s. exists []. split; [now rewrite app_nil_r | constructor]. Qed.

Lemma emits_raise {A : Type} (P : event -> Prop) :
  emits (World := World) (A := A) P raise.
Proof. intros s. exists []. split; [now rewrite app_nil_r | constructor]. Qed.

Lemma emits_bind {A B : Type} (P : event -> Prop)
    (c : M World A) (k : A -> M World B) :
  emits P c -> (forall a, emits P (k a)) -> emits P (bind c k).
Proof.
  intros Hc Hk s. destruct (Hc s) as (t1 & E1 & F1).
  unfold bind. destruct (c s) as [[a|] s1]; cbn [snd] in *.
  - destruct (Hk a s1) as (t2 & E2 & F2).
    exists (t1 ++ t2)%list. split.
    + now rewrite E2, E1, app_assoc.
    + apply Forall_app. now split.
  - exists t1. now split.
Qed.

Lemma emits_emit (P : event -> Prop) (e : event) :
  P e -> emits (World := World) P (emit e).
Proof. intros H s. exists [e]. split; [reflexivity | now constructor]. Qed.

Lemma emits_call {A : Type} (P : event -> Prop) (f : World -> A * World) :
  emits P (call f).
Proof.
  intros s. unfold call. destruct (f (world s)) as [a w].
  exists []. split; [cbn; now rewrite app_nil_r | constructor].
Qed.

Lemma emits_read {A : Type} (P : event -> Prop) (f : World -> A) :
  emits P (read f).
Proof. intros s. exists []. split; [cbn; now rewrite app_nil_r | constructor]. Qed.

Lemma emits_update (P : event -> Prop) (f : World -> World) :
  emits P (update f).
Proof. intros s. exists []. split; [cbn; now rewrite app_nil_r | constructor]. Qed.

Lemma emits_weaken {A : Type} (P Q : event -> Prop) (c : M World A) :
  (forall e, P e -> Q e) -> emits P c -> emits Q c.
Proof.
  intros HPQ Hc s. destruct (Hc s) as (t & E & F).
  exists t. split; [exact E|]. eapply Forall_impl; eassumption.
Qed.

End Laws.

Create HintDb run.
#[export] Hint Resolve emits_ret emits_raise emits_call emits_read emits_update : run.

End RunFacts.

(** ** The collectors *)
Module FetcherFacts.
Import Tools Fetchers Spec RunFacts.

Lemma insert_by_date_sorted (x : article) (l : list article) :
  newest_first l -> newest_first (insert_by_date x l).
Proof.
  unfold newest_first. induction l as [|y l IH]; intros Hs; cbn [insert_by_date].
  - repeat constructor.
  - destruct (String.leb (date y) (date x)) eqn:E.
    + constructor; [assumption | constructor; exact E].
    + apply Sorted_inv in Hs. destruct Hs as [Hs Hhd].
      constructor; [apply IH, Hs|].
      destruct (String.leb_total (date y) (date x)) as [H | H]; [congruence|].
      destruct l as [|z l]; cbn [insert_by_date].
      * constructor. exact H.
      * destruct (String.leb (date z) (date x)).
        -- constructor. exact H.
        -- constructor. now apply HdRel_inv in Hhd.
Qed.

Lemma sort_newest_first_sorted (l : list article) :
  newest_first (sort_newest_first l).
Proof.
  induction l as [|x l IH]; cbn.
  - constructor.
  - apply insert_by_date_sorted, IH.
Qed.

Lemma insert_by_date_perm (x : article) (l : list article) :
  Permutation (x :: l) (insert_by_date x l).
Proof.
  induction l as [|y l IH]; cbn [insert_by_date]; [reflexivity|].
  destruct (String.leb (date y) (date x)); [reflexivity|].
  rewrite perm_swap. now constructor.
Qed.

(** The sort keeps every article, once. *)
Lemma sort_newest_first_perm (l : list article) :
  Permutation l (sort_newest_first l).
Proof.
  induction l as [|x l IH]; cbn; [constructor|].
  rewrite <- insert_by_date_perm. now constructor.
Qed.

Section WithEnv.
Context {World : Type} (env : Env World).

Lemma parse_date_returns (e : entry) : returns (fun _ => True) (parse_date env e).
Proof.
  unfold parse_date. destruct (published_parsed e); [now apply returns_ret|].
  destruct (updated_parsed e); [now apply returns_ret | apply returns_call].
Qed.

Lemma parse_date_emits (P : event -> Prop) (e : entry) : emits P (parse_date env e).
Proof.
  unfold parse_date. destruct (published_parsed e); auto with run.
  destruct (updated_parsed e); auto with run.
Qed.

Lemma rss_entries_returns (source_name : string) (cutoff_time : Z)
    (entries : list entry) (articles : list article) :
  returns (fun _ => True) (rss_entries env source_name cutoff_time entries articles).
Proof.
  revert articles. induction entries as [|e rest IH]; intros articles; cbn [rss_entries].
  - now apply returns_ret.
  - eapply returns_bind; [apply parse_date_returns|]. intros pub_date _.
    destruct (cutoff_time <=? pub_date); apply IH.
Qed.

Lemma rss_entries_emits (P : event -> Prop) (source_name : string) (cutoff_time : Z)
    (entries : list entry) (articles : list article) :
  emits P (rss_entries env source_name cutoff_time entries articles).
Proof.
  revert articles. induction entries as [|e rest IH]; intros articles; cbn [rss_entries].
  - auto with run.
  - apply emits_bind; [apply parse_date_emits|]. intros pub_date.
    destruct (cutoff_time <=? pub_date); apply IH.
Qed.

Lemma rss_sources_returns (feeds : list (string * string)) (cutoff_time : Z)
    (articles : list article) :
  returns (fun _ => True) (rss_sources env feeds cutoff_time articles).
Proof.
  revert articles. induction feeds as [|[source_name feed_url] rest IH];
    intros articles; cbn [rss_sources].
  - now apply returns_ret.
  - eapply returns_bind; [apply returns_emit|]. intros _ _.
    eapply returns_bind; [apply returns_call|]. intros feed _.
    destruct feed as [entries|]; [|apply IH].
    eapply returns_bind; [apply rss_entries_returns|]. intros articles' _. apply IH.
Qed.

Lemma rss_sources_emits (feeds : list (string * string)) (cutoff_time : Z)
    (articles : list article) :
  emits fetch_event (rss_sources env feeds cutoff_time articles).
Proof.
  revert articles. induction feeds as [|[source_name feed_url] rest IH];
    intros articles; cbn [rss_sources].
  - auto with run.
  - apply emits_bind; [now apply emits_emit|]. intros _.
    apply emits_bind; [auto with run|]. intros feed.
    destruct feed as [entries|]; [|apply IH].
    apply emits_bind; [apply rss_entries_emits|]. intros articles'. apply IH.
Qed.

(** [fetch_rss_feeds] never raises and returns its articles newest
    first. *)
Lemma fetch_rss_feeds_returns (hours_back : Z) :
  returns newest_first (fetch_rss_feeds env hours_back).
Proof.
  unfold fetch_rss_feeds.
  eapply returns_bind; [apply returns_call|]. intros now _.
  eapply returns_bind; [apply rss_sources_returns|]. intros articles _.
  apply returns_ret, sort_newest_first_sorted.
Qed.

Lemma fetch_rss_feeds_emits (hours_back : Z) :
  emits fetch_event (fetch_rss_feeds env hours_back).
Proof.
  unfold fetch_rss_feeds.
  apply emits_bind; [auto with run|]. intros now.
  apply emits_bind; [apply rss_sources_emits|]. intros articles. auto with run.
Qed.

Lemma existsb_eqb_false (u : string) (seen : list string) :
  existsb (String.eqb u) seen = false -> ~ In u seen.
Proof.
  intros H Hin. assert (existsb (String.eqb u) seen = true); [|congruence].
  apply existsb_exists. exists u. split; [exact Hin | apply String.eqb_refl].
Qed.

Lemma gnews_items_returns (items : list gnews_item) (seen_urls : list string)
    (articles : list article) :
  distinct_urls articles ->
  (forall u, In u (map url articles) -> In u seen_urls) ->
  returns distinct_urls (gnews_items env items seen_urls articles).
Proof.
  revert seen_urls articles.
  induction items as [|item rest IH]; intros seen_urls articles Hd Hin;
    cbn [gnews_items].
  - now apply returns_ret.
  - destruct (existsb (String.eqb (get_or "" (item_url item))) seen_urls) eqn:E.
    + now apply IH.
    + apply existsb_eqb_false in E.
      eapply returns_bind; [apply returns_call|]. intros now _.
      apply IH.
      * unfold distinct_urls in *. rewrite map_app. cbn [map url].
        apply NoDup_app; [exact Hd | repeat constructor; intros [] |].
        intros u Hu [<- | []]. apply E, Hin, Hu.
      * intros u. rewrite map_app, in_app_iff. cbn [map url In].
        intros [Hu | [<- | []]]; [right; apply Hin, Hu | now left].
Qed.

Lemma gnews_items_emits (P : event -> Prop) (items : list gnews_item)
    (seen_urls : list string) (articles : list article) :
  emits P (gnews_items env items seen_urls articles).
Proof.
  revert seen_urls articles.
  induction items as [|item rest IH]; intros seen_urls articles; cbn [gnews_items].
  - auto with run.
  - destruct (existsb _ seen_urls); [apply IH|].
    apply emits_bind; [auto with run|]. intros now. apply IH.
Qed.

(** [fetch_gnews] never raises and returns articles with distinct
    URLs. *)
Lemma fetch_gnews_returns (api_key : option string) (max_results : Z) :
  returns distinct_urls (fetch_gnews env api_key max_results).
Proof.
  assert (Hnil : distinct_urls []) by constructor.
  unfold fetch_gnews.
  eapply returns_bind with (Q1 := fun _ => True).
  { destruct (truthy api_key); [now apply returns_ret | apply returns_read]. }
  intros [key|] _; [|now apply returns_ret].
  destruct (String.eqb key ""); [now apply returns_ret|].
  eapply returns_bind; [apply returns_emit|]. intros _ _.
  eapply returns_bind; [apply returns_call|]. intros [items|] _;
    [|now apply returns_ret].
  apply gnews_items_returns; [exact Hnil | intros u []].
Qed.

Lemma fetch_gnews_emits (api_key : option string) (max_results : Z) :
  emits fetch_event (fetch_gnews env api_key max_results).
Proof.
  unfold fetch_gnews.
  apply emits_bind.
  { destruct (truthy api_key); auto with run. }
  intros [key|]; [|auto with run].
  destruct (String.eqb key ""); [auto with run|].
  apply emits_bind; [now apply emits_emit|]. intros _.
  apply emits_bind; [auto with run|]. intros [items|]; [|auto with run].
  apply gnews_items_emits.
Qed.

End WithEnv.
End FetcherFacts.

(** ** The convergence loop and the workflow *)
Module WorkflowFacts.
Import Tools Main Spec RunFacts FetcherFacts.

Lemma count_events_app (f : event -> bool) (t1 t2 : list event) :
  count_events f (t1 ++ t2) = (count_events f t1 + count_events f t2)%nat.
Proof. unfold count_events. now rewrite filter_app, length_app. Qed.

Lemma bind_run {World A B : Type} (c : M World A) (k : A -> M World B)
    (s : state World) :
  bind c k s =
  match c s with
  | (Ok a, s') => k a s'
  | (Raised, s') => (Raised, s')
  end.
Proof. reflexivity. Qed.

Section WithEnv.
Context {World : Type} (env : Env World).

(** One call of the agent: the event is recorded, then the endpoint
    answers or raises. *)
Lemma call_agent_run (p : prompt) (s : state World) :
  exists s', trace s' = (trace s ++ [EvAgent p])%list /\
    (call_agent env p s = (Raised, s') \/
     exists content, call_agent env p s = (Ok content, s')).
Proof.
  unfold call_agent, bind, emit, call. cbn [world trace].
  destruct (chat_completion env p (world s)) as [[content|] w].
  - eexists. split; [|right; eexists; reflexivity]. reflexivity.
  - eexists. split; [|left; reflexivity]. reflexivity.
Qed.

(** One verification: one call of the agent, and a verdict whose
    confidence is a percentage. *)
Lemma step_4_verify_post_run (draft_post source_articles : string) (s : state World) :
  exists s', trace s' = (trace s ++ [EvAgent (VerifierPrompt draft_post source_articles)])%list /\
    (step_4_verify_post env draft_post source_articles s = (Raised, s') \/
     exists v, step_4_verify_post env draft_post source_articles s = (Ok v, s') /\
               0 <= confidence v <= 100).
Proof.
  unfold step_4_verify_post, bind.
  destruct (call_agent_run (VerifierPrompt draft_post source_articles) s)
    as (s' & Ht & [E | (content & E)]); rewrite E; exists s'; (split; [exact Ht|]).
  - now left.
  - right. destruct (ParserFacts.parse_report_total content) as (vd & -> & Hc & _).
    exists vd. split; [reflexivity | exact Hc].
Qed.

Lemma retry_loop_unfold (enhanced_content : string) (st : loop_state) (s : state World) :
  retry_loop env enhanced_content st s =
  if loop_guard st then
    (draft_post <- step_4b_rewrite_verified_only env (Main.draft_post st)
                     (report (current_verification st)) enhanced_content ;;
     current_verification <- step_4_verify_post env draft_post enhanced_content ;;
     let st' :=
       {| Main.draft_post := draft_post;
          Main.current_verification := current_verification;
          retry_count := S (retry_count st);
          loop_results :=
            set_step
              (set_step (loop_results st)
                 ("rewrite_" ++ PyStr.str (Z.of_nat (S (retry_count st)))) StepCompleted)
              ("verify_" ++ PyStr.str (Z.of_nat (S (retry_count st))))
              (StepVerify current_verification) |} in
     if confidence current_verification =? 100 then ret st'
     else retry_loop env enhanced_content st') s
  else (Ok st, s).
Proof.
  rewrite retry_loop_equation_1. unfold retry_loop_unfold_clause_1.
  destruct (inspect (loop_guard st)) as [[|] Hg]; rewrite Hg; reflexivity.
Qed.

(** The loop, started with [n] retries left: at most [n] rewrites,
    as many verifications as rewrites (one less if the last rewrite
    is followed by a failure of the endpoint), and on return either a
    confidence of 100 or a spent budget. *)
Lemma retry_loop_run (enhanced_content : string) (n : nat) :
  forall (st : loop_state) (s : state World),
    (retry_count st + n = max_retries)%nat ->
    confidence (current_verification st) <= 100 ->
    exists t,
      trace (snd (retry_loop env enhanced_content st s)) = (trace s ++ t)%list /\
      Forall loop_event t /\
      (count_events is_rewrite t <= n)%nat /\
      (count_events is_verify t <= count_events is_rewrite t)%nat /\
      match fst (retry_loop env enhanced_content st s) with
      | Ok st' =>
          (retry_count st' = retry_count st + count_events is_rewrite t)%nat /\
          count_events is_verify t = count_events is_rewrite t /\
          (confidence (current_verification st') = 100 \/
           (confidence (current_verification st') < 100 /\
            retry_count st' = max_retries))
      | Raised => True
      end.
Proof.
  induction n as [|n IH]; intros st s Hn Hc; rewrite retry_loop_unfold.
  - (* no retry left: the guard fails *)
    assert (Hg : loop_guard st = false).
    { unfold loop_guard. replace (retry_count st <? max_retries)%nat with false.
      - apply andb_false_r.
      - symmetry. apply Nat.ltb_ge. lia. }
    rewrite Hg. exists []. cbn [fst snd]. rewrite app_nil_r.
    split; [reflexivity|]. split; [constructor|].
    split; [cbn; lia|]. split; [cbn; lia|].
    split; [cbn; lia|]. split; [reflexivity|].
    destruct (Z_lt_le_dec (confidence (current_verification st)) 100);
      [right; split; [assumption | lia] | left; lia].
  - destruct (loop_guard st) eqn:Hg.
    2:{ exists []. cbn [fst snd]. rewrite app_nil_r.
        split; [reflexivity|]. split; [constructor|].
        split; [cbn; lia|]. split; [cbn; lia|].
        split; [cbn; lia|]. split; [reflexivity|].
        unfold loop_guard in Hg. apply andb_false_iff in Hg.
        destruct Hg as [Hg | Hg].
        - apply orb_false_iff in Hg. destruct Hg as [_ Hg].
          apply Z.ltb_ge in Hg. left. lia.
        - apply Nat.ltb_ge in Hg. lia. }
    unfold step_4b_rewrite_verified_only. rewrite bind_run.
    set (p := RewritePrompt (Main.draft_post st) (report (current_verification st))
                enhanced_content).
    assert (Hp : loop_event (EvAgent p)) by (left; repeat split).
    destruct (call_agent_run p s) as (s1 & Ht1 & [E1 | (d & E1)]); rewrite E1.
    { exists [EvAgent p]. cbn [fst snd]. split; [exact Ht1|].
      split; [repeat constructor; exact Hp|].
      split; [cbn; lia|]. split; [cbn; lia | exact I]. }
    cbv beta iota. rewrite bind_run.
    assert (Hq : loop_event (EvAgent (VerifierPrompt d enhanced_content)))
      by (right; repeat split).
    destruct (step_4_verify_post_run d enhanced_content s1)
      as (s2 & Ht2 & [E2 | (v & E2 & Hv)]); rewrite E2.
    { exists [EvAgent p; EvAgent (VerifierPrompt d enhanced_content)].
      cbn [fst snd]. split; [rewrite Ht2, Ht1, <- app_assoc; reflexivity|].
      split; [repeat constructor; assumption|].
      split; [cbn; lia|]. split; [cbn; lia | exact I]. }
    cbv beta iota zeta.
    destruct (Z.eqb_spec (confidence v) 100) as [H100 | H100].
    { exists [EvAgent p; EvAgent (VerifierPrompt d enhanced_content)].
      cbn [fst snd ret]. split; [rewrite Ht2, Ht1, <- app_assoc; reflexivity|].
      split; [repeat constructor; assumption|].
      split; [cbn; lia|]. split; [cbn; lia|].
      split; [cbn; lia|]. split; [reflexivity|].
      left. exact H100. }
    set (st' := {| Main.draft_post := d; Main.current_verification := v;
                   retry_count := S (retry_count st); loop_results := _ |}).
    destruct (IH st' s2) as (t & Ht & Hev & Hrw & Hvf & Hres).
    { cbn [retry_count st']. lia. }
    { cbn [current_verification st']. lia. }
    exists (EvAgent p :: EvAgent (VerifierPrompt d enhanced_content) :: t).
    split; [rewrite Ht, Ht2, Ht1, <- !app_assoc; reflexivity|].
    split; [repeat constructor; assumption|].
    change (EvAgent p :: EvAgent (VerifierPrompt d enhanced_content) :: t)
      with ([EvAgent p; EvAgent (VerifierPrompt d enhanced_content)] ++ t)%list.
    rewrite !count_events_app.
    change (count_events is_rewrite [EvAgent p; EvAgent (VerifierPrompt d enhanced_content)])
      with 1%nat.
    change (count_events is_verify [EvAgent p; EvAgent (VerifierPrompt d enhanced_content)])
      with 1%nat.
    split; [lia|]. split; [lia|].
    destruct (fst (retry_loop env enhanced_content st' s2)) as [st''|]; [|exact I].
    cbn [retry_count st'] in Hres. destruct Hres as (Hrc & Hcnt & Hend).
    split; [lia|]. split; [lia|]. exact Hend.
Qed.

(** Step 4 of a run: the first verification, then the loop. *)
Lemma verify_and_converge_run (results : results)
    (draft_post enhanced_content : string) (s : state World) :
  exists t,
    trace (snd (verify_and_converge env results draft_post enhanced_content s))
      = (trace s ++ t)%list /\
    Forall loop_event t /\
    (count_events is_rewrite t <= max_retries)%nat /\
    (count_events is_verify t <= max_retries + 1)%nat /\
    match fst (verify_and_converge env results draft_post enhanced_content s) with
    | Ok st =>
        retry_count st = count_events is_rewrite t /\
        count_events is_verify t = S (count_events is_rewrite t) /\
        (confidence (current_verification st) = 100 \/
         (confidence (current_verification st) < 100 /\
          retry_count st = max_retries))
    | Raised => True
    end.
Proof.
  unfold verify_and_converge. rewrite bind_run.
  assert (Hq : loop_event (EvAgent (VerifierPrompt draft_post enhanced_content)))
    by (right; repeat split).
  destruct (step_4_verify_post_run draft_post enhanced_content s)
    as (s1 & Ht1 & [E1 | (v & E1 & Hv)]); rewrite E1.
  { exists [EvAgent (VerifierPrompt draft_post enhanced_content)]. cbn [fst snd].
    split; [exact Ht1|]. split; [repeat constructor; exact Hq|].
    split; [cbn; lia|]. split; [cbn; lia | exact I]. }
  cbv beta iota zeta.
  set (st0 := {| Main.draft_post := draft_post; current_verification := v;
                 retry_count := 0; loop_results := _ |}).
  destruct (retry_loop_run enhanced_content max_retries st0 s1)
    as (t & Ht & Hev & Hrw & Hvf & Hres); [reflexivity | cbn; lia |].
  exists (EvAgent (VerifierPrompt draft_post enhanced_content) :: t).
  split; [rewrite Ht, Ht1, <- app_assoc; reflexivity|].
  split; [constructor; assumption|].
  change (EvAgent (VerifierPrompt draft_post enhanced_content) :: t)
    with ([EvAgent (VerifierPrompt draft_post enhanced_content)] ++ t)%list.
  rewrite !count_events_app.
  change (count_events is_rewrite [EvAgent (VerifierPrompt draft_post enhanced_content)])
    with 0%nat.
  change (count_events is_verify [EvAgent (VerifierPrompt draft_post enhanced_content)])
    with 1%nat.
  split; [lia|]. split; [lia|].
  destruct (fst (retry_loop env enhanced_content st0 s1)) as [st|]; [|exact I].
  cbn [retry_count st0] in Hres. destruct Hres as (Hrc & Hcnt & Hend).
  split; [lia|]. split; [lia | exact Hend].
Qed.

(** C3: the convergence loop makes at most [max_retries] rewrite
    calls and at most [max_retries + 1] verification calls, and comes
    back (unless the endpoint raises, which ends the run) either
    accepted, at confidence 100, or exhausted, with the budget spent
    and a confidence below 100. *)
Theorem convergence_is_bounded (results : results)
    (draft_post enhanced_content : string) (s : state World) :
  exists t,
    trace (snd (verify_and_converge env results draft_post enhanced_content s))
      = (trace s ++ t)%list /\
    (count_events is_rewrite t <= max_retries)%nat /\
    (count_events is_verify t <= max_retries + 1)%nat /\
    match fst (verify_and_converge env results draft_post enhanced_content s) with
    | Ok st =>
        retry_count st = count_events is_rewrite t /\
        (confidence (current_verification st) = 100 \/
         (confidence (current_verification st) < 100 /\
          retry_count st = max_retries))
    | Raised => True
    end.
Proof.
  destruct (verify_and_converge_run results draft_post enhanced_content s)
    as (t & Ht & _ & Hrw & Hvf & Hres).
  exists t. repeat (split; [assumption|]).
  destruct (fst (verify_and_converge env results draft_post enhanced_content s));
    [|exact I].
  destruct Hres as (Hrc & _ & Hend). split; assumption.
Qed.

Lemma loop_event_not_publish (t : list event) :
  Forall loop_event t -> count_events is_publish t = 0%nat.
Proof.
  induction 1 as [|e t He _ IH]; [reflexivity|].
  unfold count_events in *. cbn [filter].
  destruct He as [(_ & _ & ->) | (_ & _ & ->)]; exact IH.
Qed.


Lemma collect_articles_returns (hours_back : Z) :
  returns (fun l => exists rss gnews,
               l = (rss ++ gnews)%list /\ newest_first rss /\ distinct_urls gnews)
          (collect_articles env hours_back).
Proof.
  unfold collect_articles.
  eapply returns_bind; [apply fetch_rss_feeds_returns|]. intros rss Hrss.
  eapply returns_bind; [apply fetch_gnews_returns|]. intros gnews Hgnews.
  apply returns_ret. now exists rss, gnews.
Qed.

Lemma collect_articles_emits (hours_back : Z) :
  emits fetch_event (collect_articles env hours_back).
Proof.
  unfold collect_articles.
  apply emits_bind; [apply fetch_rss_feeds_emits|]. intros rss.
  apply emits_bind; [apply fetch_gnews_emits|]. intros gnews. auto with run.
Qed.


(** C7: when step 1 collects no article, the run ends with the
    status [skipped]; no generative call and no publish call is
    made. *)
Theorem no_articles_run_is_skipped (dry_run : bool) (hours_back : Z)
    (skip_verification : bool) (confidence_threshold : Z) (s : state World) :
  fst (collect_articles env hours_back (after_clock env s)) = Ok [] ->
  exists r s' t,
    run_workflow env dry_run hours_back skip_verification confidence_threshold s
      = (Ok r, s') /\
    status r = Some "skipped"%string /\
    reason r = Some "No articles found"%string /\
    trace s' = (trace s ++ t)%list /\
    Forall quiet_event t.
Proof.
  unfold after_clock. intros Hnone.
  unfold run_workflow. rewrite !bind_run in *.
  unfold call at 1 in Hnone. unfold call at 1.
  destruct (datetime_now env (world s)) as [t1 w1]. cbv beta iota in *.
  rewrite bind_run. unfold call at 1 in Hnone. unfold call at 1.
  cbn [world trace] in *.
  destruct (datetime_now env w1) as [t2 w2]. cbv beta iota zeta in *. cbn [snd] in Hnone.
  set (s0 := {| world := w2; trace := trace s |}) in *.
  rewrite bind_run. unfold step_1_fetch_news. rewrite bind_run.
  destruct (collect_articles_emits hours_back s0) as (t & Ht & Hev).
  destruct (collect_articles env hours_back s0) as [[l|] s'] eqn:E;
    cbn [fst snd] in *; [|discriminate].
  injection Hnone as ->. cbn [ret].
  eexists _, s', t. split; [reflexivity|]. cbn [status reason].
  repeat (split; [reflexivity|]). split; [exact Ht|].
  eapply Forall_impl; [|exact Hev]. intros e He. unfold fetch_event in He.
  destruct e; try discriminate; split; reflexivity.
Qed.

Lemma call_agent_emits (P : event -> Prop) (p : prompt) :
  P (EvAgent p) -> emits P (call_agent env p).
Proof.
  intros HP. unfold call_agent.
  apply emits_bind; [now apply emits_emit|]. intros _.
  apply emits_bind; [auto with run|]. intros [content|]; auto with run.
Qed.

Lemma step_4_verify_post_emits (P : event -> Prop) (draft_post source_articles : string) :
  (forall p, P (EvAgent p)) -> emits P (step_4_verify_post env draft_post source_articles).
Proof.
  intros HP. unfold step_4_verify_post.
  apply emits_bind; [apply call_agent_emits, HP|]. intros verification_report.
  destruct (parse_report verification_report); auto with run.
Qed.

Lemma retry_loop_emits (P : event -> Prop) (enhanced_content : string) (n : nat) :
  (forall p, P (EvAgent p)) ->
  forall st, (retry_count st + n = max_retries)%nat ->
             emits P (retry_loop env enhanced_content st).
Proof.
  intros HP. induction n as [|n IH]; intros st Hn s; rewrite retry_loop_unfold.
  - replace (loop_guard st) with false; [apply (emits_ret P st s)|].
    unfold loop_guard. replace (retry_count st <? max_retries)%nat with false.
    + now rewrite andb_false_r.
    + symmetry. apply Nat.ltb_ge. lia.
  - destruct (loop_guard st); [|apply (emits_ret P st s)].
    revert s. apply emits_bind; [apply call_agent_emits, HP|]. intros d.
    apply emits_bind; [apply step_4_verify_post_emits, HP|]. intros v. cbv zeta.
    destruct (confidence v =? 100); [auto with run|].
    apply IH. cbn [retry_count]. lia.
Qed.

Lemma post_to_linkedin_emits (content : string) :
  emits unvalidated (LinkedinPoster.post_to_linkedin env content).
Proof.
  unfold LinkedinPoster.post_to_linkedin, LinkedinPoster.get_user_profile.
  apply emits_bind; [now apply emits_emit|]. intros _.
  apply emits_bind; [auto with run|]. intros access_token.
  destruct (negb (Fetchers.truthy access_token)); [auto with run|].
  apply emits_bind.
  { apply emits_bind; [now apply emits_emit | auto with run]. }
  intros [p|]; [|auto with run].
  destruct (negb (Fetchers.truthy (sub p))); [auto with run|].
  apply emits_bind; [now apply emits_emit|]. intros _.
  apply emits_bind; [auto with run|]. intros [restli_id | code text | message];
    auto with run.
Qed.

Lemma post_and_finish_emits (results : results) (draft_post : string) :
  emits unvalidated (post_and_finish env results draft_post).
Proof.
  unfold post_and_finish, step_5_post_to_linkedin.
  apply emits_bind; [|auto with run].
  destruct (dry_run results); [auto with run | apply post_to_linkedin_emits].
Qed.

Lemma verify_then_finish_emits (results : results)
    (draft_post enhanced_content : string) :
  emits unvalidated (verify_then_finish env results draft_post enhanced_content).
Proof.
  assert (HP : forall p, unvalidated (EvAgent p)) by reflexivity.
  unfold verify_then_finish, verify_and_converge.
  apply emits_bind.
  { apply emits_bind; [apply step_4_verify_post_emits, HP|]. intros v.
    apply (retry_loop_emits unvalidated enhanced_content max_retries HP). reflexivity. }
  intros st. destruct (confidence (current_verification st) <? 100);
    [|apply post_and_finish_emits].
  unfold save_for_manual_review.
  apply emits_bind; [auto with run|]. intros now.
  apply emits_bind; [now apply emits_emit|]. intros _.
  apply emits_bind; auto with run.
Qed.

(** No run of the workflow ever calls the credential validation. *)
Lemma run_workflow_emits (dry_run : bool) (hours_back : Z)
    (skip_verification : bool) (confidence_threshold : Z) :
  emits unvalidated
    (run_workflow env dry_run hours_back skip_verification confidence_threshold).
Proof.
  assert (HP : forall p, unvalidated (EvAgent p)) by reflexivity.
  assert (HF : forall e, fetch_event e -> unvalidated e).
  { intros e He. unfold fetch_event in He. destruct e; try discriminate; reflexivity. }
  unfold run_workflow.
  apply emits_bind; [auto with run|]. intros _.
  apply emits_bind; [auto with run|]. intros now.
  apply emits_bind.
  { unfold step_1_fetch_news. apply emits_bind.
    - eapply emits_weaken; [exact HF | apply collect_articles_emits].
    - intros [|a l]; auto with run. }
  intros [articles_text|]; [|auto with run].
  apply emits_bind.
  { eapply emits_weaken; [exact HF | apply fetch_rss_feeds_emits]. }
  intros rss_articles.
  apply emits_bind.
  { eapply emits_weaken; [exact HF | apply fetch_gnews_emits]. }
  intros gnews_articles. cbv zeta.
  apply emits_bind; [apply call_agent_emits, HP|]. intros curated.
  apply emits_bind.
  { unfold step_2b_fetch_full_articles. cbv zeta.
    destruct (firstn 5 _); [auto with run|].
    apply emits_bind; [now apply emits_emit|]. intros _.
    apply emits_bind; auto with run. }
  intros enhanced_content.
  apply emits_bind; [apply call_agent_emits, HP|]. intros draft_post.
  destruct (negb skip_verification);
    [apply verify_then_finish_emits | apply post_and_finish_emits].
Qed.

End WithEnv.
End WorkflowFacts.

(** ** Publishing *)
Module PublishFacts.
Import Tools Main Spec RunFacts LinkedinPoster.

Section WithEnv.
Context {World : Type} (env : Env World).

Lemma step_5_live_run (content : string) (s : state World) :
  exists res s' t,
    step_5_post_to_linkedin env content false s = (Ok res, s') /\
    trace s' = (trace s ++ EvPublish content :: t)%list /\
    (forall v s1,
        validate_linkedin_token env s = (Ok v, s1) ->
        valid v = false ->
        success res = false /\ existsb is_ugc_post t = false).
Proof.
  unfold step_5_post_to_linkedin, post_to_linkedin, validate_linkedin_token,
    get_user_profile.
  unfold bind, emit, read, call, ret. cbn [world trace].
  destruct (Fetchers.truthy (getenv env "LINKEDIN_ACCESS_TOKEN" (world s))) eqn:Etok;
    cbn [negb world trace].
  2:{ eexists _, _, []. do 2 (split; [reflexivity|]).
      intros v s1 _ _. split; reflexivity. }
  destruct (userinfo_get env
              (Fetchers.get_or "" (getenv env "LINKEDIN_ACCESS_TOKEN" (world s)))
              (world s)) as [[p|] w] eqn:Eprof.
  2:{ eexists _, _, [EvUserinfo]. split; [reflexivity|]. cbn [trace].
      split; [now rewrite <- app_assoc|].
      intros v s1 _ _. split; reflexivity. }
  destruct (Fetchers.truthy (sub p)); cbn [negb world trace].
  2:{ eexists _, _, [EvUserinfo]. split; [reflexivity|]. cbn [trace].
      split; [now rewrite <- app_assoc|].
      intros v s1 Hv Hf. inversion Hv; subst; discriminate. }
  cbn [world trace].
  destruct (ugcPosts_post env
              (Fetchers.get_or "" (getenv env "LINKEDIN_ACCESS_TOKEN" (world s)))
              ("urn:li:person:" ++ Fetchers.get_or "" (sub p)) content w)
    as [[restli_id | code text | message] w'];
    (eexists _, _, [EvUserinfo; EvUgcPost content]; split; [reflexivity|]; cbn [trace];
     split; [now rewrite <- !app_assoc|];
     intros v s1 Hv Hf; inversion Hv; subst; discriminate).
Qed.


End WithEnv.
End PublishFacts.

(** ** Runs of the scripted environment *)
Module ScriptFacts.
Import Tools Main Spec Script.



Lemma no_articles_run_is_skipped_witness :
  fst (collect_articles Script.env 48 (after_clock Script.env (start empty_world)))
    = Ok [] /\
  exists r s' t,
    run_workflow Script.env false 48 false 85 (start empty_world) = (Ok r, s') /\
    status r = Some "skipped"%string /\
    reason r = Some "No articles found"%string /\
    trace s' = (trace (start empty_world) ++ t)%list /\
    Forall quiet_event t.
Proof.
  split; [reflexivity|].
  apply (WorkflowFacts.no_articles_run_is_skipped
           Script.env false 48 false 85 (start empty_world)).
  reflexivity.
Defined.


End ScriptFacts.

(** ** Runs: outcome and added events together *)
Module PerformFacts.
Import Tools Props.

Section Laws.
Context {World : Type}.

Lemma performs_ret {A : Type} (a : A) (Q : outcome A -> list event -> Prop) :
  Q (Ok a) [] -> performs (World := World) (ret a) Q.
Proof. intros H s. exists []. cbn. rewrite app_nil_r. now split. Qed.

Lemma performs_raise {A : Type} (Q : outcome A -> list event -> Prop) :
  Q Raised [] -> performs (World := World) raise Q.
Proof. intros H s. exists []. cbn. rewrite app_nil_r. now split. Qed.

Lemma performs_emit (e : event) (Q : outcome unit -> list event -> Prop) :
  Q (Ok tt) [e] -> performs (World := World) (emit e) Q.
Proof. intros H s. exists [e]. cbn. now split. Qed.

Lemma performs_call {A : Type} (f : World -> A * World)
    (Q : outcome A -> list event -> Prop) :
  (forall a, Q (Ok a) []) -> performs (call f) Q.
Proof.
  intros H s. exists []. unfold call. destruct (f (world s)) as [a w].
  cbn. rewrite app_nil_r. split; [reflexivity | apply H].
Qed.

Lemma performs_read {A : Type} (f : World -> A)
    (Q : outcome A -> list event -> Prop) :
  (forall a, Q (Ok a) []) -> performs (read f) Q.
Proof. intros H s. exists []. cbn. rewrite app_nil_r. split; [reflexivity | apply H]. Qed.

Lemma performs_update (f : World -> World) (Q : outcome unit -> list event -> Prop) :
  Q (Ok tt) [] -> performs (update f) Q.
Proof. intros H s. exists []. cbn. rewrite app_nil_r. now split. Qed.

(** Sequencing: what [c] added comes first; if [c] raises, so does
    the whole. *)
Lemma performs_bind {A B : Type} (c : M World A) (k : A -> M World B)
    (Q1 : outcome A -> list event -> Prop) (Q : outcome B -> list event -> Prop) :
  performs c Q1 ->
  (forall t1, Q1 Raised t1 -> Q Raised t1) ->
  (forall a t1, Q1 (Ok a) t1 -> performs (k a) (fun o t2 => Q o (t1 ++ t2)%list)) ->
  performs (bind c k) Q.
Proof.
  intros Hc Hr Hk s. destruct (Hc s) as (t1 & E1 & H1).
  unfold bind. destruct (c s) as [[a|] s1]; cbn [fst snd] in *.
  - destruct (Hk a t1 H1 s1) as (t2 & E2 & H2).
    exists (t1 ++ t2)%list. split; [now rewrite E2, E1, app_assoc | exact H2].
  - exists t1. split; [exact E1 | apply Hr, H1].
Qed.

Lemma performs_weaken {A : Type} (c : M World A)
    (Q1 Q2 : outcome A -> list event -> Prop) :
  performs c Q1 -> (forall o t, Q1 o t -> Q2 o t) -> performs c Q2.
Proof.
  intros Hc HQ s. destruct (Hc s) as (t & E & H).
  exists t. split; [exact E | apply HQ, H].
Qed.

(** Two descriptions of the same computation hold together. *)
Lemma performs_both {A : Type} (c : M World A)
    (Q1 Q2 : outcome A -> list event -> Prop) :
  performs c Q1 -> performs c Q2 -> performs c (fun o t => Q1 o t /\ Q2 o t).
Proof.
  intros H1 H2 s. destruct (H1 s) as (t1 & E1 & P1). destruct (H2 s) as (t2 & E2 & P2).
  rewrite E1 in E2. apply app_inv_head in E2. subst t2.
  exists t1. repeat split; assumption.
Qed.

Lemma performs_ext {A : Type} (c c' : M World A)
    (Q : outcome A -> list event -> Prop) :
  (forall s, c s = c' s) -> performs c' Q -> performs c Q.
Proof. intros E H s. rewrite E. apply H. Qed.

(** From the two older forms. *)
Lemma performs_of_emits {A : Type} (c : M World A) (P : event -> Prop) :
  Spec.emits P c -> performs c (fun _ t => Forall P t).
Proof. intros H s. exact (H s). Qed.

Lemma returns_fst {A : Type} (c : M World A) (P : A -> Prop) (s : state World) :
  Spec.returns P c -> exists a, fst (c s) = Ok a /\ P a.
Proof. intros H. destruct (H s) as (a & s' & E & Ha). exists a. now rewrite E. Qed.

End Laws.

Ltac seq lemma := eapply performs_bind; [eapply lemma | |].

End PerformFacts.

(** ** The collectors, request by request *)
Module CollectFacts.
Import Tools Fetchers Spec Props PerformFacts.

Section WithEnv.
Context {World : Type} (env : Env World).

Lemma rss_entries_performs (source_name : string) (cutoff_time : Z)
    (entries : list entry) (articles : list article) :
  performs (rss_entries env source_name cutoff_time entries articles)
    (fun o t =>
       t = [] /\
       exists more, o = Ok (articles ++ more)%list /\
                    Forall (recent_from env source_name cutoff_time) more /\
                    (List.length more <= List.length entries)%nat).
Proof.
  revert articles. induction entries as [|e rest IH]; intros articles; cbn [rss_entries].
  - apply performs_ret. split; [reflexivity|]. exists []. rewrite app_nil_r.
    repeat split; [constructor | cbn; lia].
  - eapply performs_bind with (Q1 := fun o t => t = [] /\ exists d, o = Ok d).
    + unfold parse_date. destruct (published_parsed e) as [d|].
      { apply performs_ret. split; [reflexivity | now exists d]. }
      destruct (updated_parsed e) as [d|].
      { apply performs_ret. split; [reflexivity | now exists d]. }
      apply performs_call. intros d. split; [reflexivity | now exists d].
    + intros t1 [_ [d Hd]]. discriminate.
    + intros pub_date t1 [-> _]. cbn [app].
      destruct (Z.leb_spec cutoff_time pub_date) as [Hle | Hgt].
      * eapply performs_weaken; [apply IH|].
        intros o t [-> (more & -> & Hall & Hlen)]. split; [reflexivity|].
        eexists (_ :: more). rewrite <- app_assoc. split; [reflexivity|].
        split; [|cbn; lia].
        constructor; [|exact Hall]. split; [reflexivity|].
        exists pub_date. split; [reflexivity | exact Hle].
      * eapply performs_weaken; [apply IH|].
        intros o t [-> (more & -> & Hall & Hlen)]. split; [reflexivity|].
        exists more. repeat split; [exact Hall | cbn; lia].
Qed.

(** Every feed is requested, once and in order, whether or not the
    ones before it could be read. *)
Lemma rss_sources_performs (feeds : list (string * string)) (cutoff_time : Z)
    (articles : list article) :
  performs (rss_sources env feeds cutoff_time articles)
    (fun o t =>
       t = map EvFeed (map snd feeds) /\
       exists more,
         o = Ok (articles ++ more)%list /\
         Forall (fun a => exists source_name,
                     In source_name (map fst feeds) /\
                     recent_from env source_name cutoff_time a) more).
Proof.
  revert articles. induction feeds as [|[source_name feed_url] rest IH];
    intros articles; cbn [rss_sources].
  - apply performs_ret. split; [reflexivity|]. exists []. rewrite app_nil_r.
    split; [reflexivity | constructor].
  - eapply performs_bind with (Q1 := fun o t => t = [EvFeed feed_url] /\ o = Ok tt).
    { apply performs_emit. now split. }
    { intros t1 [_ H]. discriminate. }
    intros _ t1 [-> _].
    eapply performs_bind with (Q1 := fun o t => t = [] /\ exists a, o = Ok a).
    { apply performs_call. intros a. split; [reflexivity | now exists a]. }
    { intros t1 [_ [a H]]. discriminate. }
    intros feed t1 [-> _]. cbn [app map snd fst].
    assert (Hw : forall l,
               Forall (fun a => exists source_name0,
                           In source_name0 (map fst rest) /\
                           recent_from env source_name0 cutoff_time a) l ->
               Forall (fun a => exists source_name0,
                           In source_name0 (source_name :: map fst rest) /\
                           recent_from env source_name0 cutoff_time a) l).
    { intros l. apply Forall_impl. intros a (n & Hn & Ha). exists n. split; [now right | exact Ha]. }
    destruct feed as [entries|].
    + eapply performs_bind; [apply rss_entries_performs | |].
      { intros t1 [_ (more & H & _)]. discriminate. }
      intros articles' t1 [-> (more & Hmore & Hall & _)]. injection Hmore as ->.
      eapply performs_weaken; [apply IH|].
      intros o t [-> (more' & -> & Hall')]. split; [reflexivity|].
      exists (more ++ more')%list. rewrite app_assoc. split; [reflexivity|].
      apply Forall_app. split; [|apply Hw, Hall'].
      eapply Forall_impl; [|exact Hall]. intros a Ha. exists source_name.
      split; [now left | exact Ha].
    + eapply performs_weaken; [apply IH|].
      intros o t [-> (more' & -> & Hall')]. split; [reflexivity|].
      exists more'. split; [reflexivity | apply Hw, Hall'].
Qed.

Lemma fetch_rss_feeds_performs (hours_back : Z) :
  performs (fetch_rss_feeds env hours_back)
    (fun o t => t = feed_requests /\ exists l, o = Ok l).
Proof.
  unfold fetch_rss_feeds.
  eapply performs_bind with (Q1 := fun o t => t = [] /\ exists a, o = Ok a).
  { apply performs_call. intros a. split; [reflexivity | now exists a]. }
  { intros t1 [_ [a H]]. discriminate. }
  intros now t1 [-> _]. cbn [app].
  eapply performs_bind; [apply rss_sources_performs | |].
  { intros t1 [_ (more & H & _)]. discriminate. }
  intros articles t1 [-> _].
  apply performs_ret. rewrite app_nil_r. split; [reflexivity | eauto].
Qed.

Lemma gnews_items_performs (items : list gnews_item) (seen_urls : list string)
    (articles : list article) :
  performs (gnews_items env items seen_urls articles)
    (fun o t => t = [] /\ exists l, o = Ok l).
Proof.
  revert seen_urls articles.
  induction items as [|item rest IH]; intros seen_urls articles; cbn [gnews_items].
  - apply performs_ret. split; [reflexivity | eauto].
  - destruct (existsb _ seen_urls); [apply IH|].
    eapply performs_bind with (Q1 := fun o t => t = [] /\ exists a, o = Ok a).
    { apply performs_call. intros a. split; [reflexivity | now exists a]. }
    { intros t1 [_ [a H]]. discriminate. }
    intros now t1 [-> _]. cbn [app]. apply IH.
Qed.

(** The news collector makes at most one request. *)
Lemma fetch_gnews_performs (api_key : option string) (max_results : Z) :
  performs (fetch_gnews env api_key max_results)
    (fun o t => (t = [] \/ t = [EvGnews]) /\ exists l, o = Ok l).
Proof.
  unfold fetch_gnews.
  eapply performs_bind with (Q1 := fun o t => t = [] /\ exists a, o = Ok a).
  { destruct (truthy api_key).
    - apply performs_ret. split; [reflexivity | eauto].
    - apply performs_read. intros a. split; [reflexivity | eauto]. }
  { intros t1 [_ [a H]]. discriminate. }
  intros [key|] t1 [-> _]; cbn [app].
  2:{ apply performs_ret. split; [now left | eauto]. }
  destruct (String.eqb key "").
  { apply performs_ret. split; [now left | eauto]. }
  eapply performs_bind with (Q1 := fun o t => t = [EvGnews] /\ o = Ok tt).
  { apply performs_emit. now split. }
  { intros t1 [_ H]. discriminate. }
  intros _ t1 [-> _].
  eapply performs_bind with (Q1 := fun o t => t = [] /\ exists a, o = Ok a).
  { apply performs_call. intros a. split; [reflexivity | eauto]. }
  { intros t1 [_ [a H]]. discriminate. }
  intros [items|] t1 [-> _]; cbn [app].
  - eapply performs_weaken; [apply gnews_items_performs|].
    intros o t [-> H]. split; [now right | exact H].
  - apply performs_ret. split; [now right | eauto].
Qed.

Lemma collect_articles_performs (hours_back : Z) :
  performs (Main.collect_articles env hours_back)
    (fun o t => collection t /\ exists l, o = Ok l).
Proof.
  unfold Main.collect_articles.
  eapply performs_bind; [apply fetch_rss_feeds_performs | |].
  { intros t1 [_ [l H]]. discriminate. }
  intros rss t1 [-> _].
  eapply performs_bind; [apply fetch_gnews_performs | |].
  { intros t1 [_ [l H]]. discriminate. }
  intros gnews t1 [Ht _].
  apply performs_ret. rewrite app_nil_r. split; [|eauto].
  destruct Ht as [-> | ->]; [left; now rewrite app_nil_r | now right].
Qed.

End WithEnv.
End CollectFacts.

(** ** The shape of a run of the workflow *)
Module ShapeFacts.
Import Tools Main Spec Props PerformFacts CollectFacts.

Lemma count_events_cons (f : event -> bool) (e : event) (t : list event) :
  count_events f (e :: t) = ((if f e then 1 else 0) + count_events f t)%nat.
Proof. unfold count_events. cbn [filter]. destruct (f e); reflexivity. Qed.

Lemma last_verify_snoc (steps : list (string * step_record)) (key : string)
    (v : step_record) :
  last_verify (steps ++ [(key, v)]) =
  match v with
  | StepVerify x => Some x
  | _ => last_verify steps
  end.
Proof. unfold last_verify. rewrite fold_left_app. reflexivity. Qed.

Lemma loop_event_prep (t : list event) :
  Forall loop_event t -> Forall (prep_event false) t.
Proof.
  apply Forall_impl. intros e He.
  destruct e as [| |[]| | | | | |]; cbn; try reflexivity;
    destruct He as [(H & _) | (_ & H & _)]; discriminate.
Qed.

Lemma loop_event_counts (t : list event) :
  Forall loop_event t ->
  count_events is_fetch_articles t = 0%nat /\
  count_events is_linkedin t = 0%nat /\
  count_events is_write t = 0%nat /\
  count_events is_feed t = 0%nat.
Proof.
  induction 1 as [|e t He _ IH]; [repeat split|].
  rewrite !count_events_cons.
  destruct e; try (destruct He as [(H & _) | (_ & H & _)]; discriminate).
  exact IH.
Qed.

Section WithEnv.
Context {World : Type} (env : Env World).

Lemma call_agent_performs (p : prompt) :
  performs (call_agent env p) (fun _ t => t = [EvAgent p]).
Proof.
  intros s. destruct (WorkflowFacts.call_agent_run env p s) as (s' & Ht & [E | (c & E)]);
    exists [EvAgent p]; rewrite E; now split.
Qed.

Lemma step_4_verify_post_performs (draft_post source_articles : string) :
  performs (step_4_verify_post env draft_post source_articles)
    (fun o t =>
       t = [EvAgent (VerifierPrompt draft_post source_articles)] /\
       forall v, o = Ok v -> 0 <= confidence v <= 100).
Proof.
  intros s.
  destruct (WorkflowFacts.step_4_verify_post_run env draft_post source_articles s)
    as (s' & Ht & [E | (v & E & Hv)]);
    exists [EvAgent (VerifierPrompt draft_post source_articles)]; rewrite E;
    (split; [exact Ht|]); (split; [reflexivity|]); cbn [fst].
  - intros v H. discriminate.
  - intros v' H. injection H as <-. exact Hv.
Qed.

(** Step 2b fetches nothing, or between one and five URLs. *)
Lemma step_2b_performs (curated_text : string) (all_articles : list article) :
  performs (step_2b_fetch_full_articles env curated_text all_articles)
    (fun o t =>
       (exists enhanced, o = Ok enhanced) /\
       (t = [] \/
        exists urls, t = [EvFetchArticles urls] /\ (1 <= List.length urls <= 5)%nat)).
Proof.
  unfold step_2b_fetch_full_articles. cbv zeta.
  match goal with |- context [firstn 5 ?l] =>
    pose proof (firstn_le_length 5 l) as Hlen; destruct (firstn 5 l) as [|u urls]
  end.
  - apply performs_ret. split; [eauto | now left].
  - eapply performs_bind with (Q1 := fun o t => t = [EvFetchArticles (u :: urls)] /\ o = Ok tt).
    { apply performs_emit. now split. }
    { intros t1 [_ H]. discriminate. }
    intros _ t1 [-> _].
    eapply performs_bind with (Q1 := fun o t => t = [] /\ exists a, o = Ok a).
    { apply performs_call. intros a. split; [reflexivity | eauto]. }
    { intros t1 [_ [a H]]. discriminate. }
    intros full_content t1 [-> _].
    apply performs_ret. split; [eauto|]. right. exists (u :: urls).
    split; [reflexivity|]. cbn [List.length] in *. lia.
Qed.

(** The publish operation: the call, then the profile request, then
    the post request; it stops at the first that fails. *)
Lemma post_to_linkedin_performs (content : string) :
  performs (LinkedinPoster.post_to_linkedin env content)
    (fun o t => exists result, o = Ok result /\ publication false content result t).
Proof.
  intros s. unfold LinkedinPoster.post_to_linkedin, LinkedinPoster.get_user_profile.
  unfold bind, emit, read, call, ret. cbn [world trace].
  destruct (Fetchers.truthy (getenv env "LINKEDIN_ACCESS_TOKEN" (world s)));
    cbn [negb world trace fst snd].
  2:{ exists [EvPublish content]. split; [reflexivity|].
      eexists. split; [reflexivity|]. split; [reflexivity|]. left. now split. }
  destruct (userinfo_get env _ (world s)) as [[p|] w]; cbn [world trace fst snd].
  2:{ exists [EvPublish content; EvUserinfo]. split; [now rewrite <- app_assoc|].
      eexists. split; [reflexivity|]. split; [reflexivity|]. right; left. now split. }
  destruct (Fetchers.truthy (sub p)); cbn [negb world trace fst snd].
  2:{ exists [EvPublish content; EvUserinfo]. split; [now rewrite <- app_assoc|].
      eexists. split; [reflexivity|]. split; [reflexivity|]. right; left. now split. }
  destruct (ugcPosts_post env _ _ content w) as [[restli_id | code text | message] w'];
    cbn [world trace fst snd];
    (exists [EvPublish content; EvUserinfo; EvUgcPost content];
     split; [now rewrite <- !app_assoc|];
     eexists; split; [reflexivity|]; split; [reflexivity|]; right; right; reflexivity).
Qed.

Lemma post_and_finish_performs (results : results) (draft_post : string) :
  performs (post_and_finish env results draft_post)
    (fun o t =>
       exists r result,
         o = Ok r /\
         publication (dry_run results) draft_post result t /\
         status r = Some (if LinkedinPoster.success result
                          then "success" else "failed")%string /\
         steps r = (steps results ++ [("post"%string, StepPost result)])%list /\
         dry_run r = dry_run results /\
         draft_file r = draft_file results).
Proof.
  unfold post_and_finish, step_5_post_to_linkedin.
  eapply performs_bind with
    (Q1 := fun o t => exists result,
               o = Ok result /\ publication (dry_run results) draft_post result t).
  - destruct (dry_run results).
    + apply performs_ret. eexists. split; [reflexivity|]. repeat split.
    + apply post_to_linkedin_performs.
  - intros t1 (result & H & _). discriminate.
  - intros result t1 (result' & Hr & Hpub). injection Hr as <-.
    apply performs_ret. rewrite app_nil_r.
    eexists _, result. split; [reflexivity|]. repeat split. exact Hpub.
Qed.

Lemma save_for_manual_review_performs (results : results) (draft_post : string)
    (v : verdict) :
  performs (save_for_manual_review env results draft_post v)
    (fun o t =>
       exists r path,
         o = Ok r /\
         t = [EvWriteFile path (draft_file_content draft_post (report v))] /\
         status r = Some "draft_saved"%string /\
         draft_file r = Some path /\
         final_confidence r = Some (confidence v) /\
         steps r = steps results /\
         dry_run r = dry_run results).
Proof.
  intros s. unfold save_for_manual_review, bind, call, emit, update, ret.
  cbn [world trace]. destruct (datetime_now env (world s)) as [now w].
  cbn [world trace fst snd].
  eexists. split; [reflexivity|]. eexists _, _. split; [reflexivity|]. repeat split.
Qed.

(** The loop keeps the flags of [results], records every verdict,
    and ends on a verification of the draft it returns. *)
Lemma retry_loop_keeps (enhanced_content : string) (n : nat) :
  forall st : loop_state,
    (retry_count st + n = max_retries)%nat ->
    last_verify (steps (loop_results st)) = Some (current_verification st) ->
    performs (retry_loop env enhanced_content st)
      (fun o t =>
         match o with
         | Ok st' =>
             dry_run (loop_results st') = dry_run (loop_results st) /\
             draft_file (loop_results st') = draft_file (loop_results st) /\
             last_verify (steps (loop_results st')) = Some (current_verification st') /\
             ((t = [] /\ Main.draft_post st' = Main.draft_post st) \/
              exists pre,
                t = (pre ++ [EvAgent (VerifierPrompt (Main.draft_post st')
                                        enhanced_content)])%list)
         | Raised => True
         end).
Proof.
  induction n as [|n IH]; intros st Hn Hlast;
    (eapply performs_ext; [intros s; apply WorkflowFacts.retry_loop_unfold|]).
  - replace (loop_guard st) with false.
    + apply (performs_ret st). repeat split; [exact Hlast | now left].
    + unfold loop_guard. replace (retry_count st <? max_retries)%nat with false.
      * now rewrite andb_false_r.
      * symmetry. apply Nat.ltb_ge. lia.
  - destruct (loop_guard st).
    2:{ apply (performs_ret st). repeat split; [exact Hlast | now left]. }
    eapply performs_bind; [apply call_agent_performs | |].
    { intros t1 _. exact I. }
    intros d t1 ->.
    eapply performs_bind; [apply step_4_verify_post_performs | |].
    { intros t1 _. exact I. }
    intros v t1 [-> _]. cbv zeta.
    destruct (confidence v =? 100).
    + apply performs_ret. cbn [loop_results Main.draft_post current_verification].
      cbn [set_step dry_run draft_file steps]. rewrite last_verify_snoc.
      repeat split. right. eexists [_]. reflexivity.
    + eapply performs_weaken.
      * apply IH.
        -- cbn [retry_count]. lia.
        -- cbn [loop_results current_verification set_step steps].
           now rewrite last_verify_snoc.
      * intros [st'|] t; [|trivial].
        cbn [loop_results Main.draft_post current_verification set_step dry_run
               draft_file steps].
        intros (Hd & Hf & Hl & Ht). repeat split; try assumption.
        right. destruct Ht as [[-> Hdp] | (pre & ->)].
        -- rewrite Hdp. eexists [_]. reflexivity.
        -- eexists (_ :: _ :: pre). reflexivity.
Qed.

(** Step 4 as a whole: the events are rewrites and verifications
    within the bounds; a run that comes back has just verified the
    draft it returns. *)
Lemma verify_and_converge_performs (results : results)
    (draft_post enhanced_content : string) :
  performs (verify_and_converge env results draft_post enhanced_content)
    (fun o t =>
       Forall loop_event t /\
       (count_events is_rewrite t <= max_retries)%nat /\
       (count_events is_verify t <= max_retries + 1)%nat /\
       match o with
       | Ok st =>
           dry_run (loop_results st) = dry_run results /\
           draft_file (loop_results st) = draft_file results /\
           last_verify (steps (loop_results st)) = Some (current_verification st) /\
           confidence (current_verification st) <= 100 /\
           exists pre,
             t = (pre ++ [EvAgent (VerifierPrompt (Main.draft_post st)
                                     enhanced_content)])%list
       | Raised => True
       end).
Proof.
  assert (H1 : performs (verify_and_converge env results draft_post enhanced_content)
                 (fun o t =>
                    Forall loop_event t /\
                    (count_events is_rewrite t <= max_retries)%nat /\
                    (count_events is_verify t <= max_retries + 1)%nat /\
                    match o with
                    | Ok st => confidence (current_verification st) <= 100
                    | Raised => True
                    end)).
  { intros s.
    destruct (WorkflowFacts.verify_and_converge_run env results draft_post
                enhanced_content s) as (t & Ht & Hev & Hrw & Hvf & Hres).
    exists t. split; [exact Ht|]. repeat (split; [assumption|]).
    destruct (fst (verify_and_converge env results draft_post enhanced_content s));
      [|exact I].
    destruct Hres as (_ & _ & [H | [H _]]); lia. }
  assert (H2 : performs (verify_and_converge env results draft_post enhanced_content)
                 (fun o t =>
                    match o with
                    | Ok st =>
                        dry_run (loop_results st) = dry_run results /\
                        draft_file (loop_results st) = draft_file results /\
                        last_verify (steps (loop_results st))
                          = Some (current_verification st) /\
                        exists pre,
                          t = (pre ++ [EvAgent (VerifierPrompt (Main.draft_post st)
                                                  enhanced_content)])%list
                    | Raised => True
                    end)).
  { unfold verify_and_converge.
    eapply performs_bind; [apply step_4_verify_post_performs | |].
    { intros t1 _. exact I. }
    intros v t1 [-> _].
    eapply performs_weaken.
    - apply (retry_loop_keeps enhanced_content max_retries); [reflexivity|].
      cbn [loop_results current_verification set_step steps].
      now rewrite last_verify_snoc.
    - intros [st'|] t; [|trivial].
      cbn [loop_results Main.draft_post current_verification set_step dry_run
             draft_file steps].
      intros (Hd & Hf & Hl & Ht). repeat split; try assumption.
      destruct Ht as [[-> Hdp] | (pre & ->)].
      + rewrite Hdp. exists []. reflexivity.
      + eexists (_ :: pre). reflexivity. }
  eapply performs_weaken; [apply (performs_both _ _ _ H1 H2)|].
  intros [st|] t [(Hev & Hrw & Hvf & Hc) Hk]; repeat (split; [assumption|]); [|exact I].
  destruct Hk as (Hd & Hf & Hl & Hpre). repeat split; assumption.
Qed.

Lemma step_1_fetch_news_performs (hours_back : Z) :
  performs (step_1_fetch_news env hours_back)
    (fun o t => collection t /\ exists text, o = Ok text).
Proof.
  unfold step_1_fetch_news.
  eapply performs_bind; [apply collect_articles_performs | |].
  { intros t1 [_ [l H]]. discriminate. }
  intros all_articles t1 [Hc _].
  destruct all_articles; apply performs_ret; rewrite app_nil_r; split; eauto.
Qed.

End WithEnv.

Lemma run_shape_eq (dry_run skip_verification : bool) (o : outcome results)
    (t t' : list event) :
  run_shape dry_run skip_verification o t -> t = t' ->
  run_shape dry_run skip_verification o t'.
Proof. now intros H <-. Qed.

(** The events from the curation to the end of the loop. *)
Lemma preparation_through (skip_verification : bool) (articles_text curated : string)
    (full loop : list event) :
  (full = [] \/
   exists urls, full = [EvFetchArticles urls] /\ (1 <= List.length urls <= 5)%nat) ->
  Forall loop_event loop ->
  (count_events is_rewrite loop <= max_retries)%nat ->
  (count_events is_verify loop <= max_retries + 1)%nat ->
  (skip_verification = true -> loop = []) ->
  preparation skip_verification
    (EvAgent (CuratorPrompt articles_text)
       :: full ++ EvAgent (WriterPrompt curated) :: loop).
Proof.
  intros Hfull Hloop Hrw Hvf Hskip.
  destruct (loop_event_counts loop Hloop) as (Hfa & _).
  assert (Hprep : Forall (prep_event skip_verification) loop).
  { destruct skip_verification; [rewrite Hskip by reflexivity; constructor|].
    apply loop_event_prep, Hloop. }
  unfold preparation.
  destruct Hfull as [-> | (urls & -> & Hlen)]; cbn [app];
    rewrite !count_events_cons; cbn [is_fetch_articles is_rewrite is_verify is_agent].
  - split; [constructor; [exact I|]; constructor; [exact I | exact Hprep]|].
    split; [lia|]. split; [lia|]. split; [lia|].
    intros Hs. rewrite (Hskip Hs). cbn. lia.
  - split; [constructor; [exact I|]; constructor; [exact Hlen|];
            constructor; [exact I | exact Hprep]|].
    split; [lia|]. split; [lia|]. split; [lia|].
    intros Hs. rewrite (Hskip Hs). cbn. lia.
Qed.

Lemma preparation_curator (skip_verification : bool) (articles_text : string) :
  preparation skip_verification [EvAgent (CuratorPrompt articles_text)].
Proof.
  unfold preparation. split; [repeat constructor|]. cbn. repeat split; lia.
Qed.

Lemma preparation_prefix (skip_verification : bool) (articles_text : string)
    (full : list event) :
  (full = [] \/
   exists urls, full = [EvFetchArticles urls] /\ (1 <= List.length urls <= 5)%nat) ->
  preparation skip_verification (EvAgent (CuratorPrompt articles_text) :: full).
Proof.
  intros [-> | (urls & -> & Hlen)]; unfold preparation.
  - split; [constructor; [exact I | constructor]|]. cbn. repeat split; lia.
  - split; [constructor; [exact I|]; constructor; [exact Hlen | constructor]|].
    cbn. repeat split; lia.
Qed.

Ltac list_eq :=
  rewrite <- ?app_assoc; cbn [app]; rewrite <- ?app_assoc; cbn [app];
  rewrite ?app_nil_r; reflexivity.

(** A list of calls of the agent, after a call of the agent, ends
    with a call of the agent. *)
Lemma ends_with_agent (before : list event) (p : prompt) (loop : list event) :
  Forall loop_event loop ->
  exists pre q, (before ++ EvAgent p :: loop)%list = (pre ++ [EvAgent q])%list.
Proof.
  intros Hev. destruct loop as [|e loop] using rev_ind.
  - now exists before, p.
  - apply Forall_app in Hev. destruct Hev as [_ Hx].
    apply Forall_inv in Hx.
    destruct e as [| |q| | | | | |];
      try (destruct Hx as [(H & _) | (_ & H & _)]; discriminate).
    exists (before ++ EvAgent p :: loop)%list, q.
    rewrite <- app_assoc. reflexivity.
Qed.

Section Shape.
Context {World : Type} (env : Env World).

(** Every run of the workflow has one of the four shapes. *)
Lemma run_workflow_performs (dry_run : bool) (hours_back : Z)
    (skip_verification : bool) (confidence_threshold : Z) :
  performs (run_workflow env dry_run hours_back skip_verification confidence_threshold)
    (run_shape dry_run skip_verification).
Proof.
  unfold run_workflow.
  eapply performs_bind with (Q1 := fun o t => t = [] /\ exists a, o = Ok a).
  { apply performs_call. intros a. split; [reflexivity | eauto]. }
  { intros t1 [_ [a H]]. discriminate. }
  intros _ t1 [-> _]. cbn [app].
  eapply performs_bind with (Q1 := fun o t => t = [] /\ exists a, o = Ok a).
  { apply performs_call. intros a. split; [reflexivity | eauto]. }
  { intros t1 [_ [a H]]. discriminate. }
  intros now t1 [-> _]. cbn [app]. cbv zeta.
  eapply performs_bind; [apply step_1_fetch_news_performs | |].
  { intros t1 [_ [a H]]. discriminate. }
  intros [articles_text|] f1 [Hf1 _].
  2:{ apply performs_ret. rewrite app_nil_r. now constructor. }
  eapply performs_bind; [apply fetch_rss_feeds_performs | |].
  { intros t1 [_ [a H]]. discriminate. }
  intros rss_articles t1 [-> _].
  eapply performs_bind; [apply fetch_gnews_performs | |].
  { intros t1 [_ [a H]]. discriminate. }
  intros gnews_articles g [Hg _].
  assert (Hf2 : collection (feed_requests ++ g)).
  { destruct Hg as [-> | ->]; [left; now rewrite app_nil_r | now right]. }
  eapply performs_bind; [apply call_agent_performs | |].
  { intros t1 ->.
    eapply run_shape_eq;
      [apply (RunRaised dry_run skip_verification f1 (feed_requests ++ g)
                [EvAgent (CuratorPrompt articles_text)] Hf1 Hf2
                (preparation_curator _ _));
       now exists [], (CuratorPrompt articles_text)|].
    list_eq. }
  intros curated t1 ->.
  eapply performs_bind; [apply step_2b_performs | |].
  { intros t1 [[a H] _]. discriminate. }
  intros enhanced_content full [_ Hfull].
  assert (Hwritten : forall skip,
             preparation skip
               (EvAgent (CuratorPrompt articles_text)
                  :: full ++ [EvAgent (WriterPrompt enhanced_content)])).
  { intros skip.
    apply (preparation_through skip articles_text enhanced_content full []);
      [exact Hfull | constructor | cbn; lia | cbn; lia | reflexivity]. }
  eapply performs_bind; [apply call_agent_performs | |].
  { intros t1 ->.
    eapply run_shape_eq;
      [apply (RunRaised dry_run skip_verification f1 (feed_requests ++ g) _
                Hf1 Hf2 (Hwritten skip_verification));
       now exists (EvAgent (CuratorPrompt articles_text) :: full),
                  (WriterPrompt enhanced_content)|].
    list_eq. }
  intros draft_post t1 ->.
  match goal with |- performs (if negb skip_verification then _ else post_and_finish env ?res _) _ =>
    set (results0 := res)
  end.
  destruct skip_verification; cbn [negb].
  - (* without verification *)
    eapply performs_weaken; [apply post_and_finish_performs|].
    intros o pub (r & result & -> & Hpub & Hst & Hsteps & Hdry & Hfile).
    eapply run_shape_eq;
      [apply (RunPosted dry_run true r f1 (feed_requests ++ g)
                (EvAgent (CuratorPrompt articles_text)
                   :: full ++ [EvAgent (WriterPrompt enhanced_content)])
                pub draft_post result Hf1 Hf2)|].
    + apply Hwritten.
    + exact Hpub.
    + exact Hst.
    + rewrite Hfile. reflexivity.
    + rewrite Hdry. reflexivity.
    + split.
      * rewrite Hsteps. reflexivity.
      * exists (EvAgent (CuratorPrompt articles_text) :: full), enhanced_content.
        reflexivity.
    + list_eq.
  - (* with verification *)
    unfold verify_then_finish.
    match goal with |- performs (bind (verify_and_converge env ?res _ _) _) _ =>
      set (results1 := res)
    end.
    eapply performs_bind; [apply verify_and_converge_performs | |].
    { intros loop (Hev & Hrw & Hvf & _).
      eapply run_shape_eq;
        [apply (RunRaised dry_run false f1 (feed_requests ++ g)
                  (EvAgent (CuratorPrompt articles_text)
                     :: full ++ EvAgent (WriterPrompt enhanced_content) :: loop)
                  Hf1 Hf2)|].
      - apply preparation_through; try assumption; discriminate.
      - apply (ends_with_agent (EvAgent (CuratorPrompt articles_text) :: full)
                 (WriterPrompt enhanced_content) loop Hev).
      - list_eq. }
    intros st loop (Hev & Hrw & Hvf & Hdry & Hfile & Hlast & Hconf & pre & Hloop).
    assert (Hprep : preparation false
                      (EvAgent (CuratorPrompt articles_text)
                         :: full ++ EvAgent (WriterPrompt enhanced_content) :: loop)).
    { apply preparation_through; try assumption; discriminate. }
    destruct (Z.ltb_spec (confidence (current_verification st)) 100) as [Hlow | Hfull100].
    + eapply performs_weaken; [apply save_for_manual_review_performs|].
      intros o t (r & path & -> & -> & Hst & Hdf & Hfc & Hsteps & Hd).
      eapply run_shape_eq;
        [apply (RunSaved dry_run false r f1 (feed_requests ++ g)
                  (EvAgent (CuratorPrompt articles_text)
                     :: full ++ EvAgent (WriterPrompt enhanced_content) :: pre)
                  (Main.draft_post st) enhanced_content path
                  (current_verification st) eq_refl Hf1 Hf2)|].
      * eapply eq_ind; [exact Hprep|]. rewrite Hloop.
        list_eq.
      * exact Hst.
      * exact Hdf.
      * exact Hfc.
      * exact Hlow.
      * now rewrite Hsteps.
      * now rewrite Hd, Hdry.
      * rewrite Hloop. list_eq.
    + eapply performs_weaken; [apply post_and_finish_performs|].
      intros o pub (r & result & -> & Hpub & Hst & Hsteps & Hd & Hf).
      eapply run_shape_eq;
        [apply (RunPosted dry_run false r f1 (feed_requests ++ g)
                  (EvAgent (CuratorPrompt articles_text)
                     :: full ++ EvAgent (WriterPrompt enhanced_content) :: loop)
                  pub (Main.draft_post st) result Hf1 Hf2 Hprep)|].
      * now rewrite Hdry in Hpub.
      * exact Hst.
      * now rewrite Hf, Hfile.
      * now rewrite Hd, Hdry.
      * exists (EvAgent (CuratorPrompt articles_text)
                  :: full ++ EvAgent (WriterPrompt enhanced_content) :: pre),
          enhanced_content, (current_verification st).
        split; [rewrite Hloop; list_eq|].
        split; [|lia].
        rewrite Hsteps, last_verify_snoc. exact Hlast.
      * list_eq.
Qed.

End Shape.
End ShapeFacts.

(** ** What a run of the workflow does and never does *)
Module RunProperties.
Import Tools Main Spec Props PerformFacts CollectFacts ShapeFacts.

Lemma collection_forall (P : event -> Prop) (f : list event) :
  collection f -> (forall u, P (EvFeed u)) -> P EvGnews -> Forall P f.
Proof.
  intros Hf Hfeed Hnews.
  assert (Hreq : Forall P feed_requests).
  { unfold feed_requests. apply Forall_forall. intros e He.
    apply in_map_iff in He. destruct He as (u & <- & _). apply Hfeed. }
  destruct Hf as [-> | ->]; [exact Hreq|].
  apply Forall_app. split; [exact Hreq | now constructor].
Qed.

Lemma preparation_forall (P : event -> Prop) (skip : bool) (prep : list event) :
  preparation skip prep ->
  (forall p, prep_event skip (EvAgent p) -> P (EvAgent p)) ->
  (forall urls, (1 <= List.length urls <= 5)%nat -> P (EvFetchArticles urls)) ->
  Forall P prep.
Proof.
  intros [Hall _] Hagent Hfetch. eapply Forall_impl; [|exact Hall].
  intros e He. destruct e; try contradiction; [apply Hagent | apply Hfetch]; exact He.
Qed.

Lemma publication_forall (P : event -> Prop) (dry : bool) (content : string)
    (result : LinkedinPoster.post_result) (pub : list event) :
  publication dry content result pub ->
  (dry = false -> P (EvPublish content) /\ P EvUserinfo /\ P (EvUgcPost content)) ->
  Forall P pub.
Proof.
  unfold publication. destruct dry.
  - intros [-> _] _. constructor.
  - intros [_ H] HP. destruct (HP eq_refl) as (H1 & H2 & H3).
    destruct H as [[-> _] | [[-> _] | ->]]; repeat constructor; assumption.
Qed.

(** Every event of a run is of one of the kinds its shape allows. *)
Lemma shape_forall (P : event -> Prop) (dry skip : bool) (o : outcome results)
    (t : list event) :
  run_shape dry skip o t ->
  (forall u, P (EvFeed u)) -> P EvGnews ->
  (forall p, prep_event skip (EvAgent p) -> P (EvAgent p)) ->
  (forall urls, (1 <= List.length urls <= 5)%nat -> P (EvFetchArticles urls)) ->
  (skip = false -> forall path content, P (EvWriteFile path content)) ->
  (dry = false -> forall c, P (EvPublish c) /\ P EvUserinfo /\ P (EvUgcPost c)) ->
  Forall P t.
Proof.
  intros Hs Hfeed Hnews Hagent Hfetch Hwrite Hpub.
  destruct Hs as [r f1 Hf1 _ _ _ _
                 | f1 f2 prep Hf1 Hf2 Hprep _
                 | r f1 f2 pre d e path v Hskip Hf1 Hf2 Hprep _ _ _ _ _ _
                 | r f1 f2 prep pub d result Hf1 Hf2 Hprep Hp _ _ _ _].
  - now apply collection_forall.
  - apply Forall_app; split; [now apply collection_forall|].
    apply Forall_app; split; [now apply collection_forall|].
    now apply (preparation_forall P skip).
  - apply Forall_app; split; [now apply collection_forall|].
    apply Forall_app; split; [now apply collection_forall|].
    apply Forall_app; split; [now apply (preparation_forall P skip)|].
    constructor; [now apply Hwrite | constructor].
  - apply Forall_app; split; [now apply collection_forall|].
    apply Forall_app; split; [now apply collection_forall|].
    apply Forall_app; split; [now apply (preparation_forall P skip)|].
    apply (publication_forall P dry d result pub Hp). intros Hd. now apply Hpub.
Qed.

Lemma count_events_none (f : event -> bool) (t : list event) :
  Forall (fun e => f e = false) t -> count_events f t = 0%nat.
Proof.
  induction 1 as [|e t He _ IH]; [reflexivity|].
  rewrite count_events_cons, He. exact IH.
Qed.

Lemma collection_counts (f : list event) :
  collection f ->
  count_events is_agent f = 0%nat /\
  count_events is_publish_call f = 0%nat /\
  count_events is_ugc_post f = 0%nat /\
  count_events is_write f = 0%nat /\
  count_events is_fetch_articles f = 0%nat /\
  filter is_feed f = feed_requests.
Proof.
  intros Hf.
  repeat (split; [apply count_events_none; now apply collection_forall|]).
  destruct Hf as [-> | ->]; [reflexivity|].
  rewrite filter_app. reflexivity.
Qed.

Lemma preparation_counts (skip : bool) (prep : list event) :
  preparation skip prep ->
  count_events is_publish_call prep = 0%nat /\
  count_events is_ugc_post prep = 0%nat /\
  count_events is_write prep = 0%nat /\
  filter is_feed prep = [].
Proof.
  intros Hp.
  repeat (split; [apply count_events_none;
                  now apply (preparation_forall _ skip prep Hp)|]).
  assert (H : Forall (fun e => is_feed e = false) prep)
    by now apply (preparation_forall _ skip prep Hp).
  clear Hp. induction H as [|e t He _ IH]; [reflexivity|].
  cbn [filter]. now rewrite He.
Qed.

(** The place of the only element of a kind in a list. *)
Lemma split_at_only (f : event -> bool) (l1 l2 l1' l2' : list event) (x x' : event) :
  (l1 ++ x :: l2 = l1' ++ x' :: l2')%list ->
  Forall (fun e => f e = false) l1 ->
  Forall (fun e => f e = false) l2 ->
  f x' = true ->
  l1 = l1' /\ x = x'.
Proof.
  revert l1'. induction l1 as [|a l1 IH]; intros l1' E H1 H2 Hx'.
  - destruct l1' as [|b l1']; cbn [app] in E.
    + injection E as -> _. now split.
    + injection E as -> ->. exfalso.
      apply Forall_app in H2. destruct H2 as [_ H2]. apply Forall_inv in H2. congruence.
  - destruct l1' as [|b l1']; cbn [app] in E.
    + injection E as -> _. apply Forall_inv in H1. congruence.
    + injection E as -> E. apply Forall_inv_tail in H1.
      destruct (IH l1' E H1 H2 Hx') as [-> ->]. now split.
Qed.

Section WithEnv.
Context {World : Type} (env : Env World).

(** X1: a dry run never reaches LinkedIn: no validation, no publish
    call, no profile request and no post request, whatever the
    other arguments; and it never ends as [failed]. *)
Theorem dry_run_never_reaches_linkedin (hours_back : Z) (skip_verification : bool)
    (confidence_threshold : Z) (s : state World) :
  exists t,
    trace (snd (run_workflow env true hours_back skip_verification
                  confidence_threshold s)) = (trace s ++ t)%list /\
    Forall (fun e => is_linkedin e = false) t /\
    forall r,
      fst (run_workflow env true hours_back skip_verification
             confidence_threshold s) = Ok r ->
      dry_run r = true /\
      (status r = Some "skipped"%string \/ status r = Some "draft_saved"%string \/
       status r = Some "success"%string).
Proof.
  destruct (run_workflow_performs env true hours_back skip_verification
              confidence_threshold s) as (t & Ht & Hs).
  exists t. split; [exact Ht|]. split.
  - apply (shape_forall _ true skip_verification _ t Hs); try reflexivity; discriminate.
  - intros r Hr. rewrite Hr in Hs. clear Hr Ht.
    inversion Hs as [r0 f1 Hf1 Hst _ _ Hd
                    |
                    | r0 f1 f2 pre d e path v _ _ _ _ Hst _ _ _ _ Hd
                    | r0 f1 f2 prep pub d result _ _ _ Hp Hst _ Hd _]; subst.
    + split; [exact Hd | now left].
    + split; [exact Hd | right; now left].
    + split; [exact Hd|]. right; right.
      destruct Hp as (_ & Hok & _). now rewrite Hok in Hst.
Qed.

(** X2: with [skip_verification] the verifier is never asked and
    nothing is rewritten: the agent is called at most twice, to
    curate and to write, no draft file is written, and the text that
    step 5 gets was never verified. *)
Theorem skipped_verification_never_verifies (dry_run : bool) (hours_back : Z)
    (confidence_threshold : Z) (s : state World) :
  exists t,
    trace (snd (run_workflow env dry_run hours_back true confidence_threshold s))
      = (trace s ++ t)%list /\
    Forall (fun e => is_verify e = false /\ is_rewrite e = false /\ is_write e = false) t /\
    (count_events is_agent t <= 2)%nat /\
    forall r,
      fst (run_workflow env dry_run hours_back true confidence_threshold s) = Ok r ->
      last_verify (steps r) = None /\
      status r <> Some "draft_saved"%string.
Proof.
  destruct (run_workflow_performs env dry_run hours_back true confidence_threshold s)
    as (t & Ht & Hs).
  exists t. split; [exact Ht|]. split; [|split].
  - apply (shape_forall _ dry_run true _ t Hs); try (repeat split; fail);
      try discriminate.
    intros [] Hp; try discriminate Hp; repeat split.
  - clear Ht.
    destruct Hs as [r f1 Hf1 _ _ _ _
                   | f1 f2 prep Hf1 Hf2 Hprep _
                   | r f1 f2 pre d e path v Hskip Hf1 Hf2 Hprep _ _ _ _ _ _
                   | r f1 f2 prep pub d result Hf1 Hf2 Hprep Hp _ _ _ _];
      try discriminate;
      rewrite ?WorkflowFacts.count_events_app;
      try (destruct (collection_counts f1 Hf1) as (-> & _));
      try (destruct (collection_counts f2 Hf2) as (-> & _));
      try lia.
    + destruct Hprep as (_ & _ & _ & _ & Hag). specialize (Hag eq_refl). lia.
    + destruct Hprep as (_ & _ & _ & _ & Hag). specialize (Hag eq_refl).
      assert (count_events is_agent pub = 0%nat).
      { apply count_events_none.
        apply (publication_forall _ dry_run d result pub Hp). intros _. now repeat split. }
      lia.
  - intros r Hr. rewrite Hr in Hs. clear Hr Ht.
    inversion Hs as [r0 f1 Hf1 Hst _ Hsteps Hd
                    |
                    | r0 f1 f2 pre d e path v Hskip
                    | r0 f1 f2 prep pub d result _ _ _ Hp Hst _ Hd Hv]; subst.
    + split; [now rewrite Hsteps | rewrite Hst; discriminate].
    + discriminate.
    + split; [exact (proj1 Hv)|]. rewrite Hst.
      destruct (LinkedinPoster.success result); discriminate.
Qed.

(** X3: with verification on, the publish operation is only ever
    called on the text that the verifier was last asked about, right
    after that call, and only when the verdict recorded last has a
    confidence of 100: no threshold lets a text through below it. *)
Theorem published_text_was_verified (dry_run : bool) (hours_back : Z)
    (confidence_threshold : Z) (s : state World) :
  exists t,
    trace (snd (run_workflow env dry_run hours_back false confidence_threshold s))
      = (trace s ++ t)%list /\
    (forall pre content post,
        t = (pre ++ EvPublish content :: post)%list ->
        exists pre' enhanced_content,
          pre = (pre' ++ [EvAgent (VerifierPrompt content enhanced_content)])%list) /\
    (forall r,
        fst (run_workflow env dry_run hours_back false confidence_threshold s) = Ok r ->
        status r = Some "success"%string \/ status r = Some "failed"%string ->
        exists v, last_verify (steps r) = Some v /\ confidence v = 100).
Proof.
  destruct (run_workflow_performs env dry_run hours_back false confidence_threshold s)
    as (t & Ht & Hs).
  exists t. split; [exact Ht|]. split.
  - intros pre content post E.
    assert (Hnone : Forall (fun e => is_publish_call e = false) t -> False).
    { intros H. rewrite E in H. apply Forall_app in H. destruct H as [_ H].
      apply Forall_inv in H. discriminate. }
    clear Ht.
    destruct Hs as [r f1 Hf1 _ _ _ _
                   | f1 f2 prep Hf1 Hf2 Hprep _
                   | r f1 f2 pre0 d e path v Hskip Hf1 Hf2 Hprep _ _ _ _ _ _
                   | r f1 f2 prep pub d result Hf1 Hf2 Hprep Hp _ _ _ Hv].
    + exfalso. apply Hnone. now apply collection_forall.
    + exfalso. apply Hnone.
      apply Forall_app; split; [now apply collection_forall|].
      apply Forall_app; split; [now apply collection_forall|].
      now apply (preparation_forall _ false prep Hprep).
    + exfalso. apply Hnone.
      apply Forall_app; split; [now apply collection_forall|].
      apply Forall_app; split; [now apply collection_forall|].
      apply Forall_app; split; [now apply (preparation_forall _ false _ Hprep)|].
      now repeat constructor.
    + destruct Hv as (pre0 & e & v & -> & _).
      assert (Hbefore : Forall (fun e0 => is_publish_call e0 = false)
                          (f1 ++ f2 ++ pre0
                              ++ [EvAgent (VerifierPrompt d e)])%list).
      { apply Forall_app; split; [now apply collection_forall|].
        apply Forall_app; split; [now apply collection_forall|].
        now apply (preparation_forall _ false _ Hprep). }
      unfold publication in Hp. destruct dry_run.
      * destruct Hp as [-> _]. exfalso. apply Hnone.
        rewrite !app_nil_r. exact Hbefore.
      * destruct Hp as [_ Hp].
        assert (Hpub : exists rest,
                   pub = EvPublish d :: rest /\
                   Forall (fun e0 => is_publish_call e0 = false) rest).
        { destruct Hp as [[-> _] | [[-> _] | ->]]; eexists; split; try reflexivity;
            repeat constructor. }
        destruct Hpub as (rest & -> & Hrest).
        assert (E' : ((f1 ++ f2 ++ pre0 ++ [EvAgent (VerifierPrompt d e)])
                        ++ EvPublish d :: rest
                      = pre ++ EvPublish content :: post)%list).
        { rewrite <- E. now rewrite <- !app_assoc. }
        destruct (split_at_only is_publish_call _ _ _ _ _ _ E' Hbefore Hrest eq_refl)
          as [Hpre Hc].
        injection Hc as <-.
        exists (f1 ++ f2 ++ pre0)%list, e. rewrite <- Hpre. now rewrite <- !app_assoc.
  - intros r Hr Hst. rewrite Hr in Hs. clear Hr Ht.
    inversion Hs as [r0 f1 Hf1 Hst0 _ _ _
                    |
                    | r0 f1 f2 pre d e path v _ _ _ _ Hst0 _ _ _ _ _
                    | r0 f1 f2 prep pub d result _ _ _ Hp Hst0 _ Hd Hv]; subst.
    + rewrite Hst0 in Hst. destruct Hst; discriminate.
    + rewrite Hst0 in Hst. destruct Hst; discriminate.
    + destruct Hv as (_ & _ & v & _ & Hl & Hc). now exists v.
Qed.



(** X6: a run ends in one way. It makes at most one publish call and
    at most one post request, and never both a publish call and a
    draft file. A live run that reports [success] has ended on the
    publish call, the profile request and the post request, in this
    order; one that reports [failed] has made the publish call. *)
Theorem live_success_means_posted (dry_run : bool) (hours_back : Z)
    (skip_verification : bool) (confidence_threshold : Z) (s : state World) :
  exists t,
    trace (snd (run_workflow env dry_run hours_back skip_verification
                  confidence_threshold s)) = (trace s ++ t)%list /\
    (count_events is_ugc_post t <= 1)%nat /\
    (count_events is_publish_call t + count_events is_write t <= 1)%nat /\
    forall r,
      fst (run_workflow env dry_run hours_back skip_verification
             confidence_threshold s) = Ok r ->
      (status r = Some "success"%string -> dry_run = false ->
       exists pre content,
         t = (pre ++ [EvPublish content; EvUserinfo; EvUgcPost content])%list) /\
      (status r = Some "failed"%string ->
       dry_run = false /\ count_events is_publish_call t = 1%nat /\
       count_events is_write t = 0%nat).
Proof.
  destruct (run_workflow_performs env dry_run hours_back skip_verification
              confidence_threshold s) as (t & Ht & Hs).
  exists t. split; [exact Ht|]. clear Ht.
  remember (fst (run_workflow env dry_run hours_back skip_verification
                   confidence_threshold s)) as o eqn:Eo.
  destruct Hs as [r f1 Hf1 Hst _ _ _
                 | f1 f2 prep Hf1 Hf2 Hprep _
                 | r f1 f2 pre d e path v Hskip Hf1 Hf2 Hprep Hst _ _ _ _ _
                 | r f1 f2 prep pub d result Hf1 Hf2 Hprep Hp Hst _ _ _];
    rewrite ?WorkflowFacts.count_events_app;
    try (destruct (collection_counts f1 Hf1) as (_ & -> & -> & -> & _));
    try (destruct (collection_counts f2 Hf2) as (_ & -> & -> & -> & _)).
  - cbn. split; [lia|]. split; [lia|].
    intros r0 H. injection H as <-. rewrite Hst. split; discriminate.
  - destruct (preparation_counts _ _ Hprep) as (-> & -> & -> & _).
    split; [lia|]. split; [lia|]. intros r0 H. discriminate.
  - destruct (preparation_counts _ _ Hprep) as (Hc1 & Hc2 & Hc3 & _).
    rewrite WorkflowFacts.count_events_app in Hc1, Hc2, Hc3.
    rewrite ?WorkflowFacts.count_events_app. cbn in *.
    split; [lia|]. split; [lia|].
    intros r0 H. injection H as <-. rewrite Hst. split; discriminate.
  - destruct (preparation_counts _ _ Hprep) as (-> & -> & -> & _).
    unfold publication in Hp. destruct dry_run.
    + destruct Hp as (-> & Hok & _). cbn. split; [lia|]. split; [lia|].
      intros r0 H. injection H as <-. rewrite Hst, Hok.
      split; [intros _ Hd; discriminate | discriminate].
    + destruct Hp as [_ [[-> Hf] | [[-> Hf] | ->]]]; cbn;
        (split; [lia|]); (split; [lia|]);
        intros r0 H; injection H as <-; rewrite Hst, ?Hf.
      * split; [discriminate | intros _; repeat split].
      * split; [discriminate | intros _; repeat split].
      * split.
        -- intros _ _. exists (f1 ++ f2 ++ prep)%list, d. now rewrite <- !app_assoc.
        -- intros _. repeat split.
Qed.

(** X7: step 2b asks for full articles at most once in a run, and
    then for at least one and at most five URLs. *)
Theorem full_articles_fetch_is_bounded (dry_run : bool) (hours_back : Z)
    (skip_verification : bool) (confidence_threshold : Z) (s : state World) :
  exists t,
    trace (snd (run_workflow env dry_run hours_back skip_verification
                  confidence_threshold s)) = (trace s ++ t)%list /\
    (count_events is_fetch_articles t <= 1)%nat /\
    forall urls, In (EvFetchArticles urls) t -> (1 <= List.length urls <= 5)%nat.
Proof.
  destruct (run_workflow_performs env dry_run hours_back skip_verification
              confidence_threshold s) as (t & Ht & Hs).
  exists t. split; [exact Ht|]. clear Ht. split.
  - assert (Hpub0 : forall d result pub,
               publication dry_run d result pub ->
               count_events is_fetch_articles pub = 0%nat).
    { intros d result pub Hp. apply count_events_none.
      apply (publication_forall _ dry_run d result pub Hp). now repeat split. }
    destruct Hs as [r f1 Hf1 Hst _ _ _
                   | f1 f2 prep Hf1 Hf2 Hprep _
                   | r f1 f2 pre d e path v Hskip Hf1 Hf2 Hprep Hst _ _ _ _ _
                   | r f1 f2 prep pub d result Hf1 Hf2 Hprep Hp Hst _ _ _];
      rewrite ?WorkflowFacts.count_events_app;
      try (destruct (collection_counts f1 Hf1) as (_ & _ & _ & _ & -> & _));
      try (destruct (collection_counts f2 Hf2) as (_ & _ & _ & _ & -> & _));
      try lia.
    + destruct Hprep as (_ & H & _). lia.
    + destruct Hprep as (_ & H & _).
      rewrite ?WorkflowFacts.count_events_app in H. cbn in *. lia.
    + destruct Hprep as (_ & H & _). rewrite (Hpub0 d result pub Hp). lia.
  - intros urls Hin.
    assert (H : Forall (fun e => match e with
                                 | EvFetchArticles urls =>
                                     (1 <= List.length urls <= 5)%nat
                                 | _ => True
                                 end) t).
    { apply (shape_forall _ dry_run skip_verification _ t Hs); try exact I; auto. }
    rewrite Forall_forall in H. exact (H _ Hin).
Qed.

End WithEnv.
End RunProperties.

(** ** The retry loop, call by call *)
Module LoopProperties.
Import Tools Main Spec Props PerformFacts CollectFacts ShapeFacts.

Lemma keys_set_step (r : results) (key : string) (v : step_record) :
  map fst (steps (set_step r key v)) = (map fst (steps r) ++ [key])%list.
Proof. cbn [set_step steps]. now rewrite map_app. Qed.

Section WithEnv.
Context {World : Type} (env : Env World).

Lemma retry_loop_story (enhanced_content : string) (n : nat) :
  forall st : loop_state,
    (retry_count st + n = max_retries)%nat ->
    performs (retry_loop env enhanced_content st)
      (fun o t =>
         loop_trace enhanced_content (Main.draft_post st) t /\
         match o with
         | Ok st' =>
             exists k,
               (k <= n)%nat /\
               retry_count st' = (retry_count st + k)%nat /\
               map fst (steps (loop_results st')) =
               (map fst (steps (loop_results st))
                  ++ rounds_keys (S (retry_count st)) k)%list
         | Raised => True
         end).
Proof.
  induction n as [|n IH]; intros st Hn;
    (eapply performs_ext; [intros s; apply WorkflowFacts.retry_loop_unfold|]).
  - replace (loop_guard st) with false.
    + apply (performs_ret st). split; [constructor|].
      exists 0%nat. cbn. rewrite app_nil_r, Nat.add_0_r. repeat split. lia.
    + unfold loop_guard. replace (retry_count st <? max_retries)%nat with false.
      * now rewrite andb_false_r.
      * symmetry. apply Nat.ltb_ge. lia.
  - destruct (loop_guard st).
    2:{ apply (performs_ret st). split; [constructor|].
        exists 0%nat. cbn. rewrite app_nil_r, Nat.add_0_r. repeat split. lia. }
    eapply performs_bind; [apply call_agent_performs | |].
    { intros t1 ->. split; [constructor | exact I]. }
    intros d t1 ->.
    eapply performs_bind; [apply step_4_verify_post_performs | |].
    { intros t1 [-> _]. split; [|exact I]. cbn [app]. repeat constructor. }
    intros v t1 [-> _]. cbv zeta.
    assert (Hkeys : forall k,
               (((map fst (steps (loop_results st))
                    ++ ["rewrite_" ++ PyStr.str (Z.of_nat (S (retry_count st)))]%string)
                   ++ ["verify_" ++ PyStr.str (Z.of_nat (S (retry_count st)))]%string)
                  ++ rounds_keys (S (S (retry_count st))) k
                = map fst (steps (loop_results st))
                    ++ rounds_keys (S (retry_count st)) (S k))%list).
    { intros k. unfold rounds_keys. cbn [seq flat_map round_keys app].
      now rewrite <- !app_assoc. }
    destruct (confidence v =? 100).
    + apply performs_ret. cbn [Main.draft_post retry_count loop_results app].
      split; [repeat constructor|].
      exists 1%nat. split; [lia|]. split; [lia|].
      rewrite !keys_set_step. rewrite <- (Hkeys 0%nat).
      unfold rounds_keys. cbn [seq flat_map]. now rewrite app_nil_r.
    + eapply performs_weaken.
      * apply IH. cbn [retry_count]. lia.
      * intros o t. cbn [Main.draft_post retry_count loop_results app].
        intros [Htr Hres]. split; [now constructor|].
        destruct o as [st'|]; [|exact I].
        destruct Hres as (k & Hk & Hrc & Hkey).
        exists (S k). split; [lia|]. split; [lia|].
        rewrite Hkey, !keys_set_step. apply Hkeys.
Qed.

(** X8: step 4 is a verification of the draft followed by rounds of
    the loop: each round asks for a rewrite of the text that was
    verified last and then, unless the rewrite raises, for the
    verification of a text; every call is made against the enhanced
    content the step was given. *)
Theorem rewrites_follow_verifications (results : results)
    (draft_post enhanced_content : string) (s : state World) :
  exists t,
    trace (snd (verify_and_converge env results draft_post enhanced_content s)) =
    (trace s ++ EvAgent (VerifierPrompt draft_post enhanced_content) :: t)%list /\
    loop_trace enhanced_content draft_post t.
Proof.
  assert (H : performs (verify_and_converge env results draft_post enhanced_content)
                (fun _ t0 =>
                   exists t,
                     t0 = EvAgent (VerifierPrompt draft_post enhanced_content) :: t /\
                     loop_trace enhanced_content draft_post t)).
  { unfold verify_and_converge.
    eapply performs_bind; [apply step_4_verify_post_performs | |].
    { intros t1 [-> _]. exists []. split; [reflexivity | constructor]. }
    intros v t1 [-> _].
    eapply performs_weaken;
      [apply (retry_loop_story enhanced_content max_retries); reflexivity|].
    intros o t [Htr _]. cbn [Main.draft_post] in Htr. now exists t. }
  destruct (H s) as (t0 & Ht & t & -> & Htr). now exists t.
Qed.

Lemma verify_and_converge_keys (results : results)
    (draft_post enhanced_content : string) :
  performs (verify_and_converge env results draft_post enhanced_content)
    (fun o _ =>
       match o with
       | Ok st =>
           exists k,
             (k <= max_retries)%nat /\
             map fst (steps (loop_results st)) =
             (map fst (steps results) ++ ["verify"%string] ++ rounds_keys 1 k)%list
       | Raised => True
       end).
Proof.
  unfold verify_and_converge.
  eapply performs_bind; [apply step_4_verify_post_performs | |].
  { intros t1 _. exact I. }
  intros v t1 _.
  eapply performs_weaken;
    [apply (retry_loop_story enhanced_content max_retries); reflexivity|].
  intros [st|] t [_ Hres]; [|exact I].
  cbn [retry_count loop_results Nat.add] in Hres.
  destruct Hres as (k & Hk & _ & Hkey). exists k. split; [exact Hk|].
  rewrite Hkey, keys_set_step. now rewrite <- app_assoc.
Qed.

Lemma run_workflow_keys (dry_run : bool) (hours_back : Z)
    (skip_verification : bool) (confidence_threshold : Z) :
  performs (run_workflow env dry_run hours_back skip_verification confidence_threshold)
    (fun o _ =>
       match o with
       | Ok r =>
           map fst (steps r) = [] \/
           exists k,
             (k <= max_retries)%nat /\
             (map fst (steps r) = (first_keys ++ rounds_keys 1 k)%list \/
              map fst (steps r) = (first_keys ++ rounds_keys 1 k ++ ["post"%string])%list)
       | Raised => True
       end).
Proof.
  unfold run_workflow.
  eapply performs_bind with (Q1 := fun _ _ => True);
    [apply performs_call; intros a; exact I | |].
  { intros t1 _. exact I. }
  intros _ t1 _.
  eapply performs_bind with (Q1 := fun _ _ => True);
    [apply performs_call; intros a; exact I | |].
  { intros t2 _. exact I. }
  intros now t2 _. cbv zeta.
  eapply performs_bind; [apply step_1_fetch_news_performs | |].
  { intros t3 _. exact I. }
  intros [articles_text|] f1 _.
  2:{ apply performs_ret. now left. }
  eapply performs_bind; [apply fetch_rss_feeds_performs | |].
  { intros t3 _. exact I. }
  intros rss_articles t3 _.
  eapply performs_bind; [apply fetch_gnews_performs | |].
  { intros t4 _. exact I. }
  intros gnews_articles t4 _.
  eapply performs_bind; [apply call_agent_performs | |].
  { intros t5 _. exact I. }
  intros curated t5 _.
  eapply performs_bind; [apply step_2b_performs | |].
  { intros t6 _. exact I. }
  intros enhanced_content t6 _.
  eapply performs_bind; [apply call_agent_performs | |].
  { intros t7 _. exact I. }
  intros draft_post t7 _.
  destruct skip_verification; cbn [negb].
  - eapply performs_weaken; [apply post_and_finish_performs|].
    intros o t (r & result & -> & _ & _ & Hsteps & _).
    right. exists 0%nat. split; [unfold max_retries; lia|]. right.
    rewrite Hsteps, map_app, !keys_set_step. reflexivity.
  - unfold verify_then_finish.
    eapply performs_bind; [apply verify_and_converge_keys | |].
    { intros t8 _. exact I. }
    intros st t8 (k & Hk & Hkeys).
    rewrite !keys_set_step in Hkeys. cbn [steps map app] in Hkeys.
    destruct (confidence (current_verification st) <? 100).
    + eapply performs_weaken; [apply save_for_manual_review_performs|].
      intros o t (r & path & -> & _ & _ & _ & _ & Hsteps & _).
      right. exists k. split; [exact Hk|]. left. rewrite Hsteps. exact Hkeys.
    + eapply performs_weaken; [apply post_and_finish_performs|].
      intros o t (r & result & -> & _ & _ & Hsteps & _).
      right. exists k. split; [exact Hk|]. right.
      rewrite Hsteps, map_app, Hkeys. cbn [map fst first_keys app].
      rewrite <- ?app_assoc. reflexivity.
Qed.

(** X9: the keys under which a run records its steps are pairwise
    distinct: no record overwrites another. In order they are
    "fetch", "curate", "fetch_full", "write", "verify", then
    "rewrite_i" and "verify_i" for each round of the loop, at most
    three, and "post" when step 5 is reached; a skipped run records
    none. *)
Theorem step_keys_are_distinct (dry_run : bool) (hours_back : Z)
    (skip_verification : bool) (confidence_threshold : Z) (s : state World) :
  match fst (run_workflow env dry_run hours_back skip_verification
               confidence_threshold s) with
  | Ok r =>
      NoDup (map fst (steps r)) /\
      (map fst (steps r) = [] \/
       exists k,
         (k <= max_retries)%nat /\
         (map fst (steps r) = (first_keys ++ rounds_keys 1 k)%list \/
          map fst (steps r) = (first_keys ++ rounds_keys 1 k ++ ["post"%string])%list))
  | Raised => True
  end.
Proof.
  destruct (run_workflow_keys dry_run hours_back skip_verification
              confidence_threshold s) as (t & _ & H).
  destruct (fst (run_workflow env dry_run hours_back skip_verification
                   confidence_threshold s)) as [r|]; [|exact I].
  split; [|exact H].
  destruct H as [-> | (k & Hk & [-> | ->])]; [constructor | |];
    unfold max_retries in Hk;
    destruct k as [|[|[|[|k]]]]; try lia;
    vm_compute;
    repeat (constructor; [intros Hin; cbn [In] in Hin;
                          repeat (destruct Hin as [Hin | Hin]; [discriminate Hin|]);
                          exact Hin|]);
    constructor.
Qed.

End WithEnv.
End LoopProperties.

(** ** The collectors: window, order, keys *)
Module CollectProperties.
Import Tools Fetchers Spec Props PerformFacts CollectFacts.

Lemma leb_refl (s : string) : String.leb s s = true.
Proof. destruct (String.leb_total s s); assumption. Qed.

(** Where the sort puts an article among those of its date: first. *)
Lemma insert_by_date_filter (d : string) (x : article) (l : list article) :
  filter (fun a => String.eqb (date a) d) (insert_by_date x l) =
  ((if String.eqb (date x) d then [x] else [])
     ++ filter (fun a => String.eqb (date a) d) l)%list.
Proof.
  induction l as [|y l IH]; cbn [insert_by_date].
  - cbn [filter]. destruct (String.eqb (date x) d); reflexivity.
  - destruct (String.leb (date y) (date x)) eqn:E.
    + cbn [filter]. destruct (String.eqb (date x) d); reflexivity.
    + cbn [filter]. rewrite IH.
      destruct (String.eqb_spec (date y) d) as [Hy|]; [|reflexivity].
      destruct (String.eqb_spec (date x) d) as [Hx|]; [|reflexivity].
      rewrite Hx, <- Hy, leb_refl in E. discriminate.
Qed.

Lemma sort_newest_first_filter (d : string) (l : list article) :
  filter (fun a => String.eqb (date a) d) (sort_newest_first l) =
  filter (fun a => String.eqb (date a) d) l.
Proof.
  induction l as [|x l IH]; [reflexivity|].
  cbn [sort_newest_first fold_right]. fold (sort_newest_first l).
  rewrite insert_by_date_filter, IH. cbn [filter].
  destruct (String.eqb (date x) d); reflexivity.
Qed.

Lemma filter_filter {A : Type} (p q : A -> bool) (l : list A) :
  filter p (filter q l) = filter (fun a => p a && q a) l.
Proof.
  induction l as [|a l IH]; [reflexivity|].
  cbn [filter]. destruct (q a) eqn:Eq; cbn [filter].
  - destruct (p a); cbn [andb]; now rewrite IH.
  - rewrite andb_false_r. exact IH.
Qed.

Lemma filter_ext_in_bool {A : Type} (p q : A -> bool) (l : list A) :
  (forall a, p a = q a) -> filter p l = filter q l.
Proof. intros H. apply filter_ext. exact H. Qed.

Section WithEnv.
Context {World : Type} (env : Env World).

(** The URLs kept by the loop of [fetch_gnews], given the set of the
    URLs seen so far. *)
Lemma gnews_items_run (items : list gnews_item) :
  forall (seen_urls : list string) (articles : list article) (s : state World),
  exists more s',
    gnews_items env items seen_urls articles s = (Ok (articles ++ more)%list, s') /\
    trace s' = trace s /\
    map url more =
    filter (fun u => negb (existsb (String.eqb u) seen_urls))
           (first_occurrences (map (fun i => get_or "" (item_url i)) items)).
Proof.
  induction items as [|item rest IH]; intros seen_urls articles s; cbn [gnews_items].
  - exists [], s. rewrite app_nil_r. repeat split.
  - cbn [map first_occurrences filter].
    set (u := get_or "" (item_url item)).
    destruct (existsb (String.eqb u) seen_urls) eqn:Eseen; cbn [negb].
    + destruct (IH seen_urls articles s) as (more & s' & E & Ht & Hu).
      exists more, s'. split; [exact E|]. split; [exact Ht|].
      rewrite Hu, filter_filter. apply filter_ext. intros v.
      destruct (String.eqb_spec v u) as [->|]; cbn [negb]; [|now rewrite andb_true_r].
      now rewrite Eseen.
    + unfold bind, call. destruct (datetime_now env (world s)) as [now w].
      destruct (IH (u :: seen_urls)
                  (articles ++
                   [{| title := get_or "No title" (item_title item);
                       summary := get_or "No summary available" (item_description item);
                       url := u;
                       date := get_or (isoformat env now) (item_publishedAt item);
                       source := get_or "Unknown" (item_source_name item) |}])%list
                  {| world := w; trace := trace s |})
        as (more & s' & E & Ht & Hu).
      eexists (_ :: more), s'. rewrite <- app_assoc in E. split; [exact E|].
      split; [exact Ht|]. cbn [map url]. f_equal.
      rewrite Hu, filter_filter. apply filter_ext. intros v.
      cbn [existsb]. rewrite negb_orb. apply andb_comm.
Qed.


(** X11: the list returned by [fetch_rss_feeds] is a rearrangement of
    the articles collected feed by feed, and the sort is stable:
    articles with the same date string keep the order in which the
    feeds and their entries were read. *)
Theorem rss_sort_keeps_feed_order (hours_back : Z) (s : state World) :
  exists collected l s',
    fetch_rss_feeds env hours_back s = (Ok l, s') /\
    rss_sources env RSS_FEEDS
      (fst (datetime_now env (world s)) - timedelta_hours hours_back) []
      {| world := snd (datetime_now env (world s)); trace := trace s |}
      = (Ok collected, s') /\
    Permutation collected l /\
    forall d, filter (fun a => String.eqb (date a) d) l =
              filter (fun a => String.eqb (date a) d) collected.
Proof.
  unfold fetch_rss_feeds, bind, call.
  destruct (datetime_now env (world s)) as [now w]. cbn [fst snd].
  destruct (rss_sources_performs env RSS_FEEDS (now - timedelta_hours hours_back) []
              {| world := w; trace := trace s |}) as (t & _ & _ & more & Ho & _).
  destruct (rss_sources env RSS_FEEDS (now - timedelta_hours hours_back) []
              {| world := w; trace := trace s |}) as [[l|] s'];
    cbn [fst snd] in *; [|discriminate].
  exists l, (sort_newest_first l), s'. split; [reflexivity|]. split; [reflexivity|].
  split; [apply FetcherFacts.sort_newest_first_perm|].
  intros d. apply sort_newest_first_filter.
Qed.

(** X12: without a key, neither as the argument nor in the
    environment ([None] and the empty string count as unset),
    [fetch_gnews] returns the empty list without a request and
    without reading the clock. *)
Theorem gnews_without_key_is_silent (api_key : option string) (max_results : Z)
    (s : state World) :
  truthy (gnews_key_of env api_key (world s)) = false ->
  fetch_gnews env api_key max_results s = (Ok [], s).
Proof.
  unfold gnews_key_of, fetch_gnews, bind, read, ret.
  destruct (truthy api_key) eqn:Ek.
  - intros H. congruence.
  - destruct (getenv env "GNEWS_API_KEY" (world s)) as [key|]; [|reflexivity].
    cbn [truthy]. destruct (String.eqb key ""); [reflexivity | discriminate].
Qed.


End WithEnv.
End CollectProperties.

(** ** Collectors of the scripted environment *)
Module CollectScript.
Import Tools Fetchers Spec Props Script Scenes.

Lemma gnews_without_key_is_silent_witness :
  truthy (gnews_key_of Script.env None (world (start empty_world))) = false /\
  fetch_gnews Script.env None 10 (start empty_world) = (Ok [], start empty_world).
Proof.
  split; [reflexivity|].
  apply (CollectProperties.gnews_without_key_is_silent Script.env None 10
           (start empty_world)).
  reflexivity.
Defined.


End CollectScript.

(** ** The report parser: what the counts see *)
Module ParserProperties.
Import Tools Verify Props.

Local Open Scope string_scope.

Lemma replace_star (s : string) : PyStr.replace "*" "" s = without_stars s.
Proof.
  unfold PyStr.replace. induction s as [|c s IH]; [reflexivity|].
  cbn [PyStr.replace_from PyStr.startswith without_stars String.length Nat.sub].
  rewrite andb_true_r, Ascii.eqb_sym.
  destruct (Ascii.eqb c "*"); cbn [append]; now rewrite IH.
Qed.

(** Taking out the pairs of asterisks first does not change what is
    left once the single ones are taken out. *)
Lemma replace_two_stars (s : string) :
  without_stars (PyStr.replace_from "**" "" s 0) = without_stars s /\
  (forall c s', s = String c s' ->
                without_stars (PyStr.replace_from "**" "" s 1) = without_stars s').
Proof.
  induction s as [|c s [IH0 IH1]].
  - split; [reflexivity | intros c s' H; discriminate].
  - split.
    + cbn [PyStr.replace_from PyStr.startswith String.length Nat.sub].
      destruct (Ascii.eqb_spec "*" c) as [<- | Hc].
      * destruct s as [|c' s'].
        -- reflexivity.
        -- cbn [andb PyStr.startswith].
           destruct (Ascii.eqb_spec "*" c') as [<- | Hc'].
           ++ cbn [andb append]. rewrite (IH1 "*"%char s' eq_refl). reflexivity.
           ++ cbn [andb without_stars]. rewrite IH0. reflexivity.
      * cbn [andb without_stars]. now rewrite IH0.
    + intros c0 s' H. injection H as -> ->.
      cbn [PyStr.replace_from]. exact IH0.
Qed.

(** The text on which the claims are counted: the lower-cased report
    without any asterisk. *)
Lemma report_clean_is_without_stars (r : string) :
  report_clean r = without_stars (PyStr.lower r).
Proof.
  unfold report_clean, report_lower. rewrite replace_star.
  apply (proj1 (replace_two_stars (PyStr.lower r))).
Qed.

(** The confidence as a function of the two counts. *)
Lemma confidence_of_counts (r : string) :
  option_map confidence (parse_report r) =
  match (if 0 <? verified_count r + unverified_count r
         then ratio_percent (verified_count r)
                (verified_count r + unverified_count r)
         else Some 0)%Z with
  | None => None
  | Some c =>
      Some (if (unverified_count r =? 0) && (0 <? verified_count r) then 100 else c)%Z
  end.
Proof.
  unfold parse_report.
  destruct (if (0 <? verified_count r + unverified_count r)%Z then _ else _);
    [|reflexivity].
  destruct ((unverified_count r =? 0)%Z && (0 <? verified_count r)%Z); reflexivity.
Qed.

(** X14: the two counts and the confidence only see the report in
    lower case and without its asterisks: two reports that agree up
    to letter case and emphasis marks get the same counts and the
    same confidence. *)
Theorem emphasis_does_not_change_the_counts (r1 r2 : string) :
  without_stars (PyStr.lower r1) = without_stars (PyStr.lower r2) ->
  verified_count r1 = verified_count r2 /\
  unverified_count r1 = unverified_count r2 /\
  option_map confidence (parse_report r1) = option_map confidence (parse_report r2).
Proof.
  intros H.
  assert (Hv : verified_count r1 = verified_count r2)
    by (unfold verified_count; now rewrite !report_clean_is_without_stars, H).
  assert (Hu : unverified_count r1 = unverified_count r2)
    by (unfold unverified_count; now rewrite !report_clean_is_without_stars, H).
  split; [exact Hv|]. split; [exact Hu|].
  now rewrite !confidence_of_counts, Hv, Hu.
Qed.

Lemma emphasis_does_not_change_the_counts_witness :
  without_stars (PyStr.lower "**Status:** VERIFIED* and *status: unverified")
    = without_stars (PyStr.lower "STATUS: verified and Status: UNVERIFIED") /\
  verified_count "**Status:** VERIFIED* and *status: unverified" = 1%Z /\
  verified_count "**Status:** VERIFIED* and *status: unverified"
    = verified_count "STATUS: verified and Status: UNVERIFIED" /\
  unverified_count "**Status:** VERIFIED* and *status: unverified"
    = unverified_count "STATUS: verified and Status: UNVERIFIED" /\
  option_map confidence (parse_report "**Status:** VERIFIED* and *status: unverified")
    = option_map confidence (parse_report "STATUS: verified and Status: UNVERIFIED").
Proof.
  split; [vm_compute; reflexivity|]. split; [vm_compute; reflexivity|].
  apply (emphasis_does_not_change_the_counts
           "**Status:** VERIFIED* and *status: unverified"
           "STATUS: verified and Status: UNVERIFIED").
  vm_compute. reflexivity.
Defined.

Lemma lower_app (a b : string) : PyStr.lower (a ++ b) = PyStr.lower a ++ PyStr.lower b.
Proof. induction a as [|c a IH]; [reflexivity|]. cbn. now rewrite IH. Qed.

Lemma status_lines_without_star (claims : list bool) :
  PyStr.contains "*" (status_lines claims) = false.
Proof.
  induction claims as [|[] claims IH]; [reflexivity| |];
    cbn [status_lines]; cbn; rewrite ?orb_false_l; exact IH.
Qed.

Lemma status_lines_clean (claims : list bool) :
  report_clean (status_lines claims) = PyStr.lower (status_lines claims).
Proof. apply ParserFacts.report_clean_without_star, status_lines_without_star. Qed.

Ltac scan :=
  cbn [PyStr.count_from PyStr.contains PyStr.startswith Ascii.eqb Bool.eqb andb orb
       append String.length Nat.sub PyStr.nl].

Lemma status_lines_counts (claims : list bool) :
  PyStr.count "status: verified" (PyStr.lower (status_lines claims))
    = Z.of_nat (count_occ bool_dec claims true) /\
  PyStr.count "status: unverified" (PyStr.lower (status_lines claims))
    = Z.of_nat (count_occ bool_dec claims false) /\
  PyStr.contains "overall status: passed" (PyStr.lower (status_lines claims)) = false /\
  PyStr.contains "recommendation: publish" (PyStr.lower (status_lines claims)) = false /\
  PyStr.contains ("recommendation:" ++ PyStr.nl ++ "publish")
    (PyStr.lower (status_lines claims)) = false.
Proof.
  induction claims as [|b claims (IHv & IHu & IH1 & IH2 & IH3)]; [repeat split|].
  cbn [status_lines]. rewrite lower_app.
  unfold PyStr.count in *.
  destruct b.
  - change (PyStr.lower "Status: VERIFIED") with "status: verified".
    rewrite lower_app. change (PyStr.lower PyStr.nl) with PyStr.nl.
    set (rest := PyStr.lower (status_lines claims)) in *.
    cbn [count_occ]. destruct (bool_dec true true) as [_|H]; [|now elim H].
    destruct (bool_dec true false) as [H|_]; [discriminate|].
    rewrite Nat2Z.inj_succ, <- IHv, <- IHu.
    repeat split; scan; try assumption; try reflexivity. lia.
  - change (PyStr.lower "Status: UNVERIFIED") with "status: unverified".
    rewrite lower_app. change (PyStr.lower PyStr.nl) with PyStr.nl.
    set (rest := PyStr.lower (status_lines claims)) in *.
    cbn [count_occ]. destruct (bool_dec false true) as [H|_]; [discriminate|].
    destruct (bool_dec false false) as [_|H]; [|now elim H].
    rewrite Nat2Z.inj_succ, <- IHv, <- IHu.
    repeat split; scan; try assumption; try reflexivity. lia.
Qed.

Lemma forallb_counts (claims : list bool) :
  (forallb (fun b => b) claims = true ->
   count_occ bool_dec claims false = 0%nat /\
   count_occ bool_dec claims true = List.length claims) /\
  (forallb (fun b => b) claims = false ->
   (0 < count_occ bool_dec claims false)%nat).
Proof.
  induction claims as [|[] claims [IHyes IHno]]; cbn [forallb andb count_occ List.length].
  - split; [now split | discriminate].
  - destruct (bool_dec true false) as [H|_]; [discriminate|].
    destruct (bool_dec true true) as [_|H]; [|now elim H].
    split; [|exact IHno]. intros H. destruct (IHyes H) as [-> ->]. now split.
  - destruct (bool_dec false false) as [_|H]; [|now elim H].
    split; [discriminate | lia].
Qed.

(** X15: on a report made of status lines, one per claim, the counts
    are the numbers of verified and of unverified claims: a line
    "Status: UNVERIFIED" is never counted as verified. Such a report
    has no acceptance phrase, so that it passes exactly when it has
    a claim and no unverified one. *)
Theorem status_lines_are_counted (claims : list bool) :
  verified_count (status_lines claims) = Z.of_nat (count_occ bool_dec claims true) /\
  unverified_count (status_lines claims) = Z.of_nat (count_occ bool_dec claims false) /\
  exists v,
    parse_report (status_lines claims) = Some v /\
    passed v = forallb (fun b => b) claims && negb (Nat.eqb (List.length claims) 0).
Proof.
  destruct (status_lines_counts claims) as (Hv & Hu & H1 & H2 & H3).
  assert (Ev : verified_count (status_lines claims)
               = Z.of_nat (count_occ bool_dec claims true))
    by (unfold verified_count; now rewrite status_lines_clean).
  assert (Eu : unverified_count (status_lines claims)
               = Z.of_nat (count_occ bool_dec claims false))
    by (unfold unverified_count; now rewrite status_lines_clean).
  split; [exact Ev|]. split; [exact Eu|].
  destruct (ParserFacts.parse_report_total (status_lines claims)) as (v & Hp & _).
  exists v. split; [exact Hp|].
  unfold parse_report in Hp. rewrite Ev, Eu in Hp.
  assert (Hsig : passed_signal (status_lines claims) = false).
  { unfold passed_signal, report_lower. now rewrite H1, H2, H3. }
  rewrite Hsig in Hp.
  assert (Hall : (Z.of_nat (count_occ bool_dec claims false) =? 0)%Z
                 && (0 <? Z.of_nat (count_occ bool_dec claims true))%Z
                 = forallb (fun b => b) claims && negb (Nat.eqb (List.length claims) 0)).
  { destruct (forallb_counts claims) as [Hyes Hno].
    destruct (forallb (fun b => b) claims).
    - destruct (Hyes eq_refl) as [-> ->]. cbn [Z.of_nat Z.eqb andb].
      destruct claims; reflexivity.
    - specialize (Hno eq_refl).
      destruct (Z.eqb_spec (Z.of_nat (count_occ bool_dec claims false)) 0); [lia|].
      reflexivity. }
  destruct (if (0 <? _ + _)%Z then _ else _) as [c|]; [|discriminate].
  rewrite Hall in Hp.
  destruct (forallb (fun b => b) claims && negb (Nat.eqb (List.length claims) 0));
    injection Hp as <-; reflexivity.
Qed.

Section WithEnv.
Context {World : Type} (env : Env World).

(** X16: step 4 raises exactly when the call of the agent raises.
    Whatever text the agent answers, the parsing goes through: the
    verdict carries the answer unchanged and a confidence between 0
    and 100. *)
Theorem verification_fails_only_with_the_agent
    (draft_post source_articles : string) (s : state World) :
  match chat_completion env (VerifierPrompt draft_post source_articles) (world s) with
  | (Some answer, w) =>
      exists v,
        Main.step_4_verify_post env draft_post source_articles s =
        (Ok v, {| world := w;
                  trace := (trace s ++
                            [EvAgent (VerifierPrompt draft_post source_articles)])%list |}) /\
        parse_report answer = Some v /\
        report v = answer /\
        (0 <= confidence v <= 100)%Z
  | (None, w) =>
      Main.step_4_verify_post env draft_post source_articles s =
      (Raised, {| world := w;
                  trace := (trace s ++
                            [EvAgent (VerifierPrompt draft_post source_articles)])%list |})
  end.
Proof.
  unfold Main.step_4_verify_post, Main.call_agent, bind, emit, call, ret, raise.
  cbn [world trace].
  destruct (chat_completion env (VerifierPrompt draft_post source_articles) (world s))
    as [[answer|] w]; [|reflexivity].
  destruct (ParserFacts.parse_report_total answer) as (v & Hp & Hc & Hr).
  exists v. rewrite Hp. repeat split; try assumption; lia.
Qed.

End WithEnv.
End ParserProperties.

(** ** The LinkedIn operations *)
Module LinkedinProperties.
Import Tools Spec Props PerformFacts LinkedinApi.

Section WithEnv.
Context {World : Type} (env : Env World).

(** Without a token argument the operations are those of
    [LinkedinPoster]. *)
Lemma post_to_linkedin_default (content : string) (s : state World) :
  post_to_linkedin env content None s = LinkedinPoster.post_to_linkedin env content s.
Proof. reflexivity. Qed.

Lemma validate_linkedin_token_default (s : state World) :
  match validate_linkedin_token env None s, LinkedinPoster.validate_linkedin_token env s with
  | (Ok v, s1), (Ok v', s2) =>
      valid v = LinkedinPoster.valid v' /\
      validation_error v = LinkedinPoster.check_error v' /\ s1 = s2
  | _, _ => False
  end.
Proof.
  unfold validate_linkedin_token, LinkedinPoster.validate_linkedin_token,
    LinkedinPoster.get_user_profile, token_or_env, bind, emit, read, call, ret.
  cbn [Fetchers.truthy world trace].
  destruct (Fetchers.truthy (getenv env "LINKEDIN_ACCESS_TOKEN" (world s)));
    cbn [negb]; [|repeat split].
  cbn [world trace]. destruct (userinfo_get env _ (world s)) as [[p|] w]; repeat split.
Qed.

Lemma token_or_env_run (access_token : option string) (s : state World) :
  token_or_env env access_token s = (Ok (token_of env access_token (world s)), s).
Proof. unfold token_or_env, token_of. destruct (Fetchers.truthy access_token); reflexivity. Qed.

(** X17: without a token, neither as the argument nor in the
    environment ([None] and the empty string count as unset), the
    publish operation fails with "LINKEDIN_ACCESS_TOKEN not set" and
    sends no request at all. *)
Theorem post_without_token_sends_nothing (content : string)
    (access_token : option string) (s : state World) :
  Fetchers.truthy (token_of env access_token (world s)) = false ->
  post_to_linkedin env content access_token s =
  (Ok (LinkedinPoster.failure "LINKEDIN_ACCESS_TOKEN not set"),
   {| world := world s; trace := (trace s ++ [EvPublish content])%list |}).
Proof.
  intros H. unfold post_to_linkedin. unfold bind at 1. unfold emit at 1.
  unfold bind at 1. rewrite token_or_env_run. cbn [world]. rewrite H. reflexivity.
Qed.

Lemma post_to_linkedin_run (content : string)
    (access_token : option string) (s : state World) :
  exists r s' t,
    post_to_linkedin env content access_token s = (Ok r, s') /\
    trace s' = (trace s ++ EvPublish content :: t)%list /\
    (t = [] \/ t = [EvUserinfo] \/ t = [EvUserinfo; EvUgcPost content]) /\
    (LinkedinPoster.success r = true -> t = [EvUserinfo; EvUgcPost content]) /\
    (LinkedinPoster.success r = true <-> exists id, LinkedinPoster.post_id r = Some id) /\
    (LinkedinPoster.success r = false <-> exists msg, LinkedinPoster.error r = Some msg) /\
    LinkedinPoster.dry_run r = false.
Proof.
  unfold post_to_linkedin. unfold bind at 1. unfold emit at 1.
  unfold bind at 1. rewrite token_or_env_run. cbn [world].
  assert (Hfail : forall msg,
             (LinkedinPoster.success (LinkedinPoster.failure msg) = true ->
              False) /\
             (LinkedinPoster.success (LinkedinPoster.failure msg) = true <->
              exists id, LinkedinPoster.post_id (LinkedinPoster.failure msg) = Some id) /\
             (LinkedinPoster.success (LinkedinPoster.failure msg) = false <->
              exists m, LinkedinPoster.error (LinkedinPoster.failure msg) = Some m) /\
             LinkedinPoster.dry_run (LinkedinPoster.failure msg) = false).
  { intros msg. cbn. split; [discriminate|]. split; [split; [discriminate|]|].
    - intros [id H]. discriminate.
    - split; [|reflexivity]. split; [eauto | reflexivity]. }
  destruct (Fetchers.truthy (token_of env access_token (world s))); cbn [negb].
  2:{ eexists _, _, []. split; [reflexivity|]. split; [reflexivity|].
      split; [now left|]. destruct (Hfail "LINKEDIN_ACCESS_TOKEN not set"%string)
        as (H1 & H2 & H3 & H4).
      split; [intros H; now elim (H1 H)|]. repeat split; try apply H2; try apply H3;
        exact H4. }
  unfold LinkedinPoster.get_user_profile, bind, emit, call, ret. cbn [world trace].
  destruct (userinfo_get env _ (world s)) as [[p|] w]; cbn [world trace].
  2:{ eexists _, _, [EvUserinfo]. split; [reflexivity|].
      split; [cbn; now rewrite <- app_assoc|].
      split; [right; now left|]. destruct (Hfail "Failed to fetch user profile"%string)
        as (H1 & H2 & H3 & H4).
      split; [intros H; now elim (H1 H)|]. repeat split; try apply H2; try apply H3;
        exact H4. }
  destruct (Fetchers.truthy (sub p)); cbn [negb world trace].
  2:{ eexists _, _, [EvUserinfo]. split; [reflexivity|].
      split; [cbn; now rewrite <- app_assoc|].
      split; [right; now left|].
      destruct (Hfail "Could not get user ID from profile"%string)
        as (H1 & H2 & H3 & H4).
      split; [intros H; now elim (H1 H)|]. repeat split; try apply H2; try apply H3;
        exact H4. }
  destruct (ugcPosts_post env _ _ content w) as [[restli_id | code text | message] w'];
    cbn [world trace];
    (eexists _, _, [EvUserinfo; EvUgcPost content]; split; [reflexivity|];
     split; [cbn; now rewrite <- !app_assoc|]; split; [right; now right|];
     split; [reflexivity|]).
  - cbn. split; [split; [eauto | reflexivity]|].
    split; [|reflexivity]. split; [discriminate | intros [m H]; discriminate].
  - destruct (Hfail ("HTTP " ++ PyStr.str code ++ ": " ++ text)%string)
      as (_ & H2 & H3 & H4). repeat split; try apply H2; try apply H3; exact H4.
  - destruct (Hfail message) as (_ & H2 & H3 & H4).
    repeat split; try apply H2; try apply H3; exact H4.
Qed.

Lemma validate_linkedin_token_run (access_token : option string) (s : state World) :
  exists v s' t,
    validate_linkedin_token env access_token s = (Ok v, s') /\
    trace s' = (trace s ++ EvValidateToken :: t)%list /\
    (t = [] \/ t = [EvUserinfo]) /\
    (valid v = true <-> validation_error v = None) /\
    match valid v with
    | true =>
        t = [EvUserinfo] /\
        Fetchers.truthy (token_of env access_token (world s)) = true /\
        exists p w,
          userinfo_get env (Fetchers.get_or "" (token_of env access_token (world s)))
            (world s) = (Some p, w) /\
          user_name v = Some (Fetchers.get_or "Unknown" (name p)) /\
          user_email v = Some (Fetchers.get_or "Unknown" (email p))
    | false =>
        user_name v = None /\ user_email v = None /\
        (Fetchers.truthy (token_of env access_token (world s)) = false \/
         fst (userinfo_get env (Fetchers.get_or "" (token_of env access_token (world s)))
                (world s)) = None)
    end.
Proof.
  unfold validate_linkedin_token. unfold bind at 1. unfold emit at 1.
  unfold bind at 1. rewrite token_or_env_run. cbn [world].
  destruct (Fetchers.truthy (token_of env access_token (world s))); cbn [negb].
  2:{ eexists _, _, []. split; [reflexivity|]. split; [reflexivity|].
      split; [now left|]. cbn. split; [split; discriminate | repeat split; now left]. }
  unfold LinkedinPoster.get_user_profile, bind, emit, call, ret. cbn [world trace].
  destruct (userinfo_get env _ (world s)) as [[p|] w] eqn:Ep; cbn [world trace].
  - eexists _, _, [EvUserinfo]. split; [reflexivity|].
    split; [cbn; now rewrite <- app_assoc|]. split; [now right|].
    cbn. split; [now split|]. split; [reflexivity|]. split; [reflexivity|].
    now exists p, w.
  - eexists _, _, [EvUserinfo]. split; [reflexivity|].
    split; [cbn; now rewrite <- app_assoc|]. split; [now right|].
    cbn. split; [split; discriminate | repeat split; now right].
Qed.

(** X18: a token that passes the validation does not settle the
    publishing. In the state in which the validation answers
    [valid], the publish operation gets past the token and the
    profile, and then either sends the post request or fails because
    the profile has no subject. *)
Theorem valid_token_reaches_the_post (content : string)
    (access_token : option string) (s : state World) :
  validates env access_token s = true ->
  exists r s',
    post_to_linkedin env content access_token s = (Ok r, s') /\
    (trace s' = (trace s ++ [EvPublish content; EvUserinfo; EvUgcPost content])%list \/
     (trace s' = (trace s ++ [EvPublish content; EvUserinfo])%list /\
      LinkedinPoster.error r = Some "Could not get user ID from profile"%string)).
Proof.
  unfold validates. intros Hv.
  destruct (validate_linkedin_token_run access_token s) as (v & s1 & t & E & _ & _ & _ & Hm).
  rewrite E in Hv. cbn [fst] in Hv. rewrite Hv in Hm.
  destruct Hm as (_ & Htok & p & w & Ep & _).
  unfold post_to_linkedin. unfold bind at 1. unfold emit at 1.
  unfold bind at 1. rewrite token_or_env_run. cbn [world]. rewrite Htok. cbn [negb].
  unfold LinkedinPoster.get_user_profile, bind, emit, call, ret. cbn [world trace].
  rewrite Ep. cbn [world trace].
  destruct (Fetchers.truthy (sub p)); cbn [negb world trace].
  - destruct (ugcPosts_post env _ _ content w) as [[restli_id | code text | message] w'];
      cbn [world trace]; eexists _, _; (split; [reflexivity|]); left;
      cbn; now rewrite <- !app_assoc.
  - eexists _, _. split; [reflexivity|]. right.
    split; [cbn; now rewrite <- !app_assoc | reflexivity].
Qed.

(** X19: the publish operation never raises. It makes the profile
    request and then the post request, and stops at the first that
    fails. Its result has a post id exactly when it is a success, an
    error message exactly when it is not, and it is a success only
    after the post request. *)
Theorem post_result_is_well_formed (content : string)
    (access_token : option string) (s : state World) :
  exists r s' t,
    post_to_linkedin env content access_token s = (Ok r, s') /\
    trace s' = (trace s ++ EvPublish content :: t)%list /\
    (t = [] \/ t = [EvUserinfo] \/ t = [EvUserinfo; EvUgcPost content]) /\
    (LinkedinPoster.success r = true -> t = [EvUserinfo; EvUgcPost content]) /\
    (LinkedinPoster.success r = true <-> exists id, LinkedinPoster.post_id r = Some id) /\
    (LinkedinPoster.success r = false <-> exists msg, LinkedinPoster.error r = Some msg) /\
    LinkedinPoster.dry_run r = false.
Proof. apply post_to_linkedin_run. Qed.

(** X20: the validation never raises, makes at most the profile
    request, and never calls the publish operation or the post
    request. It answers [valid] exactly when a token is set and the
    profile request gives a profile; the name and the e-mail address
    are then those of the profile, "Unknown" where the profile has
    none. An answer that is not [valid] carries an error message and
    no name. *)
Theorem validation_only_reads (access_token : option string) (s : state World) :
  exists v s' t,
    validate_linkedin_token env access_token s = (Ok v, s') /\
    trace s' = (trace s ++ EvValidateToken :: t)%list /\
    (t = [] \/ t = [EvUserinfo]) /\
    (valid v = true <-> validation_error v = None) /\
    match valid v with
    | true =>
        t = [EvUserinfo] /\
        Fetchers.truthy (token_of env access_token (world s)) = true /\
        exists p w,
          userinfo_get env (Fetchers.get_or "" (token_of env access_token (world s)))
            (world s) = (Some p, w) /\
          user_name v = Some (Fetchers.get_or "Unknown" (name p)) /\
          user_email v = Some (Fetchers.get_or "Unknown" (email p))
    | false =>
        user_name v = None /\ user_email v = None /\
        (Fetchers.truthy (token_of env access_token (world s)) = false \/
         fst (userinfo_get env (Fetchers.get_or "" (token_of env access_token (world s)))
                (world s)) = None)
    end.
Proof. apply validate_linkedin_token_run. Qed.

Lemma post_to_linkedin_api_performs (content : string) (access_token : option string) :
  performs (post_to_linkedin env content access_token)
    (fun o t => exists result, o = Ok result /\ publication false content result t).
Proof.
  intros s.
  destruct (post_to_linkedin_run content access_token s)
    as (r & s' & t & E & Ht & Hcases & Hok & _ & Hfalse & Hdry).
  exists (EvPublish content :: t). rewrite E. split; [exact Ht|].
  exists r. split; [reflexivity|]. split; [exact Hdry|].
  destruct (LinkedinPoster.success r) eqn:Es.
  - right; right. now rewrite (Hok eq_refl).
  - destruct Hcases as [-> | [-> | ->]]; [left | right; left | right; right]; auto.
Qed.

Lemma validate_linkedin_token_performs (access_token : option string) :
  performs (validate_linkedin_token env access_token)
    (fun o t =>
       exists v, o = Ok v /\
                 (t = [EvValidateToken; EvUserinfo] \/
                  (t = [EvValidateToken] /\ valid v = false))).
Proof.
  intros s.
  destruct (validate_linkedin_token_run access_token s)
    as (v & s' & t & E & Ht & Hcases & _ & Hm).
  exists (EvValidateToken :: t). rewrite E. split; [exact Ht|].
  exists v. split; [reflexivity|].
  destruct Hcases as [-> | ->]; [right | now left].
  split; [reflexivity|]. destruct (valid v); [|reflexivity].
  destruct Hm as [H _]. discriminate.
Qed.

End WithEnv.
End LinkedinProperties.

(** ** The endpoints of the tools server *)
Module ServerProperties.
Import Tools Spec Props PerformFacts CollectFacts ToolsServer LinkedinProperties.

Section WithEnv.
Context {World : Type} (senv : ServerEnv World).

Lemma performs_try {A : Type} (c handler : M World A)
    (Q1 Q : outcome A -> list event -> Prop) :
  performs c Q1 ->
  (forall a t1, Q1 (Ok a) t1 -> Q (Ok a) t1) ->
  (forall t1, Q1 Raised t1 -> performs handler (fun o t2 => Q o (t1 ++ t2)%list)) ->
  performs (try_except c handler) Q.
Proof.
  intros Hc Hok Hh s. destruct (Hc s) as (t1 & E1 & H1).
  unfold try_except. destruct (c s) as [[a|] s1]; cbn [fst snd] in *.
  - exists t1. split; [exact E1 | apply Hok, H1].
  - destruct (Hh t1 H1 s1) as (t2 & E2 & H2).
    exists (t1 ++ t2)%list. split; [now rewrite E2, E1, app_assoc | exact H2].
Qed.

Lemma call_openai_performs (prompt : string) (system_message : option string) :
  performs (call_openai senv prompt system_message) (fun _ t => t = []).
Proof.
  intros s. unfold call_openai, bind, call, ret, raise. cbv zeta.
  destruct (chat_create senv _ (world s)) as [[content|] w];
    exists []; cbn; now rewrite app_nil_r.
Qed.

Lemma json_or_empty_performs (request : request_json) :
  performs (json_or_empty (World := World) request)
    (fun o t => t = [] /\
                match request with
                | BadJson => o = Raised
                | JsonNull => o = Ok no_fields
                | JsonObject data => o = Ok data
                end).
Proof.
  destruct request; [apply performs_raise | apply performs_ret | apply performs_ret];
    now split.
Qed.

Lemma fetch_article_content_performs (url : string) (max_length : Z) :
  performs (ArticleFetcher.fetch_article_content (web senv) url max_length)
    (fun o t => t = [] /\ exists a, o = Ok a).
Proof.
  intros s. unfold ArticleFetcher.fetch_article_content, bind, call, ret.
  destruct (ArticleFetcher.requests_get (web senv) url (world s)) as [[page | m | m] w];
    exists []; cbn; rewrite app_nil_r; (split; [reflexivity|]); split; eauto.
Qed.

Lemma append_full_content_performs (urls : list string) (full_content : string) :
  performs (append_full_content senv urls full_content)
    (fun o t => t = [] /\ exists text, o = Ok text).
Proof.
  revert full_content. induction urls as [|url rest IH]; intros full_content;
    cbn [append_full_content].
  - apply performs_ret. split; eauto.
  - eapply performs_bind; [apply fetch_article_content_performs | |].
    { intros t1 [_ [a H]]. discriminate. }
    intros a t1 [-> _]. cbn [app]. apply IH.
Qed.

(** The views that collect articles first add the events of one
    collection. *)
Lemma generate_post_performs (request : request_json) :
  performs (generate_post senv request)
    (fun o t =>
       (t = [] \/ collection t) /\
       (o = Ok (WithStatus Crashed 500) \/
        o = Ok (Response (Failure "No articles found")) \/
        exists post used, o = Ok (Response (Generated post used)) /\ (used <= 4)%nat)).
Proof.
  unfold generate_post.
  eapply performs_try with
    (Q1 := fun o t =>
             (t = [] \/ collection t) /\
             (o = Raised \/
              o = Ok (Response (Failure "No articles found")) \/
              exists post used,
                o = Ok (Response (Generated post used)) /\ (used <= 4)%nat)).
  - eapply performs_bind; [apply json_or_empty_performs | |].
    { intros t1 [-> _]. split; [now left | now left]. }
    intros data t1 [-> _]. cbn [app]. cbv zeta.
    eapply performs_bind; [apply fetch_rss_feeds_performs | |].
    { intros t1 [_ [l H]]. discriminate. }
    intros rss t1 [-> _].
    eapply performs_bind; [apply fetch_gnews_performs | |].
    { intros t1 [_ [l H]]. discriminate. }
    intros gnews g [Hg _].
    assert (Hc : collection (feed_requests ++ g)).
    { destruct Hg as [-> | ->]; [left; now rewrite app_nil_r | now right]. }
    destruct (rss ++ gnews)%list as [|a all].
    { apply performs_ret. rewrite app_nil_r. split; [now right | right; now left]. }
    eapply performs_bind; [apply call_openai_performs | |].
    { intros t1 ->. rewrite app_nil_r. split; [now right | now left]. }
    intros curated t1 ->.
    eapply performs_bind; [apply append_full_content_performs | |].
    { intros t1 [_ [x H]]. discriminate. }
    intros full_content t1 [-> _].
    eapply performs_bind; [apply call_openai_performs | |].
    { intros t1 ->. rewrite !app_nil_r. split; [now right | now left]. }
    intros post_content t1 ->.
    apply performs_ret. rewrite !app_nil_r. split; [now right|].
    right; right. eexists _, _. split; [reflexivity|]. apply firstn_le_length.
  - intros a t1 [Ht [H | [H | H]]]; [discriminate | |]; (split; [exact Ht|]).
    + right; now left.
    + right; now right.
  - intros t1 [Ht _]. apply performs_ret. rewrite app_nil_r. split; [exact Ht | now left].
Qed.

(** What [linkedin_post] does, case by case. *)
Lemma linkedin_post_performs (request : request_json) :
  performs (linkedin_post senv request)
    (fun o t =>
       match request with
       | BadJson => o = Ok (WithStatus Crashed 500) /\ t = []
       | JsonNull => o = Ok (WithStatus (Failure "Missing 'content' field") 400) /\ t = []
       | JsonObject data =>
           match ToolsServer.content data with
           | None =>
               o = Ok (WithStatus (Failure "Missing 'content' field") 400) /\ t = []
           | Some text =>
               (o = Ok (WithStatus (Failure "LinkedIn token is invalid or expired") 401) /\
                (t = [EvValidateToken] \/ t = [EvValidateToken; EvUserinfo])) \/
               (exists result pub,
                   o = Ok (Response (Posted result)) /\
                   t = (EvValidateToken :: EvUserinfo :: pub) /\
                   publication false text result pub)
           end
       end).
Proof.
  unfold linkedin_post.
  destruct request as [| |data].
  - eapply performs_try with (Q1 := fun o t => o = Raised /\ t = []).
    + apply performs_raise. now split.
    + intros a t1 [H _]. discriminate.
    + intros t1 [_ ->]. apply performs_ret. now split.
  - eapply performs_try with
      (Q1 := fun o t => o = Ok (WithStatus (Failure "Missing 'content' field") 400)
                        /\ t = []).
    + apply performs_ret. now split.
    + intros a t1 H. exact H.
    + intros t1 [H _]. discriminate.
  - destruct (ToolsServer.content data) as [text|].
    2:{ eapply performs_try with
          (Q1 := fun o t => o = Ok (WithStatus (Failure "Missing 'content' field") 400)
                            /\ t = []).
        + apply performs_ret. now split.
        + intros a t1 H. exact H.
        + intros t1 [H _]. discriminate. }
    eapply performs_try with
      (Q1 := fun o t =>
               (o = Ok (WithStatus (Failure "LinkedIn token is invalid or expired") 401) /\
                (t = [EvValidateToken] \/ t = [EvValidateToken; EvUserinfo])) \/
               (exists result pub,
                   o = Ok (Response (Posted result)) /\
                   t = (EvValidateToken :: EvUserinfo :: pub) /\
                   publication false text result pub)).
    + eapply performs_bind; [apply validate_linkedin_token_performs | |].
      { intros t1 (v & H & _). discriminate. }
      intros v t1 (v' & Hv & Ht). injection Hv as <-.
      destruct (LinkedinApi.valid v) eqn:Evalid; cbn [negb].
      * destruct Ht as [-> | [_ H]]; [|discriminate].
        eapply performs_bind; [apply post_to_linkedin_api_performs | |].
        { intros t1 (r & H & _). discriminate. }
        intros result pub (r' & Hr & Hpub). injection Hr as <-.
        apply performs_ret. rewrite app_nil_r. right. now exists result, pub.
      * apply performs_ret. rewrite app_nil_r. left. split; [reflexivity|].
        destruct Ht as [-> | [-> _]]; [now right | now left].
    + intros a t1 H. exact H.
    + intros t1 [[H _] | (r & p & H & _)]; discriminate.
Qed.

Lemma full_workflow_performs (request : request_json) :
  performs (full_workflow senv request)
    (fun o t =>
       exists r f pub,
         o = Ok r /\ t = (f ++ pub)%list /\ (f = [] \/ collection f) /\
         ((pub = [] /\
           (r = WithStatus Crashed 500 \/
            r = Response (Failure "No articles found") \/
            (wants_post request = false /\
             exists post message, r = Response (GeneratedOnly post message)))) \/
          (wants_post request = true /\
           (pub = [EvValidateToken] \/ pub = [EvValidateToken; EvUserinfo]) /\
           exists post error, r = Response (NotPublished post error)) \/
          (wants_post request = true /\
           exists post result p,
             r = Response (Published (LinkedinPoster.success result) post result) /\
             pub = EvValidateToken :: EvUserinfo :: p /\
             publication false post result p))).
Proof.
  unfold full_workflow.
  eapply performs_try with
    (Q1 := fun o t =>
       exists f pub,
         t = (f ++ pub)%list /\ (f = [] \/ collection f) /\
         ((pub = [] /\
           (o = Raised \/
            o = Ok (Response (Failure "No articles found")) \/
            (wants_post request = false /\
             exists post message, o = Ok (Response (GeneratedOnly post message))))) \/
          (wants_post request = true /\
           (pub = [EvValidateToken] \/ pub = [EvValidateToken; EvUserinfo]) /\
           exists post error, o = Ok (Response (NotPublished post error))) \/
          (wants_post request = true /\
           exists post result p,
             o = Ok (Response (Published (LinkedinPoster.success result) post result)) /\
             pub = EvValidateToken :: EvUserinfo :: p /\
             publication false post result p))).
  - eapply performs_bind; [apply json_or_empty_performs | |].
    { intros t1 [-> _]. exists [], []. split; [reflexivity|]. split; [now left|].
      left. split; [reflexivity | now left]. }
    intros data t1 [-> Hdata]. cbn [app]. cbv zeta.
    assert (Hwants : wants_post request =
                     match ToolsServer.auto_post data with
                     | Some b => b
                     | None => false
                     end).
    { destruct request as [| |d]; [discriminate | |]; injection Hdata as ->; reflexivity. }
    eapply performs_bind; [apply generate_post_performs | |].
    { intros f [Hf [H | [H | (p & u & H & _)]]]; discriminate. }
    intros gen_response f [Hf Hgen].
    destruct Hgen as [Hgen | [Hgen | (post & used & Hgen & _)]]; injection Hgen as ->;
      cbn [get_json].
    + (* the pair of a response and 500 has no get_json *)
      eapply performs_bind with (Q1 := fun o t => t = [] /\ o = Raised);
        [apply performs_raise; now split | |].
      * intros t1 [-> _]. exists f, []. split; [reflexivity|]. split; [exact Hf|].
        left. split; [reflexivity | now left].
      * intros a t1 [_ H]. discriminate.
    + eapply performs_bind with (Q1 := fun o t => t = [] /\ o = Ok (Failure "No articles found")).
      { apply performs_ret. now split. }
      { intros t1 [_ H]. discriminate. }
      intros gen_data t1 [-> Hg]. injection Hg as ->. cbn [success_of negb].
      apply performs_ret. exists f, []. split; [reflexivity|]. split; [exact Hf|].
      left. split; [reflexivity|]. right; now left.
    + eapply performs_bind with (Q1 := fun o t => t = [] /\ o = Ok (Generated post used)).
      { apply performs_ret. now split. }
      { intros t1 [_ H]. discriminate. }
      intros gen_data t1 [-> Hg]. injection Hg as ->. cbn [success_of negb post_of].
      rewrite <- Hwants. destruct (wants_post request) eqn:Ew.
      * eapply performs_bind; [apply validate_linkedin_token_performs | |].
        { intros t1 (v & H & _). discriminate. }
        intros v t1 (v' & Hv & Ht). injection Hv as <-.
        destruct (LinkedinApi.valid v) eqn:Evalid; cbn [negb].
        -- destruct Ht as [-> | [_ H]]; [|discriminate].
           eapply performs_bind; [apply post_to_linkedin_api_performs | |].
           { intros t1 (r & H & _). discriminate. }
           intros result p (r' & Hr & Hpub). injection Hr as <-.
           apply performs_ret. exists f, (EvValidateToken :: EvUserinfo :: p).
           split; [now rewrite !app_nil_r|]. split; [exact Hf|].
           right; right. split; [reflexivity|]. now exists post, result, p.
        -- apply performs_ret. exists f, t1.
           split; [now rewrite !app_nil_r|]. split; [exact Hf|].
           right; left. split; [reflexivity|]. split.
           ++ destruct Ht as [-> | [-> _]]; [now right | now left].
           ++ eauto.
      * apply performs_ret. exists f, []. split; [reflexivity|]. split; [exact Hf|].
        left. split; [reflexivity|]. right; right. split; [reflexivity | eauto].
  - intros a t1 (f & pub & -> & Hf & H). exists a, f, pub.
    split; [reflexivity|]. split; [reflexivity|]. split; [exact Hf|].
    destruct H as [[-> [H | [H | (Hw & post & m & H)]]] | [(Hw & Hp & post & e & H) | (Hw & post & r & p & H & Hp)]].
    + discriminate.
    + injection H as ->. left. split; [reflexivity|]. right; now left.
    + injection H as ->. left. split; [reflexivity|]. right; right. split; eauto.
    + injection H as ->. right; left. split; [exact Hw|]. split; [exact Hp | eauto].
    + injection H as ->. right; right. split; [exact Hw|]. now exists post, r, p.
  - intros t1 (f & pub & -> & Hf & H).
    apply performs_ret. rewrite app_nil_r.
    destruct H as [[-> _] | [(_ & _ & post & e & H) | (_ & post & r & p & H & _)]];
      try discriminate.
    exists (WithStatus Crashed 500), f, []. split; [reflexivity|].
    split; [reflexivity|]. split; [exact Hf|]. left. split; [reflexivity | now left].
Qed.

Lemma take_length (n : nat) (s : string) : (String.length (PyStr.take n s) <= n)%nat.
Proof.
  unfold PyStr.take. revert s. induction n as [|n IH]; intros s.
  - destruct s; cbn; lia.
  - destruct s as [|c s]; cbn [substring String.length]; [lia|].
    specialize (IH s). lia.
Qed.

Lemma fetch_ai_news_performs (request : request_json) :
  performs (fetch_ai_news senv request)
    (fun o t =>
       match request with
       | BadJson => o = Ok (WithStatus Crashed 500) /\ t = []
       | _ =>
           collection t /\
           exists articles,
             o = Ok (Response (News (List.length articles) articles)) /\
             Forall (fun a => (String.length (summary a) <= 1000)%nat) articles
       end).
Proof.
  unfold fetch_ai_news.
  eapply performs_try with
    (Q1 := fun o t =>
       match request with
       | BadJson => o = Raised /\ t = []
       | _ =>
           collection t /\
           exists articles,
             o = Ok (Response (News (List.length articles) articles)) /\
             Forall (fun a => (String.length (summary a) <= 1000)%nat) articles
       end).
  - eapply performs_bind; [apply json_or_empty_performs | |].
    { intros t1 [-> H]. destruct request; try discriminate. now split. }
    intros data t1 [-> Hdata]. cbn [app]. cbv zeta.
    assert (Hgoal : performs
              (rss_articles <- Fetchers.fetch_rss_feeds (env senv) (get_hours_back data) ;;
               gnews_articles <- Fetchers.fetch_gnews (env senv) None 10 ;;
               ret (Response
                      (News (List.length
                               (map (fun a => {| title := title a;
                                                 summary := PyStr.take 1000 (summary a);
                                                 url := url a; date := date a;
                                                 source := source a |})
                                    (rss_articles ++ gnews_articles)))
                            (map (fun a => {| title := title a;
                                              summary := PyStr.take 1000 (summary a);
                                              url := url a; date := date a;
                                              source := source a |})
                                 (rss_articles ++ gnews_articles)))))
              (fun o t =>
                 collection t /\
                 exists articles,
                   o = Ok (Response (News (List.length articles) articles)) /\
                   Forall (fun a => (String.length (summary a) <= 1000)%nat) articles)).
    { eapply performs_bind; [apply fetch_rss_feeds_performs | |].
      { intros t1 [_ [l H]]. discriminate. }
      intros rss t1 [-> _].
      eapply performs_bind; [apply fetch_gnews_performs | |].
      { intros t1 [_ [l H]]. discriminate. }
      intros gnews g [Hg _].
      apply performs_ret. rewrite app_nil_r. split.
      - destruct Hg as [-> | ->]; [left; now rewrite app_nil_r | now right].
      - eexists. split; [reflexivity|].
        apply Forall_forall. intros a Ha. apply in_map_iff in Ha.
        destruct Ha as (a0 & <- & _). cbn [summary]. apply take_length. }
    destruct request; [discriminate | exact Hgoal | exact Hgoal].
  - intros a t1 H. destruct request; [destruct H; discriminate | exact H | exact H].
  - intros t1 H. apply performs_ret. rewrite app_nil_r.
    destruct request as [| |d]; [split; [reflexivity | apply H] | |];
      destruct H as (_ & l & H & _); discriminate.
Qed.

Lemma collection_is_fetch (f : list event) :
  f = [] \/ collection f -> Forall (fun e => is_fetch e = true) f.
Proof.
  intros [-> | Hf]; [constructor|].
  apply (RunProperties.collection_forall _ f Hf); reflexivity.
Qed.

Lemma validated_before_publish_fetch (validated : bool) (f pub : list event) :
  Forall (fun e => is_fetch e = true) f ->
  validated_before_publish validated (f ++ pub) = validated_before_publish validated pub.
Proof.
  induction 1 as [|e f He _ IH]; [reflexivity|].
  cbn [app]. destruct e; try discriminate; exact IH.
Qed.

Lemma publication_validated (content : string) (result : LinkedinPoster.post_result)
    (pub : list event) :
  publication false content result pub ->
  validated_before_publish true pub = true /\
  In (EvPublish content) pub /\
  Forall (fun e => is_linkedin e = true) pub.
Proof.
  intros [_ [[-> _] | [[-> _] | ->]]]; repeat split; try (now left); repeat constructor.
Qed.

(** X21: the endpoint that publishes validates the token first. It
    never raises; without a content field it answers 400, and when
    the request body cannot be read 500, in both cases before any
    request to LinkedIn; when the validation fails it answers 401
    and the publish operation is not called; only after a validation
    that answered [valid] is the publish operation called, on the
    content of the request, and its result is the answer. *)
Theorem publish_endpoint_validates_first (request : request_json) (s : state World) :
  exists r s' t,
    linkedin_post senv request s = (Ok r, s') /\
    trace s' = (trace s ++ t)%list /\
    validated_before_publish false t = true /\
    In (status_code_of r) [200; 400; 401; 500] /\
    (status_code_of r = 400 \/ status_code_of r = 500 -> t = []) /\
    (status_code_of r = 401 ->
     t = [EvValidateToken] \/ t = [EvValidateToken; EvUserinfo]) /\
    (status_code_of r = 200 ->
     exists data text result pub,
       request = JsonObject data /\ ToolsServer.content data = Some text /\
       r = Response (Posted result) /\
       t = EvValidateToken :: EvUserinfo :: pub /\
       publication false text result pub).
Proof.
  destruct (linkedin_post_performs request s) as (t & Ht & H).
  destruct (linkedin_post senv request s) as [o s'] eqn:E. cbn [fst snd] in *.
  assert (Hcase :
    (exists code msg, o = Ok (WithStatus msg code) /\ (code = 400 \/ code = 500) /\ t = []) \/
    (exists msg, o = Ok (WithStatus msg 401) /\
                 (t = [EvValidateToken] \/ t = [EvValidateToken; EvUserinfo])) \/
    (exists data text result pub,
        request = JsonObject data /\ ToolsServer.content data = Some text /\
        o = Ok (Response (Posted result)) /\
        t = EvValidateToken :: EvUserinfo :: pub /\
        publication false text result pub)).
  { destruct request as [| |data].
    - destruct H as [-> ->]. left. eexists _, _. split; [reflexivity|]. split; auto.
    - destruct H as [-> ->]. left. eexists _, _. split; [reflexivity|]. split; auto.
    - destruct (ToolsServer.content data) as [text|] eqn:Ec.
      + destruct H as [[-> Ht'] | (result & pub & -> & -> & Hpub)].
        * right; left. eexists. split; [reflexivity | exact Ht'].
        * right; right. now exists data, text, result, pub.
      + destruct H as [-> ->]. left. eexists _, _. split; [reflexivity|]. split; auto. }
  destruct Hcase as [(code & msg & -> & Hcode & ->)
                    | [(msg & -> & Ht') | (data & text & result & pub & -> & Ec & -> & -> & Hpub)]].
  - eexists _, s', []. split; [reflexivity|]. split; [exact Ht|].
    split; [reflexivity|]. cbn [status_code_of].
    split; [destruct Hcode as [-> | ->]; cbn; auto|].
    split; [reflexivity|].
    split; intros Hs; destruct Hcode; subst; discriminate.
  - eexists _, s', t. split; [reflexivity|]. split; [exact Ht|].
    split; [destruct Ht' as [-> | ->]; reflexivity|]. cbn [status_code_of].
    split; [cbn; auto|]. split; [intros [Hs | Hs]; discriminate|].
    split; [intros _; exact Ht' | intros Hs; discriminate].
  - eexists _, s', _. split; [reflexivity|]. split; [exact Ht|].
    destruct (publication_validated text result pub Hpub) as (Hv & _ & _).
    split; [exact Hv|]. cbn [status_code_of].
    split; [cbn; auto|]. split; [intros [Hs | Hs]; discriminate|].
    split; [intros Hs; discriminate|].
    intros _. now exists data, text, result, pub.
Qed.

(** X22: [full_workflow] never raises, and it reaches LinkedIn only
    when the request sets [auto_post]: then it validates the token
    before it calls the publish operation, and with a token that is
    not valid it answers with the generated post and does not call
    it. A failure inside [generate_post] comes back as a 500. *)
Theorem full_workflow_publishes_only_on_request (request : request_json)
    (s : state World) :
  exists r s' t,
    full_workflow senv request s = (Ok r, s') /\
    trace s' = (trace s ++ t)%list /\
    validated_before_publish false t = true /\
    (wants_post request = false -> Forall (fun e => is_linkedin e = false) t) /\
    (forall post error,
        body_of r = NotPublished post error ->
        Forall (fun e => is_publish e = false) t) /\
    (forall ok post result,
        body_of r = Published ok post result ->
        ok = LinkedinPoster.success result /\ In (EvPublish post) t).
Proof.
  destruct (full_workflow_performs request s) as (t & Ht & r & f & pub & Ho & -> & Hf & H).
  destruct (full_workflow senv request s) as [o s'] eqn:E. cbn [fst snd] in *. subst o.
  exists r, s', (f ++ pub)%list. split; [reflexivity|]. split; [exact Ht|].
  pose proof (collection_is_fetch f Hf) as Hfetch.
  assert (Hfl : Forall (fun e => is_linkedin e = false) f).
  { eapply Forall_impl; [|exact Hfetch]. intros e He. destruct e; try discriminate; reflexivity. }
  assert (Hfp : Forall (fun e => is_publish e = false) f).
  { eapply Forall_impl; [|exact Hfetch]. intros e He. destruct e; try discriminate; reflexivity. }
  rewrite validated_before_publish_fetch by exact Hfetch.
  destruct H as [[-> Hr] | [(Hw & Hp & post & err & ->) | (Hw & post & result & p & -> & -> & Hpub)]].
  - split; [reflexivity|]. rewrite app_nil_r. split; [intros _; exact Hfl|].
    split.
    + intros post err Hb. exact Hfp.
    + intros ok post result Hb.
      destruct Hr as [-> | [-> | (_ & p & m & ->)]]; discriminate.
  - split; [destruct Hp as [-> | ->]; reflexivity|].
    split; [intros Hn; congruence|]. split.
    + intros post' err' _. apply Forall_app. split; [exact Hfp|].
      destruct Hp as [-> | ->]; repeat constructor.
    + intros ok post' result Hb. discriminate.
  - destruct (publication_validated post result p Hpub) as (Hv & Hin & _).
    split; [exact Hv|]. split; [intros Hn; congruence|]. split.
    + intros post' err' Hb. discriminate.
    + intros ok post' result' Hb. cbn [body_of] in Hb. injection Hb as <- <- <-.
      split; [reflexivity|]. apply in_or_app. right. right. right. exact Hin.
Qed.

(** X23: [generate_post] never raises and never reaches LinkedIn: it
    only requests the feeds and the news. It answers 500 when the
    request body cannot be read or a call of the model raises, "No
    articles found" when nothing was collected, and otherwise a post
    written from at most four fetched articles. *)
Theorem generate_post_uses_four_articles (request : request_json) (s : state World) :
  exists r s' t,
    generate_post senv request s = (Ok r, s') /\
    trace s' = (trace s ++ t)%list /\
    (t = [] \/ collection t) /\
    Forall (fun e => is_linkedin e = false) t /\
    (r = WithStatus Crashed 500 \/
     r = Response (Failure "No articles found") \/
     exists post used, r = Response (Generated post used) /\ (used <= 4)%nat) /\
    (request = BadJson -> r = WithStatus Crashed 500 /\ t = []).
Proof.
  destruct (generate_post_performs request s) as (t & Ht & Hf & H).
  assert (Hbad : request = BadJson -> generate_post senv request s
                                      = (Ok (WithStatus Crashed 500), s)).
  { intros ->. reflexivity. }
  destruct (generate_post senv request s) as [o s'] eqn:E. cbn [fst snd] in *.
  assert (Ho : exists r, o = Ok r /\
                (r = WithStatus Crashed 500 \/
                 r = Response (Failure "No articles found") \/
                 exists post used, r = Response (Generated post used) /\ (used <= 4)%nat)).
  { destruct H as [-> | [-> | (p & u & -> & Hu)]]; eexists; (split; [reflexivity|]);
      [now left | right; now left | right; right; eauto]. }
  destruct Ho as (r & -> & Hr).
  exists r, s', t. split; [reflexivity|]. split; [exact Ht|]. split; [exact Hf|].
  split.
  - eapply Forall_impl; [|apply (collection_is_fetch t Hf)].
    intros e He. destruct e; try discriminate; reflexivity.
  - split; [exact Hr|]. intros Hb. specialize (Hbad Hb). injection Hbad as Hr' Hs.
    split; [exact Hr'|]. rewrite Hs in Ht.
    apply (app_inv_head (trace s)). rewrite app_nil_r. symmetry. exact Ht.
Qed.


End WithEnv.
End ServerProperties.

(** ** The entry point *)
Module CliProperties.
Import Tools Main Spec Props PerformFacts ShapeFacts Cli.

Section WithEnv.
Context {World : Type} (env : Env World) (json_dumps : results -> string).

Lemma main_refuses (args : args) (s : state World) :
  refuses env args (world s) = true -> main env json_dumps args s = (Ok Exit1, s).
Proof.
  unfold refuses, main, bind, read, ret. intros H.
  destruct (Fetchers.truthy (getenv env "OPENAI_API_KEY" (world s))); cbn [negb] in *;
    [|reflexivity].
  cbn [orb] in H. now rewrite H.
Qed.

Lemma main_runs (args : args) (s : state World) :
  refuses env args (world s) = false ->
  main env json_dumps args s =
  (results <- run_workflow env (negb (post args)) (hours args)
                (skip_verify args) (threshold args) ;;
   now <- call (datetime_now env) ;;
   let results_file := ("logs/run_" ++ strftime env now ++ ".json")%string in
   emit (EvWriteFile results_file (json_dumps results)) ;;;
   update (write_text env results_file (json_dumps results)) ;;;
   ret (Saved results_file)) s.
Proof.
  unfold refuses, main. intros H. apply orb_false_iff in H. destruct H as [H1 H2].
  unfold bind at 1. unfold read at 1.
  destruct (Fetchers.truthy (getenv env "OPENAI_API_KEY" (world s))); [|discriminate].
  cbn [negb]. unfold bind at 1. unfold read at 1. now rewrite H2.
Qed.

(** X25: [main] exits with status 1 before it does anything when
    the OpenAI key is missing, or when [--post] is given and the
    LinkedIn token is missing. Otherwise it runs the workflow, as a
    dry run unless [--post] is given, and writes the results file
    last, only if the workflow came back: when the workflow raises,
    [main] raises too and no results are saved. Without [--post]
    LinkedIn is never reached. *)
Theorem main_saves_the_results_last (args : args) (s : state World) :
  exists t,
    trace (snd (main env json_dumps args s)) = (trace s ++ t)%list /\
    (post args = false -> Forall (fun e => is_linkedin e = false) t) /\
    match fst (main env json_dumps args s) with
    | Ok Exit1 => t = [] /\ refuses env args (world s) = true
    | Ok (Saved results_file) =>
        refuses env args (world s) = false /\
        exists pre r,
          t = (pre ++ [EvWriteFile results_file (json_dumps r)])%list /\
          fst (run_workflow env (negb (post args)) (hours args) (skip_verify args)
                 (threshold args) s) = Ok r
    | Raised =>
        refuses env args (world s) = false /\
        fst (run_workflow env (negb (post args)) (hours args) (skip_verify args)
               (threshold args) s) = Raised /\
        Forall (fun e => is_write e = false /\ is_linkedin e = false) t
    end.
Proof.
  destruct (refuses env args (world s)) eqn:Eref.
  - rewrite (main_refuses args s Eref). exists []. cbn [fst snd].
    rewrite app_nil_r. repeat split. constructor.
  - rewrite (main_runs args s Eref).
    destruct (run_workflow_performs env (negb (post args)) (hours args)
                (skip_verify args) (threshold args) s) as (t & Ht & Hs).
    rewrite WorkflowFacts.bind_run.
    destruct (run_workflow env (negb (post args)) (hours args) (skip_verify args)
                (threshold args) s) as [[r|] s1]; cbn [fst snd] in *.
    + unfold bind, call, emit, update, ret. cbn [world trace].
      destruct (datetime_now env (world s1)) as [now w]. cbn [world trace fst snd].
      eexists (t ++ [_])%list. split; [now rewrite Ht, app_assoc|]. split.
      * intros Hpost. rewrite Hpost in Hs. cbn [negb] in Hs.
        apply Forall_app. split; [|repeat constructor].
        apply (RunProperties.shape_forall _ true (skip_verify args) _ t Hs);
          try reflexivity; discriminate.
      * split; [reflexivity|]. now exists t, r.
    + exists t. split; [exact Ht|]. split.
      * intros Hpost. rewrite Hpost in Hs. cbn [negb] in Hs.
        apply (RunProperties.shape_forall _ true (skip_verify args) _ t Hs);
          try reflexivity; discriminate.
      * split; [reflexivity|]. split; [reflexivity|].
        inversion Hs as [ | f1 f2 prep Hf1 Hf2 Hprep _ | | ]; subst.
        apply Forall_app; split; [now apply RunProperties.collection_forall|].
        apply Forall_app; split; [now apply RunProperties.collection_forall|].
        now apply (RunProperties.preparation_forall _ (skip_verify args) _ Hprep).
Qed.

End WithEnv.
End CliProperties.

(** ** Runs of the scripted environment, continued *)
Module SceneFacts.
Import Tools Main Spec Props Script Scenes.

Lemma post_without_token_sends_nothing_witness :
  Fetchers.truthy (token_of Script.env (Some ""%string) (world (start empty_world)))
    = false /\
  LinkedinApi.post_to_linkedin Script.env "text" (Some ""%string) (start empty_world) =
  (Ok (LinkedinPoster.failure "LINKEDIN_ACCESS_TOKEN not set"),
   {| world := empty_world; trace := [EvPublish "text"] |}).
Proof.
  split; [reflexivity|].
  apply (LinkedinProperties.post_without_token_sends_nothing Script.env "text"
           (Some ""%string) (start empty_world)).
  reflexivity.
Defined.

Lemma valid_token_reaches_the_post_witness :
  validates Script.env None (start signed_in_world) = true /\
  exists r s',
    LinkedinApi.post_to_linkedin Script.env "text" None (start signed_in_world)
      = (Ok r, s') /\
    (trace s' = [EvPublish "text"; EvUserinfo; EvUgcPost "text"] \/
     (trace s' = [EvPublish "text"; EvUserinfo] /\
      LinkedinPoster.error r = Some "Could not get user ID from profile"%string)).
Proof.
  split; [reflexivity|].
  apply (LinkedinProperties.valid_token_reaches_the_post Script.env "text" None
           (start signed_in_world)).
  reflexivity.
Defined.

(** A live run that converges at once is published: the feeds are
    requested twice, the agent curates, writes and verifies, and the
    verified draft goes to LinkedIn. *)
Example converging_run_is_published :
  option_map status
    (match fst (run_workflow Script.env false 48 false 85 (start signed_in_world)) with
     | Ok r => Some r
     | Raised => None
     end) = Some (Some "success"%string) /\
  filter (fun e => negb (is_feed e))
    (trace (snd (run_workflow Script.env false 48 false 85 (start signed_in_world)))) =
  [ EvAgent (CuratorPrompt
               ("Found 1 articles:" ++ PyStr.nl ++ PyStr.nl ++
                "--- Article 1 ---" ++ PyStr.nl ++
                "Source: OpenAI" ++ PyStr.nl ++
                "Title: A title" ++ PyStr.nl ++
                "Date: T999999999" ++ PyStr.nl ++
                "URL: https://a.example/1" ++ PyStr.nl ++
                "Summary: A summary" ++ PyStr.nl ++ PyStr.nl));
    EvAgent (WriterPrompt "curated");
    EvAgent (VerifierPrompt "draft" "curated");
    EvPublish "draft"; EvUserinfo; EvUgcPost "draft" ]%string.
Proof. split; vm_compute; reflexivity. Qed.

(** A run in which the agent stops answering at the verification
    raises, with the draft in hand, and leaves nothing behind. *)
Example silent_verifier_run_raises :
  fst (run_workflow Script.env false 48 false 85 (start silent_verifier_world)) = Raised /\
  files (world (snd (run_workflow Script.env false 48 false 85
                       (start silent_verifier_world)))) = [] /\
  existsb is_linkedin
    (trace (snd (run_workflow Script.env false 48 false 85
                   (start silent_verifier_world)))) = false.
Proof. repeat split; vm_compute; reflexivity. Qed.

End SceneFacts.

(** ** The article fetcher *)
Module ArticleProperties.
Import Tools Props ArticleFetcher.

Local Open Scope string_scope.

Lemma single_spaced_cons (a b : ascii) (rest : string) :
  single_spaced (String a (String b rest)) =
  negb (Ascii.eqb a " " && Ascii.eqb b " ") && single_spaced (String b rest).
Proof. reflexivity. Qed.

Lemma all_chars_lstrip (p : ascii -> bool) (s : string) :
  all_chars p s = true -> all_chars p (lstrip s) = true.
Proof.
  induction s as [|c s IH]; [reflexivity|].
  cbn [lstrip all_chars]. intros H. apply andb_prop in H. destruct H as [Hc Hs].
  destruct (is_space c); [apply IH, Hs|]. cbn [all_chars]. now rewrite Hc, Hs.
Qed.

Lemma all_chars_rstrip (p : ascii -> bool) (s : string) :
  all_chars p s = true -> all_chars p (rstrip s) = true.
Proof.
  induction s as [|c s IH]; [reflexivity|].
  cbn [rstrip all_chars]. intros H. apply andb_prop in H. destruct H as [Hc Hs].
  specialize (IH Hs). destruct (rstrip s) as [|d kept].
  - destruct (is_space c); [reflexivity|]. cbn [all_chars]. now rewrite Hc.
  - cbn [all_chars] in *. now rewrite Hc, IH.
Qed.

Lemma all_chars_remove_controls (p : ascii -> bool) (s : string) :
  all_chars p s = true -> all_chars p (remove_controls s) = true.
Proof.
  induction s as [|c s IH]; [reflexivity|].
  cbn [remove_controls all_chars]. intros H. apply andb_prop in H. destruct H as [Hc Hs].
  destruct (is_control c); [apply IH, Hs|]. cbn [all_chars]. now rewrite Hc, IH.
Qed.

Lemma remove_controls_clean (s : string) :
  all_chars (fun c => negb (is_control c)) (remove_controls s) = true.
Proof.
  induction s as [|c s IH]; [reflexivity|].
  cbn [remove_controls]. destruct (is_control c) eqn:E; [exact IH|].
  cbn [all_chars]. now rewrite E, IH.
Qed.

Lemma collapse_spaces_plain (in_run : bool) (s : string) :
  all_chars plain (collapse_spaces in_run s) = true.
Proof.
  revert in_run. induction s as [|c s IH]; intros in_run; [reflexivity|].
  cbn [collapse_spaces]. destruct (is_space c) eqn:E.
  - destruct in_run; [apply IH|]. cbn [all_chars]. now rewrite IH.
  - cbn [all_chars]. unfold plain at 1. now rewrite E, IH.
Qed.

Lemma first_char_lstrip (s : string) (c : ascii) :
  first_char (lstrip s) = Some c -> is_space c = false.
Proof.
  induction s as [|a s IH]; [discriminate|].
  cbn [lstrip]. destruct (is_space a) eqn:E; [exact IH|].
  cbn [first_char]. intros H. injection H as <-. exact E.
Qed.

Lemma last_char_rstrip (s : string) (c : ascii) :
  last_char (rstrip s) = Some c -> is_space c = false.
Proof.
  induction s as [|a s IH]; [discriminate|].
  cbn [rstrip]. destruct (rstrip s) as [|d kept].
  - destruct (is_space a) eqn:E; [discriminate|].
    cbn [last_char]. intros H. injection H as <-. exact E.
  - cbn [last_char]. exact IH.
Qed.

Lemma first_char_rstrip (s : string) (c : ascii) :
  first_char (rstrip s) = Some c -> first_char s = Some c.
Proof.
  destruct s as [|a s]; [discriminate|].
  cbn [rstrip]. destruct (rstrip s) as [|d kept].
  - destruct (is_space a); [discriminate | exact (fun H => H)].
  - exact (fun H => H).
Qed.

Lemma length_lstrip (s : string) : (String.length (lstrip s) <= String.length s)%nat.
Proof.
  induction s as [|c s IH]; [reflexivity|].
  cbn [lstrip]. destruct (is_space c); cbn [String.length]; lia.
Qed.

Lemma length_rstrip (s : string) : (String.length (rstrip s) <= String.length s)%nat.
Proof.
  induction s as [|c s IH]; [reflexivity|].
  cbn [rstrip]. destruct (rstrip s) as [|d kept].
  - destruct (is_space c); cbn [String.length]; lia.
  - cbn [String.length] in *. lia.
Qed.

Lemma length_remove_controls (s : string) :
  (String.length (remove_controls s) <= String.length s)%nat.
Proof.
  induction s as [|c s IH]; [reflexivity|].
  cbn [remove_controls]. destruct (is_control c); cbn [String.length]; lia.
Qed.

Lemma length_collapse_spaces (in_run : bool) (s : string) :
  (String.length (collapse_spaces in_run s) <= String.length s)%nat.
Proof.
  revert in_run. induction s as [|c s IH]; intros in_run; [reflexivity|].
  cbn [collapse_spaces]. destruct (is_space c).
  - destruct in_run; cbn [String.length]; [specialize (IH true) | specialize (IH true)]; lia.
  - cbn [String.length]. specialize (IH false). lia.
Qed.

(** X26: the text that [clean_text] returns has no control character,
    no white space other than the space, and neither starts nor ends
    with a space; it is never longer than the text given. *)
Theorem clean_text_is_clean (text : string) :
  all_chars (fun c => negb (is_control c)) (clean_text text) = true /\
  all_chars (fun c => negb (is_space c) || Ascii.eqb c " ") (clean_text text) = true /\
  (forall c, first_char (clean_text text) = Some c -> is_space c = false) /\
  (forall c, last_char (clean_text text) = Some c -> is_space c = false) /\
  (String.length (clean_text text) <= String.length text)%nat.
Proof.
  unfold clean_text, strip. repeat split.
  - apply all_chars_rstrip, all_chars_lstrip, remove_controls_clean.
  - apply all_chars_rstrip, all_chars_lstrip, all_chars_remove_controls.
    apply (collapse_spaces_plain false text).
  - intros c H. apply first_char_rstrip in H. exact (first_char_lstrip _ c H).
  - intros c H. exact (last_char_rstrip _ c H).
  - etransitivity; [apply length_rstrip|]. etransitivity; [apply length_lstrip|].
    etransitivity; [apply length_remove_controls | apply length_collapse_spaces].
Qed.

(** Without a control character that is not white space, nothing is
    left to remove once the white space is collapsed. *)
Lemma remove_controls_collapsed (in_run : bool) (s : string) :
  all_chars (fun c => negb (is_control c) || is_space c) s = true ->
  remove_controls (collapse_spaces in_run s) = collapse_spaces in_run s.
Proof.
  revert in_run. induction s as [|c s IH]; intros in_run H; [reflexivity|].
  cbn [all_chars] in H. apply andb_prop in H. destruct H as [Hc Hs].
  cbn [collapse_spaces]. destruct (is_space c) eqn:E.
  - destruct in_run; [now apply IH|].
    cbn [remove_controls]. change (is_control " ") with false. cbv iota.
    now rewrite IH.
  - rewrite orb_false_r in Hc. apply negb_true_iff in Hc.
    cbn [remove_controls]. now rewrite Hc, IH.
Qed.

Lemma collapse_spaces_single (s : string) :
  (forall c, first_char (collapse_spaces true s) = Some c -> c <> " "%char) /\
  single_spaced (collapse_spaces true s) = true /\
  single_spaced (collapse_spaces false s) = true.
Proof.
  induction s as [|a s (IHf & IHt & IHn)]; [repeat split; discriminate|].
  cbn [collapse_spaces]. destruct (is_space a) eqn:E.
  - split; [exact IHf|]. split; [exact IHt|].
    destruct (collapse_spaces true s) as [|b rest] eqn:Er; [reflexivity|].
    rewrite single_spaced_cons, IHt.
    destruct (Ascii.eqb_spec b " ") as [->|]; [|now rewrite andb_false_r].
    now elim (IHf " "%char eq_refl).
  - assert (Ha : Ascii.eqb a " " = false).
    { destruct (Ascii.eqb_spec a " ") as [->|]; [discriminate | reflexivity]. }
    assert (Hs : single_spaced (String a (collapse_spaces false s)) = true).
    { destruct (collapse_spaces false s) as [|b rest]; [reflexivity|].
      rewrite single_spaced_cons, Ha, IHn. reflexivity. }
    split; [|split; exact Hs].
    cbn [first_char]. intros c H. injection H as <-. intros ->. discriminate.
Qed.

Lemma single_spaced_tail (c : ascii) (s : string) :
  single_spaced (String c s) = true -> single_spaced s = true.
Proof.
  destruct s as [|b rest]; [reflexivity|].
  rewrite single_spaced_cons. intros H. apply andb_prop in H. exact (proj2 H).
Qed.

Lemma single_spaced_lstrip (s : string) :
  single_spaced s = true -> single_spaced (lstrip s) = true.
Proof.
  induction s as [|c s IH]; [reflexivity|].
  intros H. cbn [lstrip]. destruct (is_space c); [|exact H].
  apply IH, (single_spaced_tail c s H).
Qed.

Lemma single_spaced_rstrip (s : string) :
  single_spaced s = true -> single_spaced (rstrip s) = true.
Proof.
  induction s as [|c s IH]; [reflexivity|].
  intros H. pose proof (IH (single_spaced_tail c s H)) as IHs.
  cbn [rstrip]. destruct (rstrip s) as [|d kept] eqn:Er.
  - destruct (is_space c); reflexivity.
  - destruct s as [|b rest]; [discriminate|].
    assert (Hd : d = b).
    { cbn [rstrip] in Er. destruct (rstrip rest).
      - destruct (is_space b); [discriminate | now injection Er as <-].
      - now injection Er as <-. }
    subst d. rewrite single_spaced_cons in *.
    apply andb_prop in H. destruct H as [H1 _]. now rewrite H1, IHs.
Qed.

(** A text in the form that [clean_text] gives is left as it is. *)
Lemma collapse_spaces_fixed (s : string) :
  all_chars plain s = true -> single_spaced s = true ->
  collapse_spaces false s = s /\
  ((forall c, first_char s = Some c -> is_space c = false) ->
   collapse_spaces true s = s).
Proof.
  induction s as [|a s IH]; [now split|].
  intros Hp Hs. cbn [all_chars] in Hp. apply andb_prop in Hp. destruct Hp as [Ha Hp].
  destruct (IH Hp (single_spaced_tail a s Hs)) as [IHn IHt].
  cbn [collapse_spaces]. destruct (is_space a) eqn:E.
  - unfold plain in Ha. rewrite E in Ha. cbn [negb orb] in Ha.
    apply Ascii.eqb_eq in Ha. subst a. split.
    + f_equal. apply IHt. intros c Hc.
      destruct s as [|b rest]; [discriminate|]. cbn [first_char] in Hc.
      injection Hc as <-. rewrite single_spaced_cons in Hs.
      apply andb_prop in Hs. destruct Hs as [Hs _].
      change (Ascii.eqb " " " ") with true in Hs. cbn [andb negb] in Hs.
      destruct (is_space b) eqn:Eb; [|reflexivity].
      cbn [all_chars] in Hp. apply andb_prop in Hp. destruct Hp as [Hb _].
      unfold plain in Hb. rewrite Eb in Hb. cbn [negb orb] in Hb.
      rewrite Hb in Hs. discriminate.
    + intros Hf. specialize (Hf " "%char eq_refl). discriminate.
  - split; [now rewrite IHn | intros _; now rewrite IHn].
Qed.

Lemma remove_controls_fixed (s : string) :
  all_chars (fun c => negb (is_control c)) s = true -> remove_controls s = s.
Proof.
  induction s as [|c s IH]; [reflexivity|].
  cbn [all_chars]. intros H. apply andb_prop in H. destruct H as [Hc Hs].
  apply negb_true_iff in Hc. cbn [remove_controls]. now rewrite Hc, IH.
Qed.

Lemma lstrip_fixed (s : string) :
  (forall c, first_char s = Some c -> is_space c = false) -> lstrip s = s.
Proof.
  destruct s as [|a s]; [reflexivity|].
  intros H. cbn [lstrip]. now rewrite (H a eq_refl).
Qed.

Lemma rstrip_fixed (s : string) :
  (forall c, last_char s = Some c -> is_space c = false) -> rstrip s = s.
Proof.
  induction s as [|a s IH]; [reflexivity|].
  intros H. cbn [rstrip]. destruct s as [|b rest].
  - cbn [rstrip]. now rewrite (H a eq_refl).
  - rewrite IH; [reflexivity|]. intros c Hc. apply H. exact Hc.
Qed.

(** X27: on a text whose control characters are all white space (tabs,
    line ends and the like), [clean_text] leaves single spaces only,
    and cleaning the result again changes nothing. *)
Theorem clean_text_settles (text : string) :
  all_chars (fun c => negb (is_control c) || is_space c) text = true ->
  single_spaced (clean_text text) = true /\
  clean_text (clean_text text) = clean_text text.
Proof.
  intros H.
  assert (Hs : single_spaced (clean_text text) = true).
  { unfold clean_text, strip. rewrite (remove_controls_collapsed false text H).
    apply single_spaced_rstrip, single_spaced_lstrip.
    apply (collapse_spaces_single text). }
  split; [exact Hs|].
  assert (Hclean : all_chars (fun c => negb (is_control c)) (clean_text text) = true).
  { unfold clean_text, strip.
    apply all_chars_rstrip, all_chars_lstrip, remove_controls_clean. }
  assert (Hplain : all_chars plain (clean_text text) = true).
  { unfold clean_text, strip.
    apply all_chars_rstrip, all_chars_lstrip, all_chars_remove_controls.
    apply (collapse_spaces_plain false text). }
  assert (Hfirst : forall c, first_char (clean_text text) = Some c -> is_space c = false).
  { unfold clean_text, strip. intros c Hc. apply first_char_rstrip in Hc.
    exact (first_char_lstrip _ c Hc). }
  assert (Hlast : forall c, last_char (clean_text text) = Some c -> is_space c = false).
  { unfold clean_text, strip. intros c Hc. exact (last_char_rstrip _ c Hc). }
  set (u := clean_text text) in *.
  unfold clean_text at 1, strip.
  rewrite (proj1 (collapse_spaces_fixed u Hplain Hs)).
  rewrite (remove_controls_fixed u Hclean).
  rewrite (lstrip_fixed u Hfirst). apply (rstrip_fixed u Hlast).
Qed.

Lemma clean_text_settles_witness :
  all_chars (fun c => negb (is_control c) || is_space c)
    ("  A   title" ++ PyStr.nl ++ " in two lines ") = true /\
  clean_text ("  A   title" ++ PyStr.nl ++ " in two lines ") = "A title in two lines" /\
  single_spaced (clean_text ("  A   title" ++ PyStr.nl ++ " in two lines ")) = true /\
  clean_text (clean_text ("  A   title" ++ PyStr.nl ++ " in two lines "))
    = clean_text ("  A   title" ++ PyStr.nl ++ " in two lines ").
Proof.
  split; [vm_compute; reflexivity|]. split; [vm_compute; reflexivity|].
  apply (clean_text_settles ("  A   title" ++ PyStr.nl ++ " in two lines ")).
  vm_compute. reflexivity.
Defined.

(** A control character between two spaces goes after the white
    space is collapsed: its two neighbours stay, and a second
    cleaning is not the same as one. *)
Example clean_text_can_leave_two_spaces :
  clean_text ("a " ++ String "001" " b") = "a  b" /\
  clean_text (clean_text ("a " ++ String "001" " b")) = "a b".
Proof. split; vm_compute; reflexivity. Qed.

Lemma length_append (a b : string) :
  String.length (a ++ b) = (String.length a + String.length b)%nat.
Proof. induction a as [|c a IH]; [reflexivity|]. cbn. now rewrite IH. Qed.

Lemma length_take (n : nat) (s : string) : (String.length (PyStr.take n s) <= n)%nat.
Proof.
  unfold PyStr.take. revert s. induction n as [|n IH]; intros s.
  - destruct s; cbn; lia.
  - destruct s as [|c s]; cbn [substring String.length]; [lia|].
    specialize (IH s). lia.
Qed.

Section WithWeb.
Context {World : Type} (web : Web World).

(** X28: [fetch_article_content] never raises and always answers for
    the URL it was given. A failed request gives the title "Fetch
    error", any other failure "Parse error", a page without a
    container and without a body "Could not fetch". Otherwise the
    content is made of the cleaned paragraphs of more than 30
    characters, and for a [max_length] that is not negative it has
    at most [max_length + 3] characters. *)
Theorem fetched_content_is_bounded (url : string) (max_length : Z) (s : state World) :
  exists a s',
    fetch_article_content web url max_length s = (Ok a, s') /\
    trace s' = trace s /\
    ArticleFetcher.url a = url /\
    match fst (requests_get web url (world s)) with
    | RequestFailed message =>
        title a = "Fetch error" /\ content a = "Could not fetch article: " ++ message
    | ParseFailed message =>
        title a = "Parse error" /\ content a = "Could not parse article: " ++ message
    | Parsed page =>
        match article page with
        | None => title a = "Could not fetch"
        | Some paragraphs =>
            (0 <= max_length ->
             Z.of_nat (String.length (content a)) <= max_length + 3) /\
            exists parts,
              parts = filter (fun p => (30 <? String.length p)%nat)
                             (map clean_text paragraphs) /\
              (content a = join (PyStr.nl ++ PyStr.nl) parts \/
               content a = slice_to max_length (join (PyStr.nl ++ PyStr.nl) parts) ++ "...")
        end
    end.
Proof.
  unfold fetch_article_content, bind, call, ret.
  destruct (requests_get web url (world s)) as [[page | message | message] w];
    cbn [fst]; eexists _, _; (split; [reflexivity|]); (split; [reflexivity|]);
    try (split; [reflexivity | split; reflexivity]).
  unfold extract. destruct (article page) as [paragraphs|]; cbn [ArticleFetcher.url title content].
  2:{ split; reflexivity. }
  split; [reflexivity|].
  set (body := join (PyStr.nl ++ PyStr.nl)
                 (filter (fun text => (30 <? String.length text)%nat)
                         (map clean_text paragraphs))).
  split.
  - intros Hmax. destruct (Z.ltb_spec max_length (Z.of_nat (String.length body))).
    + rewrite length_append. unfold slice_to.
      destruct (Z.leb_spec 0 max_length); [|lia].
      pose proof (length_take (Z.to_nat max_length) body). cbn [String.length]. lia.
    + lia.
  - eexists. split; [reflexivity|].
    destruct (max_length <? Z.of_nat (String.length body))%Z; [now right | now left].
Qed.

End WithWeb.
End ArticleProperties.
